(** * Policy gate, triage scorer and pipeline orchestrator of the bounty scanner

    A shallow embedding of [src/policy/policy_engine.py],
    [src/integrations/gemini_client.py], [src/triage/triage_ai.py] and
    [src/orchestrator.py], followed by the properties of the specification
    that are checked against it; and of [src/utils/rate_limiter.py],
    [src/reports/generator.py] and [src/scanners/crawler.py], with further
    properties that the code shows.

    The collaborators of the code (the advisory service, the file system,
    the scanners, the operator at the prompt, the clock) are inputs of the
    model: each call is given the outcome it had, a value or an exception.
    The audit trail and the order of the pipeline's calls are explicit
    state.

    Python [float] is IEEE binary64, which is the kernel's primitive [float];
    a Python [str] is modelled by the [string] of its UTF-8 bytes; the values
    that come out of [json.loads] are modelled by [pyval]. *)

From Stdlib Require Import String Ascii List ZArith Bool Floats Lia DecimalString.
From Stdlib Require Import Sorted Permutation.
Import ListNotations.

Set Warnings "-inexact-float,-register-all".

Open Scope string_scope.

(** ** Python primitives *)

Module Py.

(** What [str(e)] shows of a raised exception. *)
Definition exn := string.

Inductive result (A : Type) : Type :=
| Ok (a : A)
| Raise (e : exn).
Arguments Ok {A} a.
Arguments Raise {A} e.

Definition bind {A B : Type} (m : result A) (k : A -> result B) : result B :=
  match m with
  | Ok a => k a
  | Raise e => Raise e
  end.

Notation "x <- m ;; k" := (bind m (fun x => k))
  (at level 61, m at next level, right associativity).

(** [s[n:]] *)
Fixpoint drop (n : nat) (s : string) : string :=
  match n, s with
  | O, _ => s
  | S _, EmptyString => EmptyString
  | S n', String _ s' => drop n' s'
  end.

(** [s[:n]] *)
Fixpoint take (n : nat) (s : string) : string :=
  match n, s with
  | O, _ => EmptyString
  | S _, EmptyString => EmptyString
  | S n', String c s' => String c (take n' s')
  end.

(** [s.startswith(p)] *)
Definition startswith (s p : string) : bool := String.prefix p s.

(** [sub in s] *)
Fixpoint contains (s sub : string) : bool :=
  String.prefix sub s ||
  match s with
  | EmptyString => false
  | String _ s' => contains s' sub
  end.

(** [s.endswith(suf)] *)
Definition endswith (s suf : string) : bool :=
  let n := String.length s in
  let m := String.length suf in
  (m <=? n)%nat && (drop (n - m) s =? suf).

Definition lower_ascii (c : ascii) : ascii :=
  let n := nat_of_ascii c in
  if ((65 <=? n) && (n <=? 90))%nat then ascii_of_nat (n + 32) else c.

(** [s.lower()], on the ASCII letters; other bytes are kept. *)
Fixpoint lower (s : string) : string :=
  match s with
  | EmptyString => EmptyString
  | String c s' => String (lower_ascii c) (lower s')
  end.

(** [s.replace(a, b)] for one-character [a] and [b]. *)
Fixpoint replace_char (a b : ascii) (s : string) : string :=
  match s with
  | EmptyString => EmptyString
  | String c s' => String (if Ascii.eqb c a then b else c) (replace_char a b s')
  end.

(** [c.isspace()] for an ASCII character: the space, tab to carriage
    return, and the four separators. *)
Definition is_space (c : ascii) : bool :=
  let n := nat_of_ascii c in
  ((n =? 32) || ((9 <=? n) && (n <=? 13)) || ((28 <=? n) && (n <=? 31)))%nat.

(** The white space beyond ASCII, by its UTF-8 bytes: U+0085 and U+00A0
    take two bytes; U+1680, U+2000 to U+200A, U+2028, U+2029, U+202F,
    U+205F and U+3000 take three. *)
Definition is_space2 (c d : ascii) : bool :=
  let n := nat_of_ascii d in
  ((nat_of_ascii c =? 194) && ((n =? 133) || (n =? 160)))%nat.

Definition is_space3 (c d e : ascii) : bool :=
  let a := nat_of_ascii c in
  let b := nat_of_ascii d in
  let n := nat_of_ascii e in
  (((a =? 225) && (b =? 154) && (n =? 128)) ||
   ((a =? 226) && (b =? 128) &&
    (((128 <=? n) && (n <=? 138)) || (n =? 168) || (n =? 169) || (n =? 175))) ||
   ((a =? 226) && (b =? 129) && (n =? 159)) ||
   ((a =? 227) && (b =? 128) && (n =? 128)))%nat.

(** [s.lstrip()] *)
Fixpoint lstrip (s : string) : string :=
  match s with
  | EmptyString => EmptyString
  | String c s1 =>
      if is_space c then lstrip s1
      else
        match s1 with
        | EmptyString => s
        | String d s2 =>
            if is_space2 c d then lstrip s2
            else
              match s2 with
              | EmptyString => s
              | String e s3 => if is_space3 c d e then lstrip s3 else s
              end
        end
  end.

(** [s.rstrip()]: what is left from a byte on goes when it is white space
    only. (A byte inside a character starts no white space, so the test
    fails there.) *)
Fixpoint rstrip (s : string) : string :=
  match s with
  | EmptyString => EmptyString
  | String c s' => if lstrip s =? "" then EmptyString else String c (rstrip s')
  end.

(** [s.strip()] *)
Definition strip (s : string) : string := rstrip (lstrip s).

(** [sep.join(l)] on a list of strings. *)
Fixpoint join (sep : string) (l : list string) : string :=
  match l with
  | [] => ""
  | [s] => s
  | s :: rest => s ++ sep ++ join sep rest
  end.

Definition str_of_nat (n : nat) : string := NilEmpty.string_of_uint (Nat.to_uint n).
Definition str_of_Z (z : Z) : string := NilEmpty.string_of_int (Z.to_int z).

(** The values [json.loads] builds. A [PDict] lists the items of the
    dictionary in insertion order. *)
Inductive pyval : Type :=
| PNone
| PBool (b : bool)
| PInt (z : Z)
| PFloat (f : float)
| PStr (s : string)
| PList (l : list pyval)
| PDict (d : list (string * pyval)).

Definition type_name (v : pyval) : string :=
  match v with
  | PNone => "NoneType"
  | PBool _ => "bool"
  | PInt _ => "int"
  | PFloat _ => "float"
  | PStr _ => "str"
  | PList _ => "list"
  | PDict _ => "dict"
  end.

(** Truth value of [v] in a condition. *)
Definition truthy (v : pyval) : bool :=
  match v with
  | PNone => false
  | PBool b => b
  | PInt z => negb (z =? 0)%Z
  | PFloat f => negb (PrimFloat.eqb f 0%float)
  | PStr s => negb (s =? "")
  | PList l => match l with [] => false | _ => true end
  | PDict d => match d with [] => false | _ => true end
  end.

(** [v == s] for a string literal [s]. *)
Definition eq_str (v : pyval) (s : string) : bool :=
  match v with
  | PStr t => t =? s
  | _ => false
  end.

Fixpoint lookup (d : list (string * pyval)) (key : string) : option pyval :=
  match d with
  | [] => None
  | (k, v) :: rest => if k =? key then Some v else lookup rest key
  end.

(** [d.get(key, default)] on a dictionary. *)
Definition dict_get (d : list (string * pyval)) (key : string) (default : pyval) : pyval :=
  match lookup d key with
  | Some v => v
  | None => default
  end.

(** [v.get(key, default)]: only a dictionary has the method. *)
Definition get (v : pyval) (key : string) (default : pyval) : result pyval :=
  match v with
  | PDict d => Ok (dict_get d key default)
  | _ => Raise ("'" ++ type_name v ++ "' object has no attribute 'get'")
  end.

(** A byte that continues a character of more than one byte. *)
Definition is_continuation (c : ascii) : bool :=
  let n := nat_of_ascii c in ((128 <=? n) && (n <=? 191))%nat.

(** The characters of a string, each with all its bytes. *)
Fixpoint chars (s : string) : list string :=
  match s with
  | EmptyString => []
  | String c s' =>
      let rest := chars s' in
      match s' with
      | EmptyString => String c EmptyString :: rest
      | String d _ =>
          if is_continuation d then
            match rest with
            | g :: gs => String c g :: gs
            | [] => [String c EmptyString]
            end
          else String c EmptyString :: rest
      end
  end.

(** The strings of a list, or the first item that is not one. *)
Fixpoint strings_from (i : nat) (l : list pyval) : result (list string) :=
  match l with
  | [] => Ok []
  | PStr s :: rest => rest' <- strings_from (S i) rest ;; Ok (s :: rest')
  | v :: _ =>
      Raise ("sequence item " ++ str_of_nat i ++ ": expected str instance, "
             ++ type_name v ++ " found")
  end.

(** [sep.join(v)]: a list is joined when all its items are strings, a string
    is iterated by character and a dictionary by key; anything else is not
    iterable. *)
Definition join_val (sep : string) (v : pyval) : result string :=
  match v with
  | PList l => l' <- strings_from 0 l ;; Ok (join sep l')
  | PStr s => Ok (join sep (chars s))
  | PDict d => Ok (join sep (map fst d))
  | _ => Raise "can only join an iterable"
  end.

(** An f-string whose interpolated values are kept as they are: [Lit s] is
    literal text and [Fmt v] stands for [str(v)]. *)
Inductive piece : Type :=
| Lit (s : string)
| Fmt (v : pyval).

Definition fstring := list piece.

(** [float(z)], correctly rounded; Python refuses integers beyond the range
    of a double. *)
Definition float_of_Z (z : Z) : result float :=
  let f := SF2Prim (SpecFloat.binary_normalize prec emax z 0 false) in
  if PrimFloat.is_infinity f
  then Raise "int too large to convert to float"
  else Ok f.

(** The float a number stands for in arithmetic; [None] for what is not a
    number (or too large an integer). *)
Definition numeric_value (v : pyval) : option float :=
  match v with
  | PFloat f => Some f
  | PInt z => match float_of_Z z with Ok f => Some f | Raise _ => None end
  | PBool b => Some (if b then 1 else 0)%float
  | _ => None
  end.

(** [w * v] for a float [w]. *)
Definition float_mul (w : float) (v : pyval) : result float :=
  match v with
  | PFloat f => Ok (w * f)%float
  | PInt z => f <- float_of_Z z ;; Ok (w * f)%float
  | PBool b => Ok (w * (if b then 1 else 0))%float
  | PStr _ | PList _ => Raise "can't multiply sequence by non-int of type 'float'"
  | PNone | PDict _ =>
      Raise ("unsupported operand type(s) for *: 'float' and '" ++ type_name v ++ "'")
  end.

End Py.

Import Py.

(** ** Configuration ([src/config.py]) *)

(** The entries of the configuration dictionary that the modelled code reads. *)
Record Config : Type := {
  GEMINI_API_KEY : string;
  ALLOW_MANUAL_UNBLOCK : bool;
  OUTPUT_DIR : string;
  ML_WEIGHT : float;
  LLM_WEIGHT : float
}.

(** [config.get('GEMINI_API_KEY')] as a condition: a non-empty key. *)
Definition has_api_key (config : Config) : bool :=
  negb (GEMINI_API_KEY config =? "").

(** ** Findings *)

(** The dictionary a scanner produces for one finding. The keys the code
    reads with a default are optional; [evidence] is a structured value. *)
Record Finding : Type := {
  f_target : option string;
  f_name : option string;
  f_severity : option string;
  f_description : option string;
  f_evidence : option pyval
}.

Definition get_or {A : Type} (o : option A) (default : A) : A :=
  match o with
  | Some a => a
  | None => default
  end.

(** ** The advisory client ([src/integrations/gemini_client.py]) *)

Module Gemini.

(** How one request to the advisory service ends: [call_gemini] raised
    (after its retries); it returned a text that the JSON parser refused; or
    it returned a text that parsed to [v]. *)
Inductive Advisory : Type :=
| CallRaised (e : exn)
| ParseRaised (e : exn)
| Parsed (v : pyval).

(** [x[:500]] on the evidence: strings and lists can be sliced. *)
Definition slice500 (v : pyval) : result pyval :=
  match v with
  | PStr s => Ok (PStr (take 500 s))
  | PList l => Ok (PList (firstn 500 l))
  | PDict _ => Raise "unhashable type: 'slice'"
  | _ => Raise ("'" ++ type_name v ++ "' object is not subscriptable")
  end.

Definition neutral (explanation : string) : list (string * pyval) :=
  [("llm_score", PFloat 0.5); ("llm_explanation", PStr explanation);
   ("confidence", PFloat 0.0)].

(** [GeminiClient.score_finding]. [enabled] is the client's flag and
    [gemini] the outcome of the request, had it been sent. The prompt is
    built before the [try], so a failure there is raised to the caller. *)
Definition score_finding (enabled : bool) (gemini : Advisory) (finding_data : Finding)
  : result (list (string * pyval)) :=
  if negb enabled then Ok (neutral "Gemini not available")
  else
    _ <- slice500 (get_or (f_evidence finding_data) (PStr "N/A")) ;;
    match gemini with
    | CallRaised e => Ok (neutral ("Error: " ++ e))
    | ParseRaised _ => Ok (neutral "Failed to parse response")
    | Parsed result =>
        if truthy result then
          match
            (score <- get result "score" (PFloat 0.5) ;;
             explanation <- get result "explanation" (PStr "") ;;
             confidence <- get result "confidence" (PFloat 0.5) ;;
             severity <- get result "severity" (PStr "unknown") ;;
             is_likely_fp <- get result "is_likely_fp" (PBool false) ;;
             Ok [("llm_score", score); ("llm_explanation", explanation);
                 ("confidence", confidence); ("llm_severity", severity);
                 ("is_likely_fp", is_likely_fp)])
          with
          | Ok d => Ok d
          | Raise e => Ok (neutral ("Error: " ++ e))
          end
        else Ok (neutral "Failed to parse response")
    end.

End Gemini.

(** ** The policy engine ([src/policy/policy_engine.py]) *)

Module Policy.

Import Gemini.

Record PolicyDecision : Type := {
  decision : pyval;
  confidence : pyval;
  reason : string;
  details : fstring
}.

(** One call of [log_policy_decision]. *)
Record AuditRecord : Type := {
  a_target : string;
  a_action : string;
  a_decision : pyval;
  a_reason : string;
  a_confidence : pyval
}.

(** Computations that append to the audit trail. *)
Definition Audit (A : Type) : Type := list AuditRecord -> A * list AuditRecord.

Definition ret {A : Type} (a : A) : Audit A := fun log => (a, log).

Definition seq {A : Type} (m : Audit unit) (k : Audit A) : Audit A :=
  fun log => k (snd (m log)).

Notation "m >> k" := (seq m k) (at level 62, right associativity).

Definition log_policy_decision (target action : string) (d : pyval) (reason : string)
    (confidence : pyval) : Audit unit :=
  fun log =>
    (tt, (log ++ [ {| a_target := target; a_action := action; a_decision := d;
                      a_reason := reason; a_confidence := confidence |} ])%list).

(** A rule of the manifest. *)
Record Rule : Type := {
  id : string;
  pattern : string;
  notes : string
}.

Record Manifest : Type := {
  blocked_patterns : list Rule;
  requires_validation : list Rule
}.

Definition _get_default_manifest : Manifest := {|
  blocked_patterns := [
    {| id := "rce-templates";
       pattern := "(rce|remote[-_]?exec|command[-_]?injection)";
       notes := "Remote code execution - high risk" |};
    {| id := "sql-exploit";
       pattern := "(sqlmap|sql[-_]?injection[-_]?exploit)";
       notes := "SQL exploitation tools - requires manual approval" |};
    {| id := "file-upload-exec";
       pattern := "(upload[-_]?exec|webshell)";
       notes := "File upload exploitation - destructive" |};
    {| id := "dos-attacks";
       pattern := "(dos|denial[-_]?of[-_]?service|slowloris)";
       notes := "Denial of service - always blocked" |} ];
  requires_validation := [
    {| id := "auth-bypass";
       pattern := "(auth[-_]?bypass|authentication)";
       notes := "Authentication testing - validate scope" |};
    {| id := "file-inclusion";
       pattern := "(lfi|rfi|file[-_]?inclusion)";
       notes := "File inclusion - validate if read-only" |} ]
|}.

(** [_load_blocked_manifest]: [file] is [None] when the manifest file does
    not exist, and otherwise the outcome of reading it. *)
Definition _load_blocked_manifest (file : option (result Manifest)) : Manifest :=
  match file with
  | None => _get_default_manifest
  | Some (Ok m) => m
  | Some (Raise _) => _get_default_manifest
  end.

Record PolicyEngine : Type := {
  config : Config;
  blocked_manifest : Manifest
}.

(** The two pattern lists of a scope definition. *)
Record ScopeData : Type := {
  in_scope : list string;
  out_of_scope : list string
}.

(** The strings of a JSON list, when all its items are strings. *)
Fixpoint patterns_of (items : list pyval) : option (list string) :=
  match items with
  | [] => Some []
  | PStr p :: rest =>
      match patterns_of rest with
      | Some ps => Some (p :: ps)
      | None => None
      end
  | _ :: _ => None
  end.

Definition pattern_list (v : pyval) : option (list string) :=
  match v with
  | PList items => patterns_of items
  | _ => None
  end.

(** The scope definition that the value of a scope file holds, when the
    value is an object whose [in_scope] and [out_of_scope], where present,
    are lists of strings. *)
Definition read_scope (scope_data : pyval) : option ScopeData :=
  match scope_data with
  | PDict d =>
      match pattern_list (dict_get d "in_scope" (PList [])),
            pattern_list (dict_get d "out_of_scope" (PList [])) with
      | Some ins, Some outs => Some {| in_scope := ins; out_of_scope := outs |}
      | _, _ => None
      end
  | _ => None
  end.

(** The value of the scope file of a scope definition. *)
Definition scope_json (scope : ScopeData) : pyval :=
  PDict [("in_scope", PList (map PStr (in_scope scope)));
         ("out_of_scope", PList (map PStr (out_of_scope scope)))].

Record ActionDescriptor : Type := {
  scanner : option string;
  target : option string;
  template : option string;
  severity : option string
}.

Definition _matches_pattern (target pattern : string) : bool :=
  if target =? pattern then true
  else if startswith pattern "*." &&
          (let domain_suffix := drop 2 pattern in
           endswith target domain_suffix || (target =? domain_suffix))
  then true
  else if endswith target ("." ++ pattern) then true
  else false.

(** [for pattern in v]: the items of a list, the characters of a string and
    the keys of a dictionary; no other value of a JSON file is iterable. *)
Definition iterate (v : pyval) : result (list pyval) :=
  match v with
  | PList items => Ok items
  | PStr s => Ok (map PStr (chars s))
  | PDict d => Ok (map (fun item => PStr (fst item)) d)
  | _ => Raise ("'" ++ type_name v ++ "' object is not iterable")
  end.

(** The loop [for pattern in patterns: if self._matches_pattern(target,
    pattern): ...], up to the first pattern that matches. A pattern that is
    not a string is never equal to the target and has no [startswith]: the
    loop raises when it comes to one. *)
Fixpoint first_match (target : string) (patterns : list pyval) : result (option string) :=
  match patterns with
  | [] => Ok None
  | PStr pattern :: rest =>
      if _matches_pattern target pattern then Ok (Some pattern)
      else first_match target rest
  | v :: _ => Raise ("'" ++ type_name v ++ "' object has no attribute 'startswith'")
  end.

(** [_validate_scope_with_gemini]; the prompt goes to the service, whose
    outcome is [gemini]. *)
Definition _validate_scope_with_gemini (gemini : Advisory) (target : string)
    (scope_data : pyval) : PolicyDecision :=
  let failed e :=
    {| decision := PStr "UNKNOWN"; confidence := PFloat 0.0;
       reason := "Gemini validation error: " ++ e;
       details := [Lit "Manual review required"] |} in
  match gemini with
  | CallRaised e => failed e
  | ParseRaised e => failed e
  | Parsed result =>
      match
        (d <- get result "decision" (PStr "UNKNOWN") ;;
         c <- get result "confidence" (PFloat 0.0) ;;
         reasons <- get result "reasons" (PList [PStr "Gemini validation"]) ;;
         r <- join_val "; " reasons ;;
         steps <- get result "suggested_next_steps" (PList []) ;;
         s <- join_val "; " steps ;;
         Ok {| decision := d; confidence := c; reason := r; details := [Lit s] |})
      with
      | Ok d => d
      | Raise e => failed e
      end
  end.

(** [_validate_action_with_gemini] *)
Definition _validate_action_with_gemini (gemini : Advisory)
    (action_descriptor : ActionDescriptor) : PolicyDecision :=
  let failed e :=
    {| decision := PStr "BLOCKED"; confidence := PFloat 0.0;
       reason := "Validation error: " ++ e;
       details := [Lit "Failed to validate, blocking for safety"] |} in
  match gemini with
  | CallRaised e => failed e
  | ParseRaised e => failed e
  | Parsed result =>
      match
        (d <- get result "decision" (PStr "BLOCKED") ;;
         c <- get result "confidence" (PFloat 0.0) ;;
         reasons <- get result "reasons" (PList [PStr "Gemini validation"]) ;;
         r <- join_val "; " reasons ;;
         risk <- get result "risk_level" (PStr "unknown") ;;
         Ok {| decision := d; confidence := c; reason := r;
               details := [Lit "Risk level: "; Fmt risk] |})
      with
      | Ok d => d
      | Raise e => failed e
      end
  end.

(** The decision values the advisory service is asked to answer with. *)
Definition in_enum (v : pyval) : bool :=
  eq_str v "ALLOWED" || eq_str v "BLOCKED" || eq_str v "UNKNOWN".

Definition logged (target action : string) (d : PolicyDecision) : Audit PolicyDecision :=
  log_policy_decision target action (decision d) (reason d) (confidence d) >> ret d.

(** A computation of the engine that returns, and one that raises: an
    exception leaves the audit trail as it is. *)
Definition returned {A : Type} (m : Audit A) : Audit (result A) :=
  fun log => let (a, log') := m log in (Ok a, log').

Definition raised {A : Type} (e : exn) : Audit (result A) :=
  fun log => (Raise e, log).

(** [is_target_in_scope]. [load_scope] is the outcome of opening the scope
    file at a path and parsing it as JSON; only that is inside the [try].
    What the value holds is read after it, so a value that is no object, a
    scope that cannot be iterated and a pattern that is no string raise to
    the caller. *)
Definition is_target_in_scope (self : PolicyEngine)
    (load_scope : string -> result pyval) (gemini : Advisory)
    (target : string) (scope_file : option string) : Audit (result PolicyDecision) :=
  match scope_file with
  | None | Some "" =>
      returned
        (logged target "scope_check"
           {| decision := PStr "UNKNOWN"; confidence := PFloat 0.0;
              reason := "No scope file provided";
              details :=
                [Lit "Provide --scope-file with in-scope targets from your bug bounty program"] |})
  | Some path =>
      match load_scope path with
      | Raise e =>
          returned
            (logged target "scope_check"
               {| decision := PStr "UNKNOWN"; confidence := PFloat 0.0;
                  reason := "Failed to load scope file: " ++ e;
                  details := [Lit "Check scope file format"] |})
      | Ok scope_data =>
          match
            (in_scope <- get scope_data "in_scope" (PList []) ;;
             out_of_scope <- get scope_data "out_of_scope" (PList []) ;;
             excluded <- (patterns <- iterate out_of_scope ;; first_match target patterns) ;;
             match excluded with
             | Some pattern => Ok (Some pattern, None)
             | None =>
                 included <- (patterns <- iterate in_scope ;; first_match target patterns) ;;
                 Ok (None, included)
             end)
          with
          | Raise e => raised e
          | Ok (Some pattern, _) =>
              returned
                (logged target "scope_check"
                   {| decision := PStr "BLOCKED"; confidence := PFloat 1.0;
                      reason := "Target matches out-of-scope pattern: " ++ pattern;
                      details :=
                        [Lit "This target is explicitly excluded from the program scope"] |})
          | Ok (None, Some pattern) =>
              returned
                (logged target "scope_check"
                   {| decision := PStr "ALLOWED"; confidence := PFloat 1.0;
                      reason := "Target matches in-scope pattern: " ++ pattern;
                      details := [Lit "Target is within defined program scope"] |})
          | Ok (None, None) =>
              if has_api_key (config self) then
                returned
                  (logged target "scope_check_gemini"
                     (_validate_scope_with_gemini gemini target scope_data))
              else
                returned
                  (logged target "scope_check"
                     {| decision := PStr "UNKNOWN"; confidence := PFloat 0.0;
                        reason := "Target does not match any scope patterns";
                        details :=
                          [Lit "Add target to scope file or enable Gemini validation"] |})
          end
      end
  end.

Section Rules.

(** [re.search(pattern, s, re.IGNORECASE)] as a condition, for the patterns
    of a manifest. *)
Variable re_search : string -> string -> bool.

(** [validate_scanner_action] *)
Definition validate_scanner_action (self : PolicyEngine) (gemini : Advisory)
    (action_descriptor : ActionDescriptor) : Audit PolicyDecision :=
  let scanner := get_or (scanner action_descriptor) "unknown" in
  let template := get_or (template action_descriptor) "" in
  let target := get_or (target action_descriptor) "" in
  match find (fun blocked => re_search (pattern blocked) template)
             (blocked_patterns (blocked_manifest self)) with
  | Some blocked =>
      logged target ("scanner_" ++ scanner)
        {| decision := PStr "BLOCKED"; confidence := PFloat 1.0;
           reason := "Template matches blocked pattern: " ++ id blocked;
           details := [Lit (notes blocked)] |}
  | None =>
      match find (fun validation_rule => re_search (pattern validation_rule) template)
                 (requires_validation (blocked_manifest self)) with
      | Some validation_rule =>
          let decision :=
            {| decision := PStr "REQUIRES_VALIDATION"; confidence := PFloat 0.5;
               reason := "Template requires validation: " ++ id validation_rule;
               details := [Lit (notes validation_rule)] |} in
          if has_api_key (config self) then
            logged target ("scanner_" ++ scanner ++ "_gemini")
              (_validate_action_with_gemini gemini action_descriptor)
          else
            logged target ("scanner_" ++ scanner) decision
      | None =>
          ret {| decision := PStr "ALLOWED"; confidence := PFloat 1.0;
                 reason := "No policy restrictions matched";
                 details := [Lit "Action is within safe parameters"] |}
      end
  end.

End Rules.

(** The audit record of decision [d] on [action], written under [name]. *)
Definition audit_of (action : ActionDescriptor) (name : string) (d : PolicyDecision)
  : AuditRecord :=
  {| a_target := get_or (target action) ""; a_action := name; a_decision := decision d;
     a_reason := reason d; a_confidence := confidence d |}.


(** [re.search(pattern, s, re.IGNORECASE)] for an ASCII pattern without
    metacharacters: the pattern occurs in [s], the case of letters aside. *)
Definition search_literal (pattern s : string) : bool :=
  contains (lower s) (lower pattern).

(** A manifest whose patterns are plain words. *)
Definition word_manifest : Manifest := {|
  blocked_patterns := [
    {| id := "sql-exploit"; pattern := "sqlmap";
       notes := "SQL exploitation tools - requires manual approval" |};
    {| id := "file-upload-exec"; pattern := "webshell";
       notes := "File upload exploitation - destructive" |} ];
  requires_validation := [
    {| id := "auth-bypass"; pattern := "authentication";
       notes := "Authentication testing - validate scope" |} ]
|}.

End Policy.

(** ** The triage engine ([src/triage/triage_ai.py]) *)

Module Triage.

(** The loaded classifier: a pipeline that was never fitted has no
    [classes_]; a fitted one answers [predict_proba([text])[0]]. *)
Inductive MLModel : Type :=
| Untrained
| Trained (predict_proba : fstring -> result (list float)).

Record TriageEngine : Type := {
  gemini_enabled : bool;
  ml_model : MLModel;
  ml_weight : float;
  llm_weight : float
}.

(** [TriageEngine.__init__], given the client's flag and the loaded model. *)
Definition init (config : Config) (enabled : bool) (model : MLModel) : TriageEngine :=
  {| gemini_enabled := enabled; ml_model := model;
     ml_weight := ML_WEIGHT config; llm_weight := LLM_WEIGHT config |}.

Record TriageResult : Type := {
  ml_score : float;
  llm_score : pyval;
  final_score : float;
  confidence : pyval;
  explanation : pyval;
  is_false_positive : pyval;
  severity_adjusted : string
}.

(** [_extract_text_features]: the four parts joined by a space. *)
Definition _extract_text_features (finding : Finding) : fstring :=
  [Lit (get_or (f_name finding) ""); Lit " ";
   Lit (get_or (f_description finding) ""); Lit " ";
   Lit (get_or (f_severity finding) ""); Lit " ";
   Fmt (get_or (f_evidence finding) (PDict []))].

(** [_ml_score] *)
Definition _ml_score (self : TriageEngine) (text_features : fstring) : float :=
  match ml_model self with
  | Trained predict_proba =>
      match predict_proba text_features with
      | Ok proba =>
          if (1 <? List.length proba)%nat then nth 1 proba 0.5%float else 0.5%float
      | Raise _ => 0.5%float
      end
  | Untrained => 0.5%float
  end.

(** [_adjust_severity] *)
Definition _adjust_severity (finding : Finding) (score : float) : string :=
  let original_severity := lower (get_or (f_severity finding) "unknown") in
  if (score <? 0.3)%float then "info"
  else if (score <? 0.5)%float then
    if existsb (String.eqb original_severity) ["high"; "critical"] then "medium"
    else original_severity
  else if (0.8 <? score)%float then
    if original_severity =? "medium" then "high"
    else original_severity
  else original_severity.

(** [score_finding]; [gemini] is the outcome of the advisory request. *)
Definition score_finding (self : TriageEngine) (gemini : Gemini.Advisory)
    (finding : Finding) : result TriageResult :=
  let text_features := _extract_text_features finding in
  let ml_score := _ml_score self text_features in
  llm_result <- Gemini.score_finding (gemini_enabled self) gemini finding ;;
  let llm_score := dict_get llm_result "llm_score" (PFloat 0.5) in
  let llm_explanation := dict_get llm_result "llm_explanation" (PStr "") in
  let confidence := dict_get llm_result "confidence" (PFloat 0.5) in
  weighted_llm <- float_mul (llm_weight self) llm_score ;;
  let final_score := (ml_weight self * ml_score + weighted_llm)%float in
  let flagged := dict_get llm_result "is_likely_fp" (PBool false) in
  let is_likely_fp :=
    if truthy flagged then flagged else PBool (final_score <? 0.3)%float in
  Ok {| ml_score := ml_score;
        llm_score := llm_score;
        final_score := final_score;
        confidence := confidence;
        explanation := llm_explanation;
        is_false_positive := is_likely_fp;
        severity_adjusted := _adjust_severity finding final_score |}.

End Triage.

(** ** The pipeline orchestrator ([src/orchestrator.py]) *)

Module Orchestrator.

Import Gemini Policy.

(** [int(x)]: truncation toward zero. *)
Definition int_of_float (x : float) : result Z :=
  match Prim2SF x with
  | S754_zero _ => Ok 0%Z
  | S754_infinity _ => Raise "cannot convert float infinity to integer"
  | S754_nan => Raise "cannot convert float NaN to integer"
  | S754_finite s m e =>
      let q := if (0 <=? e)%Z then (Z.pos m * 2 ^ e)%Z else (Z.pos m / 2 ^ (- e))%Z in
      Ok (if s then (- q)%Z else q)
  end.

(** [f"{int(now)}_{target.replace('.', '_')}"] *)
Definition make_run_id (now : float) (target : string) : result string :=
  seconds <- int_of_float now ;;
  Ok (str_of_Z seconds ++ "_" ++ replace_char "."%char "_"%char target).

Record ReconResults : Type := {
  subdomains : list string;
  live_hosts : list string
}.

(** [{**finding, **triage_result}] *)
Definition TriagedFinding : Type := (Finding * Triage.TriageResult)%type.

(** The run's calls to its collaborators, in order. *)
Inductive Event : Type :=
| Mkdir (base run_id : string)
| SaveRun (run_id target mode base : string)
| PolicyLogged (r : AuditRecord)
| OverridePrompt (target : string)
| Recon (target : string)
| WriteRecon (run_id : string)
| Crawl (host : string)
| Scan (host : string)
| Triaged (finding : Finding)
| SaveFinding (run_id : string) (finding : TriagedFinding)
| WriteFindings (run_id : string) (findings : list TriagedFinding)
| Report (run_id target : string) (findings : list TriagedFinding).



(** What the collaborators and the environment answer during one run. *)
Record World : Type := {
  time_time : float;
  mkdir : string -> string -> result unit;
  load_scope : string -> result pyval;
  gemini_scope : Advisory;
  input : result string;
  passive_recon_run : string -> result ReconResults;
  write_json : string -> string -> result unit;
  crawler_crawl : string -> result (list string);
  gemini_action : ActionDescriptor -> Advisory;
  nuclei_run : string -> result (list Finding);
  gemini_score : Finding -> Advisory;
  report_generate : string -> string -> list TriagedFinding -> result string
}.

(** The dictionary [run_pipeline] returns. *)
Record RunResult : Type := {
  success : bool;
  reason : option string;
  run_id : string;
  findings : option nat
}.

Definition failed (why run_id : string) : RunResult :=
  {| success := false; reason := Some why; run_id := run_id; findings := None |}.

(** Computations of the [try] block: they extend the trace and may raise. *)
Definition Run (A : Type) : Type := list Event -> result A * list Event.

Definition pure {A : Type} (a : A) : Run A := fun tr => (Ok a, tr).

Definition and_then {A B : Type} (m : Run A) (k : A -> Run B) : Run B :=
  fun tr =>
    match m tr with
    | (Ok a, tr') => k a tr'
    | (Raise e, tr') => (Raise e, tr')
    end.

Notation "'do' x <~ m ; k" := (and_then m (fun x => k))
  (at level 10, x name, m at level 100, k at level 200).

Definition emit (e : Event) : Run unit := fun tr => (Ok tt, (tr ++ [e])%list).


(** A call of a collaborator: the event, then its answer. *)
Definition call {A : Type} (e : Event) (answer : result A) : Run A :=
  fun tr => (answer, (tr ++ [e])%list).

(** A call whose exception is caught and replaced by [default]. *)
Definition guarded {A : Type} (m : Run A) (default : A) : Run A :=
  fun tr =>
    match m tr with
    | (Ok a, tr') => (Ok a, tr')
    | (Raise _, tr') => (Ok default, tr')
    end.

(** A call of the policy engine: its audit records join the trace. *)
Definition policy {A : Type} (m : Audit A) : Run A :=
  fun tr => let (a, log) := m [] in (Ok a, (tr ++ map PolicyLogged log)%list).

(** A call of the policy engine that may raise. *)
Definition policy_call {A : Type} (m : Audit (result A)) : Run A :=
  fun tr => let (a, log) := m [] in (a, (tr ++ map PolicyLogged log)%list).

(** [for x in l: acc = body(x, acc)] *)
Fixpoint for_each {A B : Type} (l : list A) (body : A -> B -> Run B) (acc : B) : Run B :=
  match l with
  | [] => pure acc
  | x :: rest => do acc' <~ body x acc ; for_each rest body acc'
  end.

(** [l.sort(key=final_score, reverse=True)]: stable, by the order of the keys
    (as [list.sort] does when no key is a NaN). *)
Fixpoint insert_desc (x : TriagedFinding) (l : list TriagedFinding) : list TriagedFinding :=
  match l with
  | [] => [x]
  | y :: rest =>
      if (Triage.final_score (snd x) <? Triage.final_score (snd y))%float
      then y :: insert_desc x rest
      else x :: l
  end.

Definition sort_desc (l : list TriagedFinding) : list TriagedFinding :=
  fold_right insert_desc [] l.

Record Orchestrator : Type := {
  config : Config;
  policy_engine : PolicyEngine;
  triage_engine : Triage.TriageEngine
}.

Section Pipeline.

Variable re_search : string -> string -> bool.
Variable self : Orchestrator.
Variable w : World.

(** [_confirm_manual_override] *)
Definition _confirm_manual_override (target : string) : Run bool :=
  do response <~ call (OverridePrompt target) (input w) ;
  if strip response =? "I_ACCEPT_RISK" then
    do _ <~ policy (log_policy_decision target "manual_override" (PStr "ALLOWED")
                      "User accepted risk with explicit confirmation" (PFloat 1.0)) ;
    pure true
  else pure false.

(** Step 5: the scan of one host, after the action is validated. *)
Definition scan_host (mode host : string) (findings : list Finding) : Run (list Finding) :=
  let action_descriptor :=
    {| scanner := Some "nuclei"; target := Some host; template := None;
       severity := Some "low,medium" |} in
  do scan_decision <~
    policy (validate_scanner_action re_search (policy_engine self)
              (gemini_action w action_descriptor) action_descriptor) ;
  if eq_str (decision scan_decision) "BLOCKED" then pure findings
  else if eq_str (decision scan_decision) "REQUIRES_VALIDATION"
          && negb (mode =? "full-scan-with-validation") then pure findings
  else
    do scan_results <~ guarded (call (Scan host) (nuclei_run w host)) [] ;
    pure (findings ++ scan_results)%list.

(** Step 6: the triage of one finding. *)
Definition triage_finding (run_id : string) (finding : Finding)
    (triaged_findings : list TriagedFinding) : Run (list TriagedFinding) :=
  guarded
    (do triage_result <~
       call (Triaged finding)
            (Triage.score_finding (triage_engine self) (gemini_score w finding) finding) ;
     let triaged_finding := (finding, triage_result) in
     do _ <~ emit (SaveFinding run_id triaged_finding) ;
     pure (triaged_findings ++ [triaged_finding])%list)
    triaged_findings.

(** Steps 2 to 7, once the scope check let the run through. *)
Definition after_scope_check (run_id target mode : string) : Run RunResult :=
  do recon_results <~ call (Recon target) (passive_recon_run w target) ;
  do _ <~ call (WriteRecon run_id) (write_json w run_id "recon.json") ;
  if mode =? "passive-only" then
    pure {| success := true; reason := None; run_id := run_id; findings := None |}
  else
    let live_hosts := live_hosts recon_results in
    do _ <~
      (if existsb (String.eqb mode) ["safe-scan"; "full-scan-with-validation"] then
         for_each (firstn 5 live_hosts)
           (fun host (crawl_results : list string) =>
              do result <~ guarded (call (Crawl host) (crawler_crawl w host)) [] ;
              pure (crawl_results ++ result)%list)
           []
       else pure []) ;
    do findings <~ for_each live_hosts (scan_host mode) [] ;
    do triaged_findings <~ for_each findings (triage_finding run_id) [] ;
    let triaged_findings := sort_desc triaged_findings in
    do _ <~ call (WriteFindings run_id triaged_findings)
              (write_json w run_id "findings.json") ;
    do _ <~ call (Report run_id target triaged_findings)
              (report_generate w run_id target triaged_findings) ;
    pure {| success := true; reason := None; run_id := run_id;
            findings := Some (List.length triaged_findings) |}.

(** Step 1 and what follows: the body of the [try]. *)
Definition try_block (run_id target mode : string) (scope_file : option string)
    (allow_unblock : bool) : Run RunResult :=
  do scope_decision <~
    policy_call (is_target_in_scope (policy_engine self) (load_scope w) (gemini_scope w)
                   target scope_file) ;
  if eq_str (decision scope_decision) "BLOCKED" then
    pure (failed "blocked_by_policy" run_id)
  else if eq_str (decision scope_decision) "UNKNOWN" then
    if negb allow_unblock || negb (ALLOW_MANUAL_UNBLOCK (config self)) then
      pure (failed "unknown_scope" run_id)
    else
      do confirmed <~ _confirm_manual_override target ;
      if negb confirmed then pure (failed "override_declined" run_id)
      else after_scope_check run_id target mode
  else after_scope_check run_id target mode.

(** The directory under which the run's own directory is made. *)
Definition output_base (output_dir : option string) : string :=
  match output_dir with
  | None | Some "" => OUTPUT_DIR (config self)
  | Some dir => dir
  end.

(** [run_pipeline]: the result, or the exception that escaped before the
    [try], and the trace of the run. *)
Definition run_pipeline (target mode : string) (scope_file : option string)
    (allow_unblock : bool) (output_dir : option string) : result RunResult * list Event :=
  match make_run_id (time_time w) target with
  | Raise e => (Raise e, [])
  | Ok run_id =>
      let base := output_base output_dir in
      match mkdir w base run_id with
      | Raise e => (Raise e, [Mkdir base run_id])
      | Ok _ =>
          match try_block run_id target mode scope_file allow_unblock
                  [Mkdir base run_id; SaveRun run_id target mode base] with
          | (Ok r, tr) => (Ok r, tr)
          | (Raise e, tr) => (Ok (failed e run_id), tr)
          end
      end
  end.

End Pipeline.

End Orchestrator.

(** ** Sample inputs *)

Module Sample.

Import Gemini Policy.

Definition config (key : string) : Config :=
  {| GEMINI_API_KEY := key; ALLOW_MANUAL_UNBLOCK := true; OUTPUT_DIR := "./outputs";
     ML_WEIGHT := 0.4; LLM_WEIGHT := 0.6 |}.

(** The scope definition of the specification's scenario, and the value of
    its file. *)
Definition scope : ScopeData :=
  {| in_scope := ["*.example.com"]; out_of_scope := ["dev.example.com"] |}.

Definition scope_file : pyval := scope_json scope.


Definition action (template : string) : ActionDescriptor :=
  {| scanner := Some "nuclei"; target := Some "api.example.com";
     template := Some template; severity := Some "low" |}.

(** An engine with the advisory service configured. *)
Definition keyed : PolicyEngine :=
  {| Policy.config := config "key"; blocked_manifest := word_manifest |}.

(** A finding of the given severity. *)
Definition finding (severity : option string) : Finding :=
  {| f_target := Some "https://api.example.com"; f_name := Some "Missing Security Headers";
     f_severity := severity; f_description := Some "X-Frame-Options header not set";
     f_evidence := Some (PStr "HTTP/1.1 200 OK") |}.

(** A fitted classifier that gives every text the probability 0.8, and the
    engine of the default weights 0.4 and 0.6 around it. *)
Definition triage_engine : Triage.TriageEngine :=
  Triage.init (config "key") true (Triage.Trained (fun _ => Ok [0.2; 0.8]%float)).

(** An advisory answer that scores a finding 0.4. *)
Definition scored : Advisory :=
  Parsed (PDict [("score", PFloat 0.4); ("confidence", PFloat 0.7);
                 ("explanation", PStr "header is informational")]).

(** A world in which every collaborator answers: the clock reads [clock],
    the operator types [answer], and the one live host yields one finding. *)
Definition world (clock : float) (scope_answer : Advisory) (answer : string)
  : Orchestrator.World :=
  {| Orchestrator.time_time := clock;
     Orchestrator.mkdir := fun _ _ => Ok tt;
     Orchestrator.load_scope := fun _ => Ok scope_file;
     Orchestrator.gemini_scope := scope_answer;
     Orchestrator.input := Ok answer;
     Orchestrator.passive_recon_run := fun t =>
       Ok {| Orchestrator.subdomains := [t];
             Orchestrator.live_hosts := ["https://" ++ t] |};
     Orchestrator.write_json := fun _ _ => Ok tt;
     Orchestrator.crawler_crawl := fun _ => Ok [];
     Orchestrator.gemini_action := fun _ => CallRaised "timeout";
     Orchestrator.nuclei_run := fun _ => Ok [finding (Some "low")];
     Orchestrator.gemini_score := fun _ => scored;
     Orchestrator.report_generate := fun _ _ _ => Ok "report.md" |}.

Definition orchestrator : Orchestrator.Orchestrator :=
  {| Orchestrator.config := config "key";
     Orchestrator.policy_engine := keyed;
     Orchestrator.triage_engine := triage_engine |}.

End Sample.

(** ** Text of an advisory answer ([GeminiClient.validate_json_response]) *)

Module Response.

(** [s.find(sub)]; [None] stands for -1. *)
Fixpoint find_at (s sub : string) : option nat :=
  if String.prefix sub s then Some O
  else
    match s with
    | EmptyString => None
    | String _ s' => option_map S (find_at s' sub)
    end.

Definition index_or_minus_one (i : option nat) : Z :=
  match i with
  | Some n => Z.of_nat n
  | None => (-1)%Z
  end.

(** An index of a slice or of a search, as Python reads it: a negative
    index counts from the end, and the result is kept within the string. *)
Definition clamp (s : string) (i : Z) : nat :=
  let n := Z.of_nat (String.length s) in
  Z.to_nat (if (i <? 0)%Z then Z.max (i + n) 0 else Z.min i n).

(** [s.find(sub)] *)
Definition find (s sub : string) : Z := index_or_minus_one (find_at s sub).

(** [s.find(sub, start)] *)
Definition find_from (s sub : string) (start : Z) : Z :=
  if (Z.of_nat (String.length s) <? start)%Z then (-1)%Z
  else
    let k := clamp s start in
    index_or_minus_one (option_map (Nat.add k) (find_at (drop k s) sub)).

(** [s[start:stop]] *)
Definition slice (s : string) (start stop : Z) : string :=
  let a := clamp s start in
  let b := clamp s stop in
  take (b - a) (drop a s).

(** The text that [validate_json_response] hands to the JSON parser: what
    lies between a code fence and the next one, stripped; the whole text
    when it holds no fence. *)
Definition json_text (response_text : string) : string :=
  if contains response_text "```json" then
    let start := (find response_text "```json" + 7)%Z in
    let stop := find_from response_text "```" start in
    strip (slice response_text start stop)
  else if contains response_text "```" then
    let start := (find response_text "```" + 3)%Z in
    let stop := find_from response_text "```" start in
    strip (slice response_text start stop)
  else response_text.

Section Parser.

(** [json.loads] on a text: the value, or the [JSONDecodeError]. *)
Variable json_loads : string -> result pyval.

(** [validate_json_response]: [None] when the text is not valid JSON. *)
Definition validate_json_response (response_text : string) : option pyval :=
  match json_loads (json_text response_text) with
  | Ok v => Some v
  | Raise _ => None
  end.

End Parser.

(** No backquote in the text. *)
Fixpoint no_backquote (s : string) : bool :=
  match s with
  | EmptyString => true
  | String c s' => negb (Ascii.eqb c "`"%char) && no_backquote s'
  end.

End Response.

(** ** The rate limiter ([src/utils/rate_limiter.py]) and the limits of the
    configuration ([src/config.py]) *)

Module Limiter.

(** The checks at the end of [load_config], on the two limits. *)
Definition load_config_checks (scan_rate max_concurrency : Z) : result unit :=
  if (100 <? scan_rate)%Z then Raise "SCAN_RATE too high (max 100 req/min for safety)"
  else if (20 <? max_concurrency)%Z then Raise "MAX_CONCURRENCY too high (max 20 for safety)"
  else Ok tt.

(** The fields of a [RateLimiter]; [permits] is the value of the semaphore
    and [request_times] the bounded queue, oldest first. *)
Record RateLimiter : Type := {
  rate : Z;
  interval : float;
  max_concurrency : Z;
  last_request : float;
  permits : Z;
  request_times : list float
}.

(** [RateLimiter.__init__]: the division fails for a rate of 0 (and for an
    integer too large for a float), [threading.Semaphore] refuses a negative
    value, and [deque] a [maxlen] outside the machine's signed 64-bit range
    or negative. *)
Definition init (rate_per_minute max_concurrency : Z) : result RateLimiter :=
  if (rate_per_minute =? 0)%Z then Raise "float division by zero"
  else
    r <- float_of_Z rate_per_minute ;;
    if (max_concurrency <? 0)%Z then Raise "semaphore initial value must be >= 0"
    else if ((rate_per_minute <? - 2 ^ 63) || (2 ^ 63 - 1 <? rate_per_minute))%Z
    then Raise "Python int too large to convert to C ssize_t"
    else if (rate_per_minute <? 0)%Z then Raise "maxlen must be non-negative"
    else
      Ok {| rate := rate_per_minute;
            interval := (60 / r)%float;
            max_concurrency := max_concurrency;
            last_request := 0%float;
            permits := max_concurrency;
            request_times := [] |}.

(** [deque.append] on a queue of length at most [maxlen]. *)
Definition deque_append (maxlen : Z) (q : list float) (x : float) : list float :=
  let q' := (q ++ [x])%list in
  if (maxlen <? Z.of_nat (List.length q'))%Z then tl q' else q'.

(** [acquire], for one thread at a time: [clock] is what [time.time()]
    reads on entry and [later] what it reads after the sleep. The answer is
    [None] when no permit is left (the call would wait for a release), and
    otherwise the new state with the sleep that was asked for, if any. *)
Definition acquire (self : RateLimiter) (clock later : float)
  : option (RateLimiter * option float) :=
  if (permits self <=? 0)%Z then None
  else
    let time_since_last := (clock - last_request self)%float in
    let slept :=
      if (time_since_last <? interval self)%float
      then Some (interval self - time_since_last)%float
      else None in
    let now := match slept with Some _ => later | None => clock end in
    Some ({| rate := rate self;
             interval := interval self;
             max_concurrency := max_concurrency self;
             last_request := now;
             permits := (permits self - 1)%Z;
             request_times := deque_append (rate self) (request_times self) now |},
          slept).

(** [release] *)
Definition release (self : RateLimiter) : RateLimiter :=
  {| rate := rate self;
     interval := interval self;
     max_concurrency := max_concurrency self;
     last_request := last_request self;
     permits := (permits self + 1)%Z;
     request_times := request_times self |}.

(** [get_current_rate]: the float 0.0, or a count. *)
Definition get_current_rate (self : RateLimiter) (now : float) : pyval :=
  if (List.length (request_times self) <? 2)%nat then PFloat 0.0
  else
    PInt (Z.of_nat (List.length
            (filter (fun t => (now - t <? 60)%float) (request_times self)))).

(** The calls made on a limiter by one thread. *)
Inductive Call : Type :=
| Acquire (clock later : float)
| Release.

(** The limiter after the calls, or [None] when an [acquire] finds no
    permit. *)
Fixpoint after (self : RateLimiter) (calls : list Call) : option RateLimiter :=
  match calls with
  | [] => Some self
  | Acquire clock later :: rest =>
      match acquire self clock later with
      | Some (self', _) => after self' rest
      | None => None
      end
  | Release :: rest => after (release self) rest
  end.

(** What the calls keep true of a limiter. *)
Definition sound (self : RateLimiter) : Prop :=
  (0 <= rate self)%Z /\ (0 <= permits self)%Z /\
  (Z.of_nat (List.length (request_times self)) <= rate self)%Z.

(** The acquisitions that are outstanding after the calls (granted and not
    yet released), and the surplus releases (made while no acquisition was
    outstanding), counted on from [held] and [surplus]. *)
Fixpoint tally (held surplus : nat) (calls : list Call) : nat * nat :=
  match calls with
  | [] => (held, surplus)
  | Acquire _ _ :: rest => tally (S held) surplus rest
  | Release :: rest =>
      match held with
      | O => tally O (S surplus) rest
      | S held' => tally held' surplus rest
      end
  end.


Definition surplus (calls : list Call) : nat := snd (tally 0 0 calls).

Definition acquisitions (calls : list Call) : Z :=
  Z.of_nat (List.length (filter (fun c => match c with Acquire _ _ => true | Release => false end) calls)).

Definition releases (calls : list Call) : Z :=
  Z.of_nat (List.length (filter (fun c => match c with Release => true | Acquire _ _ => false end) calls)).

End Limiter.

(** ** The report generator ([src/reports/generator.py]) *)

Module Report.

Import Orchestrator.

(** The filter of [generate]: a final score above 0.5 and no false
    positive flag. *)
Definition is_significant (f : TriagedFinding) : bool :=
  (0.5 <? Triage.final_score (snd f))%float &&
  negb (truthy (Triage.is_false_positive (snd f))).

Definition significant_findings (findings : list TriagedFinding) : list TriagedFinding :=
  filter is_significant findings.

(** The key of a triaged finding in [_group_by_severity]. *)
Definition severity_key (f : TriagedFinding) : string :=
  lower (Triage.severity_adjusted (snd f)).

(** [by_severity[severity].append(finding)], with the list made first when
    the key is new. *)
Fixpoint add_to_group (severity : string) (finding : TriagedFinding)
    (by_severity : list (string * list TriagedFinding)) : list (string * list TriagedFinding) :=
  match by_severity with
  | [] => [(severity, [finding])]
  | (k, members) :: rest =>
      if k =? severity then (k, (members ++ [finding])%list) :: rest
      else (k, members) :: add_to_group severity finding rest
  end.

(** [_group_by_severity] *)
Definition _group_by_severity (findings : list TriagedFinding)
  : list (string * list TriagedFinding) :=
  fold_left (fun by_severity finding => add_to_group (severity_key finding) finding by_severity)
            findings [].

(** [by_severity.get(severity, [])] *)
Fixpoint group_of (by_severity : list (string * list TriagedFinding)) (severity : string)
  : list TriagedFinding :=
  match by_severity with
  | [] => []
  | (k, members) :: rest => if k =? severity then members else group_of rest severity
  end.

(** The lines under 'Findings Summary' in [_generate_summary_report]: one
    for each of the five names whose group is not empty, with the count it
    prints. *)
Definition severity_names : list string := ["critical"; "high"; "medium"; "low"; "info"].

Definition summary_lines (by_severity : list (string * list TriagedFinding))
  : list (string * nat) :=
  filter (fun line => (0 <? snd line)%nat)
    (map (fun severity => (severity, List.length (group_of by_severity severity)))
         severity_names).

End Report.

(** ** The crawler ([src/scanners/crawler.py]) *)

Module Crawler.

Section Web.

(** What the URL library and the network answer: whether [sanitize_url]
    keeps a URL, [urlparse(url).netloc], [urljoin(base, href)], and the
    [href] values found in the page at a URL ([None] when the request or
    the extraction of the links raises, or the status is not 200). *)
Variable valid_url : string -> bool.
Variable netloc : string -> string.
Variable urljoin : string -> string -> string.
Variable hrefs_at : string -> option (list string).

(** [sanitize_url], of [src/utils/sanitizer.py]. *)
Definition sanitize_url (url : string) : option string :=
  if valid_url url then Some url else None.

(** [_extract_links], from the [href] values of the page. *)
Definition _extract_links (hrefs : list string) (base_url base_domain : string) : list string :=
  firstn 20
    (filter (fun absolute_url => netloc absolute_url =? base_domain)
       (map (urljoin base_url)
          (filter (fun href => negb (startswith href "#" || startswith href "javascript:"))
                  hrefs))).

Definition mem (url : string) (visited : list string) : bool :=
  existsb (String.eqb url) visited.

(** The [while] loop of [crawl], for at most [fuel] iterations: the pages
    discovered and the set of visited URLs when it ends, [None] when the
    iterations do not suffice. The delay between two pages is taken to be
    one that [time.sleep] accepts. *)
Fixpoint crawl_loop (max_depth max_pages : Z) (base_domain : string) (fuel : nat)
    (to_visit : list (string * Z)) (discovered visited : list string)
  : option (list string * list string) :=
  match fuel with
  | O => None
  | S fuel' =>
      match to_visit with
      | [] => Some (discovered, visited)
      | (url, depth) :: rest =>
          if (Z.of_nat (List.length discovered) <? max_pages)%Z then
            if mem url visited || (max_depth <? depth)%Z then
              crawl_loop max_depth max_pages base_domain fuel' rest discovered visited
            else
              let visited' := url :: visited in
              let discovered' := (discovered ++ [url])%list in
              match hrefs_at url with
              | Some hrefs =>
                  let links := _extract_links hrefs url base_domain in
                  let fresh := filter (fun link => negb (mem link visited')) links in
                  crawl_loop max_depth max_pages base_domain fuel'
                    (rest ++ map (fun link => (link, (depth + 1)%Z)) fresh)%list
                    discovered' visited'
              | None =>
                  crawl_loop max_depth max_pages base_domain fuel' rest discovered' visited'
              end
          else Some (discovered, visited)
      end
  end.

(** Iterations that are enough for a crawl of at most [max_pages] pages. *)
Definition enough (max_pages : Z) : nat := S (S (21 * Z.to_nat max_pages)).

(** [crawl]: the pages discovered and the visited set of the crawler
    afterwards. *)
Definition crawl (max_depth : Z) (visited : list string) (start_url : string)
    (max_pages : Z) : option (list string * list string) :=
  match sanitize_url start_url with
  | None => Some ([], visited)
  | Some "" => Some ([], visited)
  | Some start_url =>
      crawl_loop max_depth max_pages (netloc start_url) (enough max_pages)
        [(start_url, 0%Z)] [] visited
  end.

End Web.

End Crawler.

(** ** The Nuclei runner ([src/scanners/nuclei_runner.py]) *)

Module Nuclei.

(** [s.split('\n')] *)
Fixpoint split_lines (s : string) : list string :=
  match s with
  | EmptyString => [""]
  | String c s' =>
      if Ascii.eqb c "010"%char then "" :: split_lines s'
      else
        match split_lines s' with
        | line :: rest => String c line :: rest
        | [] => [String c ""]
        end
  end.

(** The dictionary built from one parsed line; [.get] on a value that is
    not a dictionary raises [AttributeError]. *)
Definition finding_of (target : string) (data : pyval) : result pyval :=
  info <- get data "info" (PDict []) ;;
  name <- get info "name" (PStr "Unknown") ;;
  info <- get data "info" (PDict []) ;;
  severity <- get info "severity" (PStr "unknown") ;;
  info <- get data "info" (PDict []) ;;
  description <- get info "description" (PStr "") ;;
  template_id <- get data "template-id" (PStr "") ;;
  matched_at <- get data "matched-at" (PStr target) ;;
  type <- get data "type" (PStr "") ;;
  matcher_name <- get data "matcher-name" (PStr "") ;;
  extracted_results <- get data "extracted-results" (PList []) ;;
  Ok (PDict [("target", PStr target);
             ("name", name);
             ("severity", severity);
             ("description", description);
             ("template_id", template_id);
             ("matched_at", matched_at);
             ("evidence", PDict [("type", type);
                                 ("matcher_name", matcher_name);
                                 ("extracted_results", extracted_results)]);
             ("scanner", PStr "nuclei")]).

Section Runner.

(** What the scanner's surroundings answer: whether [sanitize_url] keeps a
    URL, [json.loads] on a line (the value, or the [JSONDecodeError]), and
    the run of the [nuclei] command on a target under the rate limiter (the
    return code and the standard output, or the exception raised on the
    way). *)
Variable valid_url : string -> bool.
Variable json_loads : string -> result pyval.
Variable subprocess_run : string -> result (Z * string).

(** The loop of [_parse_nuclei_output]: a blank line and a line that is
    not JSON are passed over; any other exception leaves the loop. *)
Fixpoint parse_lines (lines : list string) (target : string) : result (list pyval) :=
  match lines with
  | [] => Ok []
  | line :: rest =>
      if strip line =? "" then parse_lines rest target
      else
        match json_loads line with
        | Raise _ => parse_lines rest target
        | Ok data =>
            finding <- finding_of target data ;;
            findings <- parse_lines rest target ;;
            Ok (finding :: findings)
        end
  end.

(** [_parse_nuclei_output] *)
Definition _parse_nuclei_output (output target : string) : result (list pyval) :=
  parse_lines (split_lines output) target.

(** [run] *)
Definition run (target : string) : list pyval :=
  match Crawler.sanitize_url valid_url target with
  | None | Some "" => []
  | Some target =>
      match subprocess_run target with
      | Raise _ => []
      | Ok (returncode, stdout) =>
          if (returncode =? 0)%Z || negb (stdout =? "") then
            match _parse_nuclei_output stdout target with
            | Ok findings => findings
            | Raise _ => []
            end
          else []
      end
  end.

End Runner.

(** The lines of the output that are not blank. *)
Definition written_lines (output : string) : list string :=
  filter (fun line => negb (strip line =? "")) (split_lines output).

(** A dictionary with the keys of a finding, for the given target. *)
Definition finding_shaped (target : string) (finding : pyval) : Prop :=
  exists name severity description template_id matched_at type matcher_name extracted_results,
    finding =
    PDict [("target", PStr target);
           ("name", name);
           ("severity", severity);
           ("description", description);
           ("template_id", template_id);
           ("matched_at", matched_at);
           ("evidence", PDict [("type", type);
                               ("matcher_name", matcher_name);
                               ("extracted_results", extracted_results)]);
           ("scanner", PStr "nuclei")].

End Nuclei.

(** ** The flow of a run through the stages *)

Module Flow.

Import Gemini Policy Orchestrator.

(** A computation whose result and added events do not depend on the trace
    it starts from. *)
Definition uniform {A : Type} (m : Run A) : Prop :=
  forall tr, m tr = (fst (m []), (tr ++ snd (m []))%list).

(** The result and the events of a computation that starts from the empty
    trace. *)
Definition outcome {A : Type} (m : Run A) : result A := fst (m []).

Definition events {A : Type} (m : Run A) : list Event := snd (m []).

(** The hosts crawled, the hosts scanned and the findings handed to the
    report, as the trace tells. *)
Definition crawled (trace : list Event) : list string :=
  flat_map (fun e => match e with Crawl host => [host] | _ => [] end) trace.

Definition scanned (trace : list Event) : list string :=
  flat_map (fun e => match e with Scan host => [host] | _ => [] end) trace.

Definition reported (trace : list Event) : list (list TriagedFinding) :=
  flat_map (fun e => match e with Report _ _ findings => [findings] | _ => [] end) trace.

(** The events of the active stages: crawling, scanning, triage, report. *)
Definition active (e : Event) : bool :=
  match e with
  | Crawl _ | Scan _ | Triaged _ | SaveFinding _ _ | WriteFindings _ _ | Report _ _ _ => true
  | _ => false
  end.

(** No event of an active stage in the trace. *)
Definition quiet (trace : list Event) : bool := forallb (fun e => negb (active e)) trace.

(** The key of [triaged_findings.sort]: the final score. *)
Definition key (f : TriagedFinding) : float := Triage.final_score (snd f).

(** [a] is not ranked below [b]. *)
Definition not_below (a b : TriagedFinding) : Prop := (key b <=? key a)%float = true.

Section Stages.

Variable re_search : string -> string -> bool.
Variable self : Orchestrator.
Variable w : World.

(** The descriptor the scan stage submits for a host. *)
Definition descriptor (host : string) : ActionDescriptor :=
  {| scanner := Some "nuclei"; target := Some host; template := None;
     severity := Some "low,medium" |}.

(** The decision of the gate on the scan of a host. *)
Definition scan_decision (host : string) : pyval :=
  decision (fst (validate_scanner_action re_search (policy_engine self)
                   (gemini_action w (descriptor host)) (descriptor host) [])).

(** Whether the scan stage goes on to scan the host. *)
Definition permitted (mode host : string) : bool :=
  negb (eq_str (scan_decision host) "BLOCKED") &&
  negb (eq_str (scan_decision host) "REQUIRES_VALIDATION" &&
        negb (mode =? "full-scan-with-validation")).

(** What the scan of a host adds to the findings. *)
Definition findings_of (host : string) : list Finding :=
  match nuclei_run w host with
  | Ok scan_results => scan_results
  | Raise _ => []
  end.

(** What the triage of a finding adds to the triaged findings. *)
Definition triage_of (finding : Finding) : list TriagedFinding :=
  match Triage.score_finding (triage_engine self) (gemini_score w finding) finding with
  | Ok triage_result => [(finding, triage_result)]
  | Raise _ => []
  end.

(** The events of one host of the scan stage. *)
Definition scan_events (mode host : string) : list Event :=
  (map PolicyLogged
     (snd (validate_scanner_action re_search (policy_engine self)
             (gemini_action w (descriptor host)) (descriptor host) [])) ++
   if permitted mode host then [Scan host] else [])%list.

(** The events of the triage of one finding. *)
Definition triage_events (run_id : string) (f : Finding) : list Event :=
  Triaged f :: map (SaveFinding run_id) (triage_of f).

(** The body of the crawl loop. *)
Definition crawl_body (host : string) (crawl_results : list string) : Run (list string) :=
  and_then (guarded (call (Crawl host) (crawler_crawl w host)) [])
           (fun result => pure (crawl_results ++ result)%list).

(** The end of the run, from the sorted findings. *)
Definition closing (run_id target : string) (triaged_findings : list TriagedFinding)
  : result RunResult * list Event :=
  match write_json w run_id "findings.json" with
  | Raise e => (Raise e, [WriteFindings run_id triaged_findings])
  | Ok _ =>
      (match report_generate w run_id target triaged_findings with
       | Ok _ => Ok {| success := true; reason := None; run_id := run_id;
                       findings := Some (List.length triaged_findings) |}
       | Raise e => Raise e
       end,
       [WriteFindings run_id triaged_findings; Report run_id target triaged_findings])
  end.

(** The findings of the scan stage and of the triage stage. *)
Definition scan_findings (mode : string) (hosts : list string) : list Finding :=
  flat_map findings_of (filter (permitted mode) hosts).

Definition triaged_findings (mode : string) (hosts : list string) : list TriagedFinding :=
  sort_desc (flat_map triage_of (scan_findings mode hosts)).

(** The events of the crawl stage. *)
Definition crawl_events (mode : string) (hosts : list string) : list Event :=
  if existsb (String.eqb mode) ["safe-scan"; "full-scan-with-validation"]
  then map Crawl (firstn 5 hosts) else [].

End Stages.

End Flow.

(** ** More sample inputs *)

Module Cases.

Import Gemini Policy.

(** A finding as the Nuclei runner builds it: the evidence is a dictionary. *)
Definition nuclei_finding : Finding :=
  {| f_target := Some "https://api.example.com"; f_name := Some "Exposed Panel";
     f_severity := Some "medium"; f_description := Some "";
     f_evidence := Some (PDict [("type", PStr "http"); ("matcher_name", PStr "");
                                ("extracted_results", PList [])]) |}.

(** An engine without the advisory service. *)
Definition unkeyed : PolicyEngine :=
  {| Policy.config := Sample.config ""; blocked_manifest := word_manifest |}.

(** A triage engine whose classifier was never fitted, and an advisory
    answer that scores a finding 0.1. *)
Definition untrained : Triage.TriageEngine :=
  Triage.init (Sample.config "key") true Triage.Untrained.

Definition doubtful : Advisory :=
  Parsed (PDict [("score", PFloat 0.1); ("confidence", PFloat 0.9);
                 ("explanation", PStr "no evidence")]).

(** A triaged finding with the given final score. *)
Definition ranked (score : float) : Orchestrator.TriagedFinding :=
  (Sample.finding (Some "low"),
   {| Triage.ml_score := 0.5; Triage.llm_score := PFloat score;
      Triage.final_score := score; Triage.confidence := PFloat 0.5;
      Triage.explanation := PStr ""; Triage.is_false_positive := PBool false;
      Triage.severity_adjusted := "low" |}).

(** The limiter of the default configuration, 5 requests a minute and 4
    at a time, and a series of calls on it. *)
Definition limiter : Limiter.RateLimiter :=
  {| Limiter.rate := 5; Limiter.interval := 12; Limiter.max_concurrency := 4;
     Limiter.last_request := 0; Limiter.permits := 4; Limiter.request_times := [] |}.

Definition calls : list Limiter.Call :=
  [Limiter.Acquire 100 100; Limiter.Release; Limiter.Acquire 101 112].


(** A site of two pages. *)
Definition site_valid (url : string) : bool :=
  startswith url "http://" || startswith url "https://".

Definition site_netloc (url : string) : string :=
  if startswith url "http://example.com/" then "example.com" else "elsewhere.org".

Definition site_urljoin (base href : string) : string :=
  if startswith href "http" then href else base ++ href.

Definition site_hrefs (url : string) : option (list string) :=
  if url =? "http://example.com/"
  then Some ["#top"; "about"; "http://elsewhere.org/"; "http://example.com/"]
  else None.

(** A parser that knows three lines, and a scanner that prints them. *)
Definition three_lines (line : string) : result pyval :=
  if line =? "{}" then Ok (PDict [])
  else if line =? "[]" then Ok (PList [])
  else if line =? "7" then Ok (PInt 7)
  else Raise "Expecting value".

Definition prints (stdout : string) (target : string) : result (Z * string) :=
  Ok (0%Z, stdout).

Definition newline : string := String "010"%char "".

(** An output with a line that is no object, and one with a line that is
    no JSON and a blank line. *)
Definition list_output : string := "{}" ++ newline ++ "[]" ++ newline ++ "{}".

Definition noisy_output : string :=
  "{}" ++ newline ++ "oops" ++ newline ++ newline ++ "{}".

End Cases.

(** * Properties *)

(** ** Strings *)

Lemma drop_length_app (p s : string) : drop (String.length p) (p ++ s) = s.
Proof. induction p as [|c p IH]; simpl; auto. Qed.

Lemma take_drop (n : nat) (s : string) : take n s ++ drop n s = s.
Proof.
  revert s; induction n as [|n IH]; intros [|c s]; simpl; try reflexivity.
  now rewrite IH.
Qed.

Lemma length_app (p s : string) :
  String.length (p ++ s) = String.length p + String.length s.
Proof. induction p as [|c p IH]; simpl; auto. Qed.

(** [endswith] is what it should be: [suf] is a suffix of [s]. *)
Lemma endswith_iff (s suf : string) :
  endswith s suf = true <-> exists p, s = p ++ suf.
Proof.
  unfold endswith; split.
  - intros H. apply andb_true_iff in H as [Hle Heq].
    apply String.eqb_eq in Heq.
    exists (take (String.length s - String.length suf) s).
    rewrite <- Heq at 2. symmetry; apply take_drop.
  - intros [p ->]. rewrite length_app.
    replace (String.length p + String.length suf - String.length suf)
      with (String.length p) by lia.
    rewrite drop_length_app, String.eqb_refl.
    apply andb_true_iff; split; [apply Nat.leb_le; lia | reflexivity].
Qed.

Lemma endswith_app (s a b : string) :
  endswith s (a ++ b) = true -> endswith s b = true.
Proof.
  rewrite !endswith_iff. intros [p ->]. exists (p ++ a).
  induction p as [|c p IH]; simpl; [reflexivity | now rewrite IH].
Qed.

Lemma startswith_app (p s : string) : startswith (p ++ s) p = true.
Proof.
  unfold startswith. induction p as [|c p IH]; simpl.
  - now destruct s.
  - destruct (ascii_dec c c) as [_|N]; [exact IH | now elim N].
Qed.

(** ** The order of floats *)

Ltac order_cases :=
  change PosDef.Pos.compare_cont with Pos.compare_cont in *;
  fold Pos.compare in *;
  repeat match goal with
  | H : context [(?a ?= ?b)%Z] |- _ => destruct (Z.compare_spec a b)
  | H : context [(?a ?= ?b)%positive] |- _ => destruct (Pos.compare_spec a b)
  | |- context [(?a ?= ?b)%Z] => destruct (Z.compare_spec a b)
  | |- context [(?a ?= ?b)%positive] => destruct (Pos.compare_spec a b)
  end;
  simpl in *; subst; try discriminate; try reflexivity; try lia.

Lemma SFleb_not_ltb (x y : spec_float) : SFleb x y = true -> SFltb y x = false.
Proof.
  unfold SFleb, SFltb.
  destruct x as [s1| s1 | | s1 m1 e1], y as [s2 | s2 | | s2 m2 e2]; simpl;
    try destruct s1; try destruct s2; simpl; intros H;
    try discriminate; try reflexivity; order_cases.
Qed.

Lemma SFltb_trans (x y z : spec_float) :
  SFltb x y = true -> SFltb y z = true -> SFltb x z = true.
Proof.
  unfold SFltb.
  destruct x as [s1| s1 | | s1 m1 e1], y as [s2 | s2 | | s2 m2 e2],
           z as [s3| s3 | | s3 m3 e3]; simpl;
    try destruct s1; try destruct s2; try destruct s3; simpl; intros H1 H2;
    try discriminate; try reflexivity; order_cases.
Qed.

Lemma SFltb_leb (x y : spec_float) : SFltb x y = true -> SFleb x y = true.
Proof.
  unfold SFltb, SFleb. destruct (SFcompare x y) as [[]|]; auto.
Qed.

Lemma leb_not_ltb (x y : float) : (x <=? y)%float = true -> (y <? x)%float = false.
Proof. rewrite leb_spec, ltb_spec. apply SFleb_not_ltb. Qed.

Lemma ltb_not_ltb (x y : float) : (x <? y)%float = true -> (y <? x)%float = false.
Proof. intros H. apply leb_not_ltb. rewrite leb_spec. apply SFltb_leb. now rewrite <- ltb_spec. Qed.

Lemma ltb_trans (x y z : float) :
  (x <? y)%float = true -> (y <? z)%float = true -> (x <? z)%float = true.
Proof. rewrite !ltb_spec. apply SFltb_trans. Qed.

(** Above [hi], a score is not below any [lo] that is below [hi]. *)
Lemma above_not_below (lo hi score : float) :
  (lo <? hi)%float = true -> (hi <? score)%float = true -> (score <? lo)%float = false.
Proof.
  intros Hlo Hhi. destruct (score <? lo)%float eqn:E; [|reflexivity].
  pose proof (ltb_trans _ _ _ E Hlo) as H.
  apply ltb_not_ltb in H. congruence.
Qed.

(** ** The scope matcher *)

Import Gemini Policy.

(** Against a pattern [*.D] the matcher answers whether the target ends
    with [D]: the exact match and the subdomain match add nothing to the
    wildcard test, which compares with [D] and not with [.D]. *)
Lemma matches_wildcard (target D : string) :
  _matches_pattern target ("*." ++ D) = endswith target D.
Proof.
  unfold _matches_pattern.
  rewrite startswith_app.
  change (drop 2 ("*." ++ D)) with D.
  destruct (target =? "*." ++ D) eqn:E1.
  - apply String.eqb_eq in E1. subst target.
    symmetry. apply endswith_iff. now exists "*.".
  - destruct (endswith target D) eqn:E; [reflexivity|].
    destruct (target =? D) eqn:E2.
    + apply String.eqb_eq in E2. subst target.
      assert (endswith D D = true) by (apply endswith_iff; now exists "").
      congruence.
    + cbn [andb orb].
      destruct (endswith target ("." ++ "*." ++ D)) eqn:E3; [|reflexivity].
      apply (endswith_app target ".*." D) in E3. congruence.
Qed.

(** The direction of the specified equivalence that the code does satisfy:
    the apex [D] and every target ending with [.D] match [*.D]. *)
Lemma wildcard_matches_subdomains (target D : string) :
  target = D \/ endswith target ("." ++ D) = true ->
  _matches_pattern target ("*." ++ D) = true.
Proof.
  rewrite matches_wildcard. intros [-> | H].
  - apply endswith_iff. now exists "".
  - now apply (endswith_app target "." D).
Qed.

(** C3 (the code departs from it): for the pattern [*.example.com] the
    specification lets a target match only when it is [example.com] or ends
    with [.example.com]; the matcher accepts [evilexample.com], which is
    neither. *)
Theorem wildcard_accepts_bare_suffix :
  _matches_pattern "evilexample.com" ("*." ++ "example.com") = true /\
  "evilexample.com" <> "example.com" /\
  endswith "evilexample.com" ("." ++ "example.com") = false.
Proof. repeat split; [discriminate]. Qed.

(** ** Scope validation *)

Lemma find_exists {A : Type} (f : A -> bool) (l : list A) (x : A) :
  In x l -> f x = true -> exists y, find f l = Some y /\ In y l /\ f y = true.
Proof.
  intros Hin Hf. destruct (find f l) as [y|] eqn:E.
  - exists y. apply find_some in E. tauto.
  - pose proof (find_none f l E x Hin). congruence.
Qed.

Lemma find_all_false {A : Type} (f : A -> bool) (l : list A) :
  (forall x, In x l -> f x = false) -> find f l = None.
Proof.
  intros H. destruct (find f l) as [y|] eqn:E; [|reflexivity].
  apply find_some in E as [Hin Hf]. rewrite (H y Hin) in Hf. discriminate.
Qed.

(** Over a list of strings the loop is the search for the first pattern
    that matches. *)
Lemma first_match_patterns (target : string) (items : list pyval) (patterns : list string) :
  patterns_of items = Some patterns ->
  first_match target items = Ok (find (_matches_pattern target) patterns).
Proof.
  revert patterns. induction items as [|v items IH]; intros patterns; cbn.
  - now intros [= <-].
  - destruct v; try discriminate.
    destruct (patterns_of items) as [ps|]; [|discriminate].
    intros [= <-]. cbn. destruct (_matches_pattern target s); [reflexivity | now apply IH].
Qed.

Lemma scan_pattern_list (target : string) (v : pyval) (patterns : list string) :
  pattern_list v = Some patterns ->
  (items <- iterate v ;; first_match target items) =
  Ok (find (_matches_pattern target) patterns).
Proof.
  destruct v; try discriminate. cbn. apply first_match_patterns.
Qed.

Lemma read_scope_json (scope : ScopeData) : read_scope (scope_json scope) = Some scope.
Proof.
  assert (H : forall l, patterns_of (map PStr l) = Some l).
  { induction l as [|p l IH]; cbn; [reflexivity | now rewrite IH]. }
  destruct scope as [ins outs]. unfold read_scope, scope_json. cbn.
  now rewrite !H.
Qed.

Lemma fst_returned {A : Type} (m : Audit A) (log : list AuditRecord) :
  fst (returned m log) = Ok (fst (m log)).
Proof. unfold returned. now destruct (m log). Qed.

Lemma snd_returned {A : Type} (m : Audit A) (log : list AuditRecord) :
  snd (returned m log) = snd (m log).
Proof. unfold returned. now destruct (m log). Qed.

(** The scope check on a file that holds a scope definition. *)
Lemma is_target_in_scope_read (self : PolicyEngine) (load_scope : string -> result pyval)
    (gemini : Advisory) (target path : string) (value : pyval) (scope_data : ScopeData)
    (log : list AuditRecord) :
  path <> "" ->
  load_scope path = Ok value ->
  read_scope value = Some scope_data ->
  is_target_in_scope self load_scope gemini target (Some path) log =
  returned
    (match find (_matches_pattern target) (out_of_scope scope_data) with
     | Some pattern =>
         logged target "scope_check"
           {| decision := PStr "BLOCKED"; confidence := PFloat 1.0;
              reason := "Target matches out-of-scope pattern: " ++ pattern;
              details :=
                [Lit "This target is explicitly excluded from the program scope"] |}
     | None =>
         match find (_matches_pattern target) (in_scope scope_data) with
         | Some pattern =>
             logged target "scope_check"
               {| decision := PStr "ALLOWED"; confidence := PFloat 1.0;
                  reason := "Target matches in-scope pattern: " ++ pattern;
                  details := [Lit "Target is within defined program scope"] |}
         | None =>
             if has_api_key (config self) then
               logged target "scope_check_gemini"
                 (_validate_scope_with_gemini gemini target value)
             else
               logged target "scope_check"
                 {| decision := PStr "UNKNOWN"; confidence := PFloat 0.0;
                    reason := "Target does not match any scope patterns";
                    details :=
                      [Lit "Add target to scope file or enable Gemini validation"] |}
         end
     end) log.
Proof.
  intros Hpath Hload Hread. unfold is_target_in_scope.
  destruct path as [|c path]; [congruence|]. rewrite Hload.
  unfold read_scope in Hread. destruct value as [| | | | | |d]; try discriminate.
  destruct (pattern_list (dict_get d "in_scope" (PList []))) as [ins|] eqn:Hin;
    [|discriminate].
  destruct (pattern_list (dict_get d "out_of_scope" (PList []))) as [outs|] eqn:Hout;
    [|discriminate].
  injection Hread as <-. cbn [get bind in_scope out_of_scope].
  rewrite (scan_pattern_list target _ _ Hout). cbn [bind].
  destruct (find (_matches_pattern target) outs); [reflexivity|].
  rewrite (scan_pattern_list target _ _ Hin). cbn [bind].
  destruct (find (_matches_pattern target) ins); [reflexivity|].
  destruct (has_api_key (config self)); reflexivity.
Qed.

(** C1: a target that matches a pattern of [out_of_scope] is blocked with
    confidence 1.0, whatever [in_scope] holds: the exclusions are searched
    first, and the reason names the exclusion that matched. *)
Theorem out_of_scope_blocks (self : PolicyEngine) (load_scope : string -> result pyval)
    (gemini : Advisory) (target path : string) (value : pyval) (scope_data : ScopeData)
    (excluded : string) (log : list AuditRecord) :
  path <> "" ->
  load_scope path = Ok value ->
  read_scope value = Some scope_data ->
  In excluded (out_of_scope scope_data) ->
  _matches_pattern target excluded = true ->
  exists d,
    fst (is_target_in_scope self load_scope gemini target (Some path) log) = Ok d /\
    decision d = PStr "BLOCKED" /\ confidence d = PFloat 1.0 /\
    exists p, In p (out_of_scope scope_data) /\ _matches_pattern target p = true /\
              reason d = "Target matches out-of-scope pattern: " ++ p.
Proof.
  intros Hpath Hload Hread Hin Hm.
  destruct (find_exists _ _ _ Hin Hm) as (p & Hfind & Hp & Hpm).
  rewrite (is_target_in_scope_read self load_scope gemini target path value scope_data log
             Hpath Hload Hread).
  rewrite Hfind. cbn.
  eexists. split; [reflexivity|]. repeat split. exists p. auto.
Qed.

Lemma out_of_scope_blocks_witness :
  _matches_pattern "dev.example.com" "*.example.com" = true /\
  exists d,
    fst (is_target_in_scope Sample.keyed (fun _ => Ok Sample.scope_file) (CallRaised "")
           "dev.example.com" (Some "scope.json") []) = Ok d /\
    decision d = PStr "BLOCKED" /\ confidence d = PFloat 1.0.
Proof.
  split; [reflexivity|].
  destruct (out_of_scope_blocks Sample.keyed (fun _ => Ok Sample.scope_file) (CallRaised "")
              "dev.example.com" "scope.json" Sample.scope_file Sample.scope
              "dev.example.com" [])
    as (d & Hd & Hb & Hc & _).
  - discriminate.
  - reflexivity.
  - reflexivity.
  - simpl; auto.
  - reflexivity.
  - exists d. repeat split; assumption.
Defined.

(** ** Failure of the advisory service *)

(** C2: when the request to the advisory service fails while an action that
    requires validation is being validated, the gate answers BLOCKED with
    confidence 0.0 and a reason that carries the failure, never ALLOWED nor
    the provisional REQUIRES_VALIDATION; the same failure while the scope is
    being validated answers UNKNOWN. *)
Theorem advisory_failure_blocks_action_not_scope :
  (forall (re_search : string -> string -> bool) (self : PolicyEngine) (gemini : Advisory)
          (e : exn) (action : ActionDescriptor) (log : list AuditRecord),
      gemini = CallRaised e \/ gemini = ParseRaised e ->
      has_api_key (config self) = true ->
      (forall r, In r (blocked_patterns (blocked_manifest self)) ->
                 re_search (pattern r) (get_or (template action) "") = false) ->
      (exists r, In r (requires_validation (blocked_manifest self)) /\
                 re_search (pattern r) (get_or (template action) "") = true) ->
      let d := fst (validate_scanner_action re_search self gemini action log) in
      decision d = PStr "BLOCKED" /\ confidence d = PFloat 0.0 /\
      reason d = "Validation error: " ++ e /\
      decision d <> PStr "ALLOWED" /\ decision d <> PStr "REQUIRES_VALIDATION") /\
  (forall (self : PolicyEngine) (load_scope : string -> result pyval) (gemini : Advisory)
          (e : exn) (target path : string) (value : pyval) (scope_data : ScopeData)
          (log : list AuditRecord),
      gemini = CallRaised e \/ gemini = ParseRaised e ->
      has_api_key (config self) = true ->
      path <> "" ->
      load_scope path = Ok value ->
      read_scope value = Some scope_data ->
      (forall p, In p (out_of_scope scope_data) -> _matches_pattern target p = false) ->
      (forall p, In p (in_scope scope_data) -> _matches_pattern target p = false) ->
      exists d,
        fst (is_target_in_scope self load_scope gemini target (Some path) log) = Ok d /\
        decision d = PStr "UNKNOWN" /\ confidence d = PFloat 0.0 /\
        reason d = "Gemini validation error: " ++ e).
Proof.
  split.
  - intros re_search self gemini e action log Hfail Hkey Hblocked (r & Hin & Hr).
    destruct (find_exists (fun rule => re_search (pattern rule) (get_or (template action) ""))
                _ r Hin Hr) as (r' & Hfind & _).
    unfold validate_scanner_action.
    rewrite (find_all_false _ _ Hblocked), Hfind, Hkey.
    destruct Hfail as [-> | ->]; cbn; repeat split; discriminate.
  - intros self load_scope gemini e target path value scope_data log
      Hfail Hkey Hpath Hload Hread Hout Hin.
    rewrite (is_target_in_scope_read self load_scope gemini target path value scope_data log
               Hpath Hload Hread).
    rewrite (find_all_false _ _ Hout), (find_all_false _ _ Hin), Hkey.
    destruct Hfail as [-> | ->]; cbn; eexists; repeat split.
Qed.

Lemma advisory_failure_blocks_action_not_scope_witness :
  let a := fst (validate_scanner_action search_literal Sample.keyed (CallRaised "timeout")
                  (Sample.action "Authentication-Check") []) in
  (decision a = PStr "BLOCKED" /\ confidence a = PFloat 0.0 /\
   reason a = "Validation error: timeout") /\
  (exists s,
      fst (is_target_in_scope Sample.keyed (fun _ => Ok Sample.scope_file)
             (CallRaised "timeout") "other.org" (Some "scope.json") []) = Ok s /\
      decision s = PStr "UNKNOWN" /\ confidence s = PFloat 0.0 /\
      reason s = "Gemini validation error: timeout").
Proof.
  intros a.
  destruct advisory_failure_blocks_action_not_scope as [Haction Hscope].
  split.
  - destruct (Haction search_literal Sample.keyed (CallRaised "timeout") "timeout"
                (Sample.action "Authentication-Check") []) as (H1 & H2 & H3 & _).
    + left; reflexivity.
    + reflexivity.
    + intros r [<- | [<- | []]]; reflexivity.
    + eexists; split; [left; reflexivity | reflexivity].
    + repeat split; assumption.
  - destruct (Hscope Sample.keyed (fun _ => Ok Sample.scope_file) (CallRaised "timeout")
                "timeout" "other.org" "scope.json" Sample.scope_file Sample.scope [])
      as (s & H0 & H1 & H2 & H3).
    + left; reflexivity.
    + reflexivity.
    + discriminate.
    + reflexivity.
    + reflexivity.
    + intros p [<- | []]; reflexivity.
    + intros p [<- | []]; reflexivity.
    + exists s. repeat split; assumption.
Defined.

(** ** Payloads of the advisory service *)

(** C4 (the code departs from it): a decision value outside ALLOWED,
    BLOCKED and UNKNOWN is not refused. With the payload
    [{"decision": "MAYBE", "confidence": 0.9, "reasons": ["unsure"]}] scope
    validation and action validation both return MAYBE, and the audit trail
    records it; the pipeline, which stops on BLOCKED and UNKNOWN only, then
    takes the target as validated and scans it. An answer [blocked] in
    lower case passes in the same way. *)
Theorem advisory_decision_outside_enum :
  let payload :=
    Parsed (PDict [("decision", PStr "MAYBE"); ("confidence", PFloat 0.9);
                   ("reasons", PList [PStr "unsure"])]) in
  let scoped :=
    is_target_in_scope Sample.keyed (fun _ => Ok Sample.scope_file) payload
      "other.org" (Some "scope.json") [] in
  let a := fst (validate_scanner_action search_literal Sample.keyed payload
                  (Sample.action "Authentication-Check") []) in
  let run answer :=
    Orchestrator.run_pipeline search_literal Sample.orchestrator
      (Sample.world 1700000000.25 answer "")
      "other.org" "safe-scan" (Some "scope.json") false None in
  (exists s, fst scoped = Ok s /\
             decision s = PStr "MAYBE" /\ in_enum (decision s) = false /\
             map a_decision (snd scoped) = [PStr "MAYBE"]) /\
  (decision a = PStr "MAYBE" /\ in_enum (decision a) = false) /\
  (fst (run payload) =
     Ok {| Orchestrator.success := true; Orchestrator.reason := None;
           Orchestrator.run_id := "1700000000_other_org";
           Orchestrator.findings := Some 1 |} /\
   In (Orchestrator.Scan "https://other.org") (snd (run payload))) /\
  In (Orchestrator.Scan "https://other.org")
     (snd (run (Parsed (PDict [("decision", PStr "blocked")])))).
Proof.
  cbv zeta. split; [|split; [|split]].
  - eexists. repeat split.
  - repeat split.
  - split; [reflexivity|]. vm_compute. tauto.
  - vm_compute. tauto.
Qed.

(** X26: what the two advisory escalations do with an outcome that is not
    a well-formed answer. A request that raised, a text that did not parse
    and a payload that is not a JSON object get the default of the
    operation: UNKNOWN for the scope, BLOCKED for an action, with
    confidence 0.0; so does a JSON object whose reasons cannot be joined as
    strings. For a JSON object whose reasons can be joined, a missing
    [decision] gets the same default decision, and a [decision] that is
    ALLOWED, BLOCKED or UNKNOWN is returned; the confidence and the reason
    are the payload's. *)
Theorem advisory_payload_defaults :
  (forall (gemini : Advisory) (target : string) (scope_data : pyval)
          (action : ActionDescriptor),
      (forall items, gemini <> Parsed (PDict items)) ->
      let s := _validate_scope_with_gemini gemini target scope_data in
      let a := _validate_action_with_gemini gemini action in
      (decision s = PStr "UNKNOWN" /\ confidence s = PFloat 0.0) /\
      (decision a = PStr "BLOCKED" /\ confidence a = PFloat 0.0)) /\
  (forall (items : list (string * pyval)) (r n : string) (target : string)
          (scope_data : pyval),
      join_val "; " (dict_get items "reasons" (PList [PStr "Gemini validation"])) = Ok r ->
      join_val "; " (dict_get items "suggested_next_steps" (PList [])) = Ok n ->
      let s := _validate_scope_with_gemini (Parsed (PDict items)) target scope_data in
      (lookup items "decision" = None -> decision s = PStr "UNKNOWN") /\
      (forall v, lookup items "decision" = Some v -> in_enum v = true -> decision s = v) /\
      confidence s = dict_get items "confidence" (PFloat 0.0) /\
      reason s = r) /\
  (forall (items : list (string * pyval)) (r : string) (action : ActionDescriptor),
      join_val "; " (dict_get items "reasons" (PList [PStr "Gemini validation"])) = Ok r ->
      let a := _validate_action_with_gemini (Parsed (PDict items)) action in
      (lookup items "decision" = None -> decision a = PStr "BLOCKED") /\
      (forall v, lookup items "decision" = Some v -> in_enum v = true -> decision a = v) /\
      confidence a = dict_get items "confidence" (PFloat 0.0) /\
      reason a = r) /\
  (forall (items : list (string * pyval)) (e : exn) (target : string)
          (scope_data : pyval) (action : ActionDescriptor),
      join_val "; " (dict_get items "reasons" (PList [PStr "Gemini validation"])) = Raise e ->
      let s := _validate_scope_with_gemini (Parsed (PDict items)) target scope_data in
      let a := _validate_action_with_gemini (Parsed (PDict items)) action in
      (decision s = PStr "UNKNOWN" /\ confidence s = PFloat 0.0) /\
      (decision a = PStr "BLOCKED" /\ confidence a = PFloat 0.0)).
Proof.
  split; [|split; [|split]].
  - intros gemini target scope_data action Hnot.
    destruct gemini as [e | e | v]; try solve [cbn; repeat split].
    destruct v; try solve [cbn; repeat split].
    now elim (Hnot d).
  - intros items r n target scope_data Hr Hn.
    unfold _validate_scope_with_gemini, get, bind. rewrite Hr, Hn.
    unfold dict_get. cbn. split; [|split; [|split]]; try reflexivity.
    + now intros ->.
    + now intros v -> _.
  - intros items r action Hr.
    unfold _validate_action_with_gemini, get, bind. rewrite Hr.
    unfold dict_get. cbn. split; [|split; [|split]]; try reflexivity.
    + now intros ->.
    + now intros v -> _.
  - intros items e target scope_data action Hr.
    unfold _validate_scope_with_gemini, _validate_action_with_gemini, get, bind.
    rewrite Hr. cbn. repeat split.
Qed.

Lemma advisory_payload_defaults_witness :
  let items := [("confidence", PFloat 0.9); ("reasons", PList [PStr "looks fine"])] in
  let a := _validate_action_with_gemini (Parsed (PDict items)) (Sample.action "lfi") in
  let s := _validate_scope_with_gemini (Parsed (PDict items)) "other.org" Sample.scope_file in
  (decision a = PStr "BLOCKED" /\ confidence a = PFloat 0.9 /\ reason a = "looks fine") /\
  (decision s = PStr "UNKNOWN" /\ confidence s = PFloat 0.9 /\ reason s = "looks fine").
Proof.
  intros items a s.
  destruct advisory_payload_defaults as (_ & Hscope & Haction & _).
  split.
  - destruct (Haction items "looks fine" (Sample.action "lfi")) as (H1 & _ & H3 & H4).
    + reflexivity.
    + split; [apply H1; reflexivity | split; [exact H3 | exact H4]].
  - destruct (Hscope items "looks fine" "" "other.org" Sample.scope_file) as (H1 & _ & H3 & H4).
    + reflexivity.
    + reflexivity.
    + split; [apply H1; reflexivity | split; [exact H3 | exact H4]].
Defined.

(** ** The audit trail of action validation *)

(** C10: when the template matches no blocked pattern and no pattern that
    requires validation, [validate_scanner_action] answers ALLOWED with
    confidence 1.0 and leaves the audit trail as it was; on every other path
    (blocked, provisional, or escalated to the advisory service) the decision
    that is returned is appended to the trail. *)
Theorem allowed_default_is_not_logged (re_search : string -> string -> bool)
    (self : PolicyEngine) (gemini : Advisory) (action : ActionDescriptor)
    (log : list AuditRecord) :
  let rules := (blocked_patterns (blocked_manifest self) ++
                requires_validation (blocked_manifest self))%list in
  let matched r := re_search (pattern r) (get_or (template action) "") in
  let d := fst (validate_scanner_action re_search self gemini action log) in
  let log' := snd (validate_scanner_action re_search self gemini action log) in
  ((forall r, In r rules -> matched r = false) ->
   decision d = PStr "ALLOWED" /\ confidence d = PFloat 1.0 /\ log' = log) /\
  ((exists r, In r rules /\ matched r = true) ->
   exists name, log' = (log ++ [audit_of action name d])%list).
Proof.
  intros rules matched d log'. subst rules matched d log'.
  unfold validate_scanner_action. split.
  - intros Hnone.
    rewrite (find_all_false _ (blocked_patterns _)), (find_all_false _ (requires_validation _)).
    + cbn. repeat split.
    + intros r Hr. apply Hnone, in_or_app. now right.
    + intros r Hr. apply Hnone, in_or_app. now left.
  - intros (r & Hin & Hr).
    destruct (find _ (blocked_patterns _)) as [b|] eqn:Eb.
    + eexists. reflexivity.
    + destruct (find _ (requires_validation _)) as [v|] eqn:Ev.
      * destruct (has_api_key (config self)); eexists; reflexivity.
      * apply in_app_or in Hin as [Hin | Hin].
        -- rewrite (find_none _ _ Eb r Hin) in Hr. discriminate.
        -- rewrite (find_none _ _ Ev r Hin) in Hr. discriminate.
Qed.

Lemma allowed_default_is_not_logged_witness :
  let run template :=
    validate_scanner_action search_literal Sample.keyed (CallRaised "timeout")
      (Sample.action template) [] in
  (decision (fst (run "http-missing-security-headers")) = PStr "ALLOWED" /\
   confidence (fst (run "http-missing-security-headers")) = PFloat 1.0 /\
   snd (run "http-missing-security-headers") = []) /\
  (exists name,
      snd (run "sqlmap-scan") =
      ([] ++ [audit_of (Sample.action "sqlmap-scan") name (fst (run "sqlmap-scan"))])%list).
Proof.
  intros run. split.
  - apply (allowed_default_is_not_logged search_literal Sample.keyed (CallRaised "timeout")
             (Sample.action "http-missing-security-headers") []).
    intros r [<- | [<- | [<- | []]]]; reflexivity.
  - apply (allowed_default_is_not_logged search_literal Sample.keyed (CallRaised "timeout")
             (Sample.action "sqlmap-scan") []).
    eexists; split; [left; reflexivity | reflexivity].
Defined.

(** ** Triage *)

Import Triage.

Lemma SFltb_false_leb (x y z : spec_float) :
  SFltb x z = true -> y <> S754_nan -> SFltb x y = false -> SFleb y x = true.
Proof.
  unfold SFleb, SFltb.
  destruct x as [s1| s1 | | s1 m1 e1], y as [s2 | s2 | | s2 m2 e2]; simpl;
    try destruct s1; try destruct s2; simpl; intros Hz Hy H;
    try discriminate; try reflexivity; try congruence; clear Hz Hy; order_cases.
Qed.

(** A score below [hi] that is not below [lo] is at least [lo], when [lo]
    is a number. *)
Lemma not_below_is_above (lo hi score : float) :
  Prim2SF lo <> S754_nan ->
  (score <? hi)%float = true -> (score <? lo)%float = false -> (lo <=? score)%float = true.
Proof.
  rewrite !ltb_spec, leb_spec. intros Hlo Hhi H.
  now apply (SFltb_false_leb _ _ (Prim2SF hi)).
Qed.

(** C5, as the code has it: the severity is
    lower-cased before it is compared or returned, so a severity is not
    always left as it was: a finding of severity [High] scored 0.6, a score
    in none of the three bands, comes back as [high]. *)
Lemma adjust_severity_lowers_case :
  ((0.6 <? 0.3)%float = false /\ (0.6 <? 0.5)%float = false /\ (0.8 <? 0.6)%float = false) /\
  _adjust_severity (Sample.finding (Some "High")) 0.6 = "high" /\
  (_adjust_severity (Sample.finding (Some "High")) 0.6 =? "High") = false.
Proof. repeat split. Qed.

(** C5, amended: with the original severity taken as the finding's severity
    in lower case ([unknown] when the finding has none), a score below 0.3
    gives [info]; a score from 0.3 up to, but not reaching, 0.5 turns [high]
    and [critical] into [medium] and leaves any other severity; a score
    above 0.8 turns [medium] into [high] and leaves any other severity;
    every other score leaves the severity. So 0.2999 gives [info], and at
    0.3 the second band applies. *)
Theorem severity_adjustment (finding : Finding) (score : float) :
  let original := lower (get_or (f_severity finding) "unknown") in
  let damped :=
    if (original =? "high") || (original =? "critical") then "medium" else original in
  let adjusted := _adjust_severity finding score in
  ((score <? 0.3)%float = true -> adjusted = "info") /\
  ((0.3 <=? score)%float = true -> (score <? 0.5)%float = true -> adjusted = damped) /\
  ((0.8 <? score)%float = true ->
     adjusted = if original =? "medium" then "high" else original) /\
  ((score <? 0.3)%float = false ->
   ((0.3 <=? score) && (score <? 0.5))%float = false ->
   (0.8 <? score)%float = false -> adjusted = original) /\
  _adjust_severity finding 0.2999 = "info" /\
  _adjust_severity finding 0.3 = damped.
Proof.
  intros original damped adjusted. subst adjusted damped.
  unfold _adjust_severity. fold original. cbn [existsb]. rewrite orb_false_r.
  repeat split.
  - now intros ->.
  - intros Hlo Hhi. apply leb_not_ltb in Hlo. now rewrite Hlo, Hhi.
  - intros Hhi.
    rewrite (above_not_below 0.3 0.8 score), (above_not_below 0.5 0.8 score), Hhi;
      reflexivity || assumption.
  - intros H1 H2 H3. rewrite H1, H3.
    destruct (score <? 0.5)%float eqn:H5; [|reflexivity].
    rewrite (not_below_is_above 0.3 0.5 score) in H2; [discriminate | discriminate | | ];
      assumption.
Qed.

Lemma severity_adjustment_witness :
  _adjust_severity (Sample.finding (Some "high")) 0.2 = "info" /\
  _adjust_severity (Sample.finding (Some "Critical")) 0.4 = "medium" /\
  _adjust_severity (Sample.finding (Some "medium")) 0.9 = "high" /\
  _adjust_severity (Sample.finding (Some "LOW")) 0.6 = "low".
Proof.
  split; [|split; [|split]].
  - destruct (severity_adjustment (Sample.finding (Some "high")) 0.2) as (H & _).
    apply H. reflexivity.
  - destruct (severity_adjustment (Sample.finding (Some "Critical")) 0.4) as (_ & H & _).
    apply H; reflexivity.
  - destruct (severity_adjustment (Sample.finding (Some "medium")) 0.9) as (_ & _ & H & _).
    apply H. reflexivity.
  - destruct (severity_adjustment (Sample.finding (Some "LOW")) 0.6) as (_ & _ & _ & H & _).
    apply H; reflexivity.
Defined.

Lemma float_mul_numeric (w x : float) (v : pyval) :
  float_mul w v = Ok x ->
  exists f, numeric_value v = Some f /\ x = (w * f)%float.
Proof.
  destruct v; cbn; try discriminate.
  - intros [= <-]. eauto.
  - destruct (float_of_Z z); cbn; [|discriminate]. intros [= <-]. eauto.
  - intros [= <-]. eauto.
Qed.

(** Without the advisory service the engine always produces a result, from
    the neutral score 0.5. *)
Lemma score_finding_without_advisory (self : TriageEngine) (gemini : Advisory)
    (finding : Finding) :
  gemini_enabled self = false ->
  exists r, score_finding self gemini finding = Ok r /\
            llm_score r = PFloat 0.5 /\
            final_score r = (ml_weight self * ml_score r + llm_weight self * 0.5)%float.
Proof.
  intros Hoff. unfold score_finding, Gemini.score_finding. rewrite Hoff. cbn.
  eexists. repeat split.
Qed.

Lemma numeric_float_mul (w x : float) (v : pyval) :
  numeric_value v = Some x -> float_mul w v = Ok (w * x)%float.
Proof.
  destruct v; cbn; try discriminate.
  - now intros [= <-].
  - destruct (float_of_Z z); cbn; [|discriminate]. now intros [= <-].
  - now intros [= <-].
Qed.

(** C6: the final score is [ml_weight * ml_score + llm_weight * llm_score],
    with no condition on the two weights, where [ml_score] is what the
    classifier answers for the text of the finding and [llm_score] is the
    score of the advisory answer: for every engine and finding whose
    evidence the client can put in its prompt, and every advisory answer
    with a numeric score, [score_finding] returns that result; when the
    client is disabled, or the request failed or brought no object, the
    neutral score 0.5 stands for [llm_score]. Whenever a result is
    returned it has this form. With the weights 0.4 and 0.6 and the scores
    0.8 and 0.4 the final score is 0.56. *)
Theorem fusion_score (self : TriageEngine) (gemini : Advisory) (finding : Finding) :
  let ml := _ml_score self (_extract_text_features finding) in
  let fused llm := (ml_weight self * ml + llm_weight self * llm)%float in
  let scored v llm :=
    exists r, score_finding self gemini finding = Ok r /\
              ml_score r = ml /\ llm_score r = v /\ final_score r = fused llm in
  (gemini_enabled self = false -> scored (PFloat 0.5) 0.5%float) /\
  (gemini_enabled self = true ->
   (exists evidence, slice500 (get_or (f_evidence finding) (PStr "N/A")) = Ok evidence) ->
   (forall items llm,
       gemini = Parsed (PDict items) -> items <> [] ->
       numeric_value (dict_get items "score" (PFloat 0.5)) = Some llm ->
       scored (dict_get items "score" (PFloat 0.5)) llm) /\
   ((forall items, gemini = Parsed (PDict items) -> items = []) ->
    scored (PFloat 0.5) 0.5%float)) /\
  (forall r, score_finding self gemini finding = Ok r ->
     ml_score r = ml /\
     exists llm, numeric_value (llm_score r) = Some llm /\ final_score r = fused llm) /\
  (forall predict_proba proba,
     ml_model self = Trained predict_proba ->
     predict_proba (_extract_text_features finding) = Ok proba ->
     (1 < List.length proba)%nat -> ml = nth 1 proba 0.5%float) /\
  (ml_weight self = 0.4%float -> llm_weight self = 0.6%float -> ml = 0.8%float ->
   fused 0.4%float = 0.56%float).
Proof.
  intros ml fused scored. subst scored. cbv beta.
  split; [|split; [|split; [|split]]].
  - intros Hoff. unfold score_finding, Gemini.score_finding. rewrite Hoff. cbn.
    eexists. repeat split.
  - intros Hon [evidence Hslice]. split.
    + intros items llm -> Hitems Hnum.
      unfold score_finding, Gemini.score_finding. rewrite Hon, Hslice.
      cbn [negb bind truthy get].
      destruct items as [|item items]; [congruence|]. cbn [bind].
      change (dict_get [("llm_score", dict_get (item :: items) "score" (PFloat 0.5));
                        ("llm_explanation", dict_get (item :: items) "explanation" (PStr ""));
                        ("confidence", dict_get (item :: items) "confidence" (PFloat 0.5));
                        ("llm_severity", dict_get (item :: items) "severity" (PStr "unknown"));
                        ("is_likely_fp", dict_get (item :: items) "is_likely_fp" (PBool false))]
                       "llm_score" (PFloat 0.5))
        with (dict_get (item :: items) "score" (PFloat 0.5)).
      rewrite (numeric_float_mul _ _ _ Hnum). cbn [bind].
      eexists. repeat split.
    + intros Hnone.
      assert (Hneutral : exists explanation,
                 Gemini.score_finding true gemini finding = Ok (neutral explanation)).
      { unfold Gemini.score_finding. rewrite Hslice. cbn [negb bind].
        destruct gemini as [e | e | v]; try (eexists; reflexivity).
        destruct (truthy v) eqn:Htruthy; [|eexists; reflexivity].
        destruct v as [| | | | | |items]; try (cbn; eexists; reflexivity).
        rewrite (Hnone items eq_refl) in Htruthy. discriminate. }
      destruct Hneutral as [explanation Hneutral].
      unfold score_finding. rewrite Hon, Hneutral. cbn.
      eexists. repeat split.
  - intros r. unfold score_finding. intros H.
    destruct (Gemini.score_finding _ _ _) as [llm_result|e]; [|discriminate].
    cbn [bind] in H.
    destruct (float_mul _ _) as [weighted|e] eqn:Hmul; [|discriminate].
    cbn [bind] in H. injection H as <-. cbn.
    apply float_mul_numeric in Hmul as (llm & Hllm & ->).
    split; [reflexivity|]. exists llm. split; [exact Hllm | reflexivity].
  - intros predict_proba proba Hmodel Hproba Hlen. subst ml. unfold _ml_score.
    rewrite Hmodel, Hproba. apply Nat.ltb_lt in Hlen. now rewrite Hlen.
  - intros Hml Hllm Hscore. subst fused. cbv beta. rewrite Hml, Hllm, Hscore. reflexivity.
Qed.

Lemma fusion_score_witness :
  exists r, score_finding Sample.triage_engine Sample.scored (Sample.finding (Some "low")) = Ok r /\
            ml_score r = 0.8%float /\ llm_score r = PFloat 0.4 /\
            final_score r = 0.56%float.
Proof.
  pose proof (fusion_score Sample.triage_engine Sample.scored (Sample.finding (Some "low")))
    as H.
  cbv zeta in H. destruct H as (_ & H & _).
  destruct (H eq_refl) as [H' _]; [eexists; reflexivity|].
  destruct (H' [("score", PFloat 0.4); ("confidence", PFloat 0.7);
                ("explanation", PStr "header is informational")] 0.4%float
              eq_refl) as (r & Hr & Hml & Hllm & Hfinal);
    [discriminate | reflexivity |].
  exists r. split; [exact Hr|]. split; [exact Hml|]. split; [exact Hllm | exact Hfinal].
Defined.

(** ** The scope check of the pipeline *)

Import Orchestrator.









Section Stages.

Variable re_search : string -> string -> bool.
Variable self : Orchestrator.
Variable w : World.




End Stages.









(** ** Run identifiers *)

(** C9 (the code departs from it): the identifier is made of the clock's
    whole seconds and the target, so two runs on one target that start
    within the same second get the same identifier. *)
Theorem run_id_repeats_within_a_second :
  let run clock :=
    run_pipeline search_literal Sample.orchestrator
      (Sample.world clock (CallRaised "timeout") "")
      "dev.example.com" "safe-scan" (Some "scope.json") false None in
  (1700000000.25 <? 1700000000.75)%float = true /\
  fst (run 1700000000.25%float) =
    Ok (failed "blocked_by_policy" "1700000000_dev_example_com") /\
  fst (run 1700000000.75%float) =
    Ok (failed "blocked_by_policy" "1700000000_dev_example_com") /\
  make_run_id 1700000000.25 "a.b" = make_run_id 1700000000.25 "a_b".
Proof. repeat split. Qed.

(** * Further properties of the code *)

(** ** The policy gate *)

Section GateProperties.

Import Py Gemini Policy.
Lemma first_match_none (target : string) (items : list pyval) :
  first_match target items = Ok None ->
  forall v, In v items -> exists p, v = PStr p /\ _matches_pattern target p = false.
Proof.
  induction items as [|v items IH]; cbn; [intros _ v []|].
  destruct v; try discriminate.
  destruct (_matches_pattern target s) eqn:E; [discriminate|].
  intros H v [<- | Hin]; [eauto | now apply IH].
Qed.

Lemma first_match_some (target pattern : string) (items : list pyval) :
  first_match target items = Ok (Some pattern) ->
  In (PStr pattern) items /\ _matches_pattern target pattern = true.
Proof.
  induction items as [|v items IH]; cbn; [discriminate|].
  destruct v; try discriminate.
  destruct (_matches_pattern target s) eqn:E.
  - intros [= <-]. auto.
  - intros H. destruct (IH H). auto.
Qed.

(** X1: a scope validation that returns leaves exactly one record in the
    audit trail, named [scope_check] or [scope_check_gemini], that carries
    the target and the decision, reason and confidence it returns; one that
    raises leaves none. It returns when no scope file is given, when the
    file cannot be loaded and when the file holds a scope definition; it
    raises when the value of the file is not an object. *)
Theorem scope_validation_audit (self : PolicyEngine)
    (load_scope : string -> result pyval) (gemini : Advisory) (target : string)
    (scope_file : option string) (log : list AuditRecord) :
  let validation := is_target_in_scope self load_scope gemini target scope_file log in
  match fst validation with
  | Ok d =>
      exists name,
        (name = "scope_check" \/ name = "scope_check_gemini") /\
        snd validation =
          (log ++ [ {| a_target := target; a_action := name; a_decision := decision d;
                       a_reason := reason d; a_confidence := confidence d |} ])%list
  | Raise _ => snd validation = log
  end /\
  (scope_file = None \/ scope_file = Some "" \/
   (exists path, scope_file = Some path /\
      ((exists e, load_scope path = Raise e) \/
       (exists value scope_data,
           load_scope path = Ok value /\ read_scope value = Some scope_data))) ->
   exists d, fst validation = Ok d) /\
  (forall path value,
      scope_file = Some path -> path <> "" -> load_scope path = Ok value ->
      (forall items, value <> PDict items) ->
      exists e, fst validation = Raise e).
Proof.
  cbv zeta. split; [|split].
  - unfold is_target_in_scope.
    destruct scope_file as [[|c path]|];
      try (cbn; eexists; split; [left; reflexivity | reflexivity]).
    destruct (load_scope _) as [value|e];
      try (cbn; eexists; split; [left; reflexivity | reflexivity]).
    destruct (bind _ _) as [[[p|] [q|]]|e];
      try (cbn; eexists; split; [left; reflexivity | reflexivity]);
      try reflexivity.
    destruct (has_api_key _); cbn; eexists; (split; [|reflexivity]); auto.
  - intros [-> | [-> | (path & -> & Hload)]]; try (cbn; eexists; reflexivity).
    destruct path as [|c path]; [cbn; eexists; reflexivity|].
    destruct Hload as [[e He] | (value & scope_data & Hload & Hread)].
    + unfold is_target_in_scope. rewrite He. cbn. eexists. reflexivity.
    + rewrite (is_target_in_scope_read self load_scope gemini target _ value scope_data log);
        [|discriminate | exact Hload | exact Hread].
      eexists. apply fst_returned.
  - intros path value -> Hpath Hload Hnot. unfold is_target_in_scope.
    destruct path as [|c path]; [congruence|]. rewrite Hload.
    destruct value; try (cbn; eexists; reflexivity). now elim (Hnot d).
Qed.

Lemma scope_validation_audit_witness :
  (exists d,
      fst (is_target_in_scope Sample.keyed (fun _ => Ok Sample.scope_file)
             (CallRaised "timeout") "api.example.com" (Some "scope.json") []) = Ok d) /\
  (exists e,
      fst (is_target_in_scope Sample.keyed (fun _ => Ok (PList [PStr "*.example.com"]))
             (CallRaised "timeout") "api.example.com" (Some "scope.json") []) = Raise e) /\
  snd (is_target_in_scope Sample.keyed (fun _ => Ok (PList [PStr "*.example.com"]))
         (CallRaised "timeout") "api.example.com" (Some "scope.json") []) = [].
Proof.
  split; [|split; [|reflexivity]].
  - pose proof (scope_validation_audit Sample.keyed (fun _ => Ok Sample.scope_file)
                  (CallRaised "timeout") "api.example.com" (Some "scope.json") []) as H.
    cbv zeta in H. destruct H as (_ & H & _). apply H.
    right. right. exists "scope.json". split; [reflexivity|].
    right. exists Sample.scope_file, Sample.scope. split; reflexivity.
  - pose proof (scope_validation_audit Sample.keyed
                  (fun _ => Ok (PList [PStr "*.example.com"]))
                  (CallRaised "timeout") "api.example.com" (Some "scope.json") []) as H.
    cbv zeta in H. destruct H as (_ & _ & H).
    destruct (H "scope.json" (PList [PStr "*.example.com"]) eq_refl) as [e He];
      [discriminate | reflexivity | discriminate |].
    exists e. exact He.
Defined.

Lemma find_first {A : Type} (f : A -> bool) (l : list A) (x : A) :
  find f l = Some x ->
  exists before after,
    l = (before ++ x :: after)%list /\ (forall y, In y before -> f y = false) /\ f x = true.
Proof.
  induction l as [|a l IH]; cbn; [discriminate|].
  destruct (f a) eqn:Ha.
  - intros [= <-]. exists [], l. repeat split; auto. intros y [].
  - intros H. destruct (IH H) as (before & after & -> & Hb & Hx).
    exists (a :: before), after. repeat split; auto.
    intros y [<- | Hy]; auto.
Qed.

(** X2: a template that a blocked pattern matches is BLOCKED with
    confidence 1.0 whatever the advisory service would answer and whether
    or not a validation rule matches too; the reason and the details are
    those of the first blocked pattern of the manifest that matches. *)
Theorem blocked_rule_is_final (re_search : string -> string -> bool) (self : PolicyEngine)
    (gemini : Advisory) (action : ActionDescriptor) (log : list AuditRecord) (rule : Rule) :
  In rule (blocked_patterns (blocked_manifest self)) ->
  re_search (pattern rule) (get_or (template action) "") = true ->
  let d := fst (validate_scanner_action re_search self gemini action log) in
  decision d = PStr "BLOCKED" /\ confidence d = PFloat 1.0 /\
  exists before first after,
    blocked_patterns (blocked_manifest self) = (before ++ first :: after)%list /\
    (forall r, In r before -> re_search (pattern r) (get_or (template action) "") = false) /\
    re_search (pattern first) (get_or (template action) "") = true /\
    reason d = "Template matches blocked pattern: " ++ id first /\
    details d = [Lit (notes first)].
Proof.
  intros Hin Hm.
  destruct (find_exists (fun b => re_search (pattern b) (get_or (template action) "")) _ _ Hin Hm)
    as (first & Hfind & _).
  unfold validate_scanner_action. rewrite Hfind. cbn.
  split; [reflexivity|]. split; [reflexivity|].
  destruct (find_first _ _ _ Hfind) as (before & after & Hl & Hb & Hf).
  exists before, first, after. auto.
Qed.

Lemma blocked_rule_is_final_witness :
  decision (fst (validate_scanner_action search_literal Sample.keyed
                   (Parsed (PDict [("decision", PStr "ALLOWED")]))
                   (Sample.action "SQLMap-authentication") [])) = PStr "BLOCKED" /\
  reason (fst (validate_scanner_action search_literal Sample.keyed
                 (Parsed (PDict [("decision", PStr "ALLOWED")]))
                 (Sample.action "SQLMap-authentication") []))
    = "Template matches blocked pattern: sql-exploit".
Proof.
  destruct (blocked_rule_is_final search_literal Sample.keyed
              (Parsed (PDict [("decision", PStr "ALLOWED")]))
              (Sample.action "SQLMap-authentication") []
              {| id := "sql-exploit"; pattern := "sqlmap";
                 notes := "SQL exploitation tools - requires manual approval" |})
    as (Hd & _); [left; reflexivity | reflexivity |].
  split; [exact Hd | reflexivity].
Defined.

(** X3: without an API key the advisory service has no say: the answers of
    both validations are the same for every advisory outcome, an action is
    BLOCKED or ALLOWED with confidence 1.0 or REQUIRES_VALIDATION with
    confidence 0.5, and a scope is BLOCKED or ALLOWED with confidence 1.0
    or UNKNOWN with confidence 0.0. *)
Theorem no_key_local_decisions (re_search : string -> string -> bool) (self : PolicyEngine)
    (load_scope : string -> result pyval) (g1 g2 : Advisory) :
  has_api_key (config self) = false ->
  (forall action log,
      validate_scanner_action re_search self g1 action log =
      validate_scanner_action re_search self g2 action log /\
      let d := fst (validate_scanner_action re_search self g1 action log) in
      (decision d = PStr "BLOCKED" /\ confidence d = PFloat 1.0) \/
      (decision d = PStr "REQUIRES_VALIDATION" /\ confidence d = PFloat 0.5) \/
      (decision d = PStr "ALLOWED" /\ confidence d = PFloat 1.0)) /\
  (forall target scope_file log,
      is_target_in_scope self load_scope g1 target scope_file log =
      is_target_in_scope self load_scope g2 target scope_file log /\
      forall d, fst (is_target_in_scope self load_scope g1 target scope_file log) = Ok d ->
      (decision d = PStr "BLOCKED" /\ confidence d = PFloat 1.0) \/
      (decision d = PStr "ALLOWED" /\ confidence d = PFloat 1.0) \/
      (decision d = PStr "UNKNOWN" /\ confidence d = PFloat 0.0)).
Proof.
  intros Hkey. split.
  - intros action log. unfold validate_scanner_action. rewrite Hkey.
    split; [reflexivity|].
    destruct (find _ (blocked_patterns _)); [left; split; reflexivity|].
    destruct (find _ (requires_validation _)); [right; left|right; right]; split; reflexivity.
  - intros target scope_file log. unfold is_target_in_scope. rewrite Hkey.
    split; [reflexivity|].
    destruct scope_file as [[|c path]|];
      try (cbn; intros d [= <-]; right; right; split; reflexivity).
    destruct (load_scope _) as [value|e];
      try (cbn; intros d [= <-]; right; right; split; reflexivity).
    destruct (bind _ _) as [[[p|] [q|]]|e]; cbn; intros d Hd;
      try discriminate Hd; injection Hd as <-.
    + left; split; reflexivity.
    + left; split; reflexivity.
    + right; left; split; reflexivity.
    + right; right; split; reflexivity.
Qed.

Lemma no_key_local_decisions_witness :
  validate_scanner_action search_literal Cases.unkeyed (CallRaised "timeout")
    (Sample.action "authentication-bypass") [] =
  validate_scanner_action search_literal Cases.unkeyed
    (Parsed (PDict [("decision", PStr "ALLOWED")]))
    (Sample.action "authentication-bypass") [].
Proof.
  destruct (no_key_local_decisions search_literal Cases.unkeyed
              (fun _ => Ok Sample.scope_file) (CallRaised "timeout") (Parsed (PDict [("decision", PStr "ALLOWED")]))
              eq_refl) as [H _].
  exact (proj1 (H (Sample.action "authentication-bypass") [])).
Defined.

(** X4: a target that a scope file which loads lists in scope and does not
    exclude is ALLOWED with confidence 1.0; and without an API key this is
    the only way to ALLOWED: a scope file was given and loaded, its
    out_of_scope holds only patterns that do not match the target and its
    in_scope holds a pattern that does. *)
Theorem local_scope_allow (self : PolicyEngine) (load_scope : string -> result pyval)
    (gemini : Advisory) (target : string) (scope_file : option string)
    (log : list AuditRecord) :
  let validation := fst (is_target_in_scope self load_scope gemini target scope_file log) in
  ((exists path value scope_data,
       scope_file = Some path /\ path <> "" /\ load_scope path = Ok value /\
       read_scope value = Some scope_data /\
       (forall p, In p (out_of_scope scope_data) -> _matches_pattern target p = false) /\
       (exists p, In p (in_scope scope_data) /\ _matches_pattern target p = true)) ->
   exists d, validation = Ok d /\
             decision d = PStr "ALLOWED" /\ confidence d = PFloat 1.0) /\
  (has_api_key (config self) = false ->
   forall d, validation = Ok d -> decision d = PStr "ALLOWED" ->
   exists path items included excluded,
     scope_file = Some path /\ path <> "" /\ load_scope path = Ok (PDict items) /\
     iterate (dict_get items "in_scope" (PList [])) = Ok included /\
     iterate (dict_get items "out_of_scope" (PList [])) = Ok excluded /\
     (forall v, In v excluded ->
        exists p, v = PStr p /\ _matches_pattern target p = false) /\
     (exists p, In (PStr p) included /\ _matches_pattern target p = true)).
Proof.
  cbv zeta. split.
  - intros (path & value & sd & -> & Hpath & Hload & Hread & Hout & (p & Hin & Hp)).
    rewrite (is_target_in_scope_read self load_scope gemini target path value sd log
               Hpath Hload Hread).
    rewrite (find_all_false _ _ Hout).
    destruct (find_exists _ _ _ Hin Hp) as (q & -> & _).
    eexists. split; [reflexivity|]. split; reflexivity.
  - intros Hkey d. unfold is_target_in_scope. rewrite Hkey.
    destruct scope_file as [[|c path]|];
      try (cbn; intros [= <-] Hd; discriminate Hd).
    destruct (load_scope (String c path)) as [value|e] eqn:Hload;
      try (cbn; intros [= <-] Hd; discriminate Hd).
    destruct value as [| | | | | |items]; try (cbn; intros Hd; discriminate Hd).
    cbn [get bind].
    destruct (iterate (dict_get items "out_of_scope" (PList []))) as [excluded|e] eqn:Eout;
      cbn [bind]; [|intros Hd; discriminate Hd].
    destruct (first_match target excluded) as [[p|]|e] eqn:Hout; cbn [bind];
      try (cbn; intros [= <-] Hd; discriminate Hd); try (intros Hd; discriminate Hd).
    destruct (iterate (dict_get items "in_scope" (PList []))) as [included|e] eqn:Ein;
      cbn [bind]; [|intros Hd; discriminate Hd].
    destruct (first_match target included) as [[p|]|e] eqn:Hin; cbn [bind];
      try (cbn; intros [= <-] Hd; discriminate Hd); try (intros Hd; discriminate Hd).
    intros _ _. exists (String c path), items, included, excluded.
    split; [reflexivity|]. split; [discriminate|]. split; [exact Hload|].
    split; [exact Ein|]. split; [exact Eout|]. split.
    + now apply first_match_none.
    + exists p. now apply first_match_some.
Qed.

Lemma local_scope_allow_witness :
  exists d,
    fst (is_target_in_scope Sample.keyed (fun _ => Ok Sample.scope_file)
           (CallRaised "timeout") "api.example.com" (Some "scope.json") []) = Ok d /\
    decision d = PStr "ALLOWED".
Proof.
  pose proof (local_scope_allow Sample.keyed (fun _ => Ok Sample.scope_file)
                (CallRaised "timeout") "api.example.com" (Some "scope.json") []) as H.
  cbv zeta in H. destruct H as [H _].
  destruct H as (d & Hd & Hallowed & _).
  - exists "scope.json", Sample.scope_file, Sample.scope.
    split; [reflexivity|]. split; [discriminate|]. split; [reflexivity|].
    split; [reflexivity|]. split.
    + intros p [<- | []]. reflexivity.
    + exists "*.example.com". split; [left; reflexivity | reflexivity].
  - exists d. split; assumption.
Defined.

(** X5: a pattern that does not start with [*.] matches the target equal
    to it and the targets that end with a dot followed by it, and no
    other. *)
Theorem plain_pattern_matching (target pattern : string) :
  startswith pattern "*." = false ->
  (_matches_pattern target pattern = true <->
   target = pattern \/ exists label, target = label ++ "." ++ pattern).
Proof.
  intros Hplain. unfold _matches_pattern. rewrite Hplain. cbn [andb].
  destruct (target =? pattern) eqn:E.
  - apply String.eqb_eq in E. tauto.
  - apply String.eqb_neq in E.
    destruct (endswith target ("." ++ pattern)) eqn:Es.
    + apply endswith_iff in Es. tauto.
    + split; [discriminate|]. intros [Heq | Hsub]; [congruence|].
      apply endswith_iff in Hsub. congruence.
Qed.

Lemma plain_pattern_matching_witness :
  _matches_pattern "api.app.example.com" "example.com" = true /\
  _matches_pattern "evilexample.com" "example.com" = false.
Proof.
  split.
  - apply (plain_pattern_matching "api.app.example.com" "example.com"); [reflexivity|].
    right. exists "api.app". reflexivity.
  - reflexivity.
Defined.

(** X6: a pattern [*.D] matches exactly the targets that end with [D], so
    the pattern [*.] alone matches every target. *)
Theorem wildcard_pattern_is_suffix_test (target D : string) :
  (_matches_pattern target ("*." ++ D) = true <-> exists prefix, target = prefix ++ D) /\
  _matches_pattern target "*." = true.
Proof.
  split.
  - rewrite matches_wildcard. apply endswith_iff.
  - change "*." with ("*." ++ ""). rewrite matches_wildcard. apply endswith_iff.
    exists target. induction target as [|c t IH]; cbn; [reflexivity | now rewrite <- IH].
Qed.

End GateProperties.

(** ** The text of an advisory answer *)

Section AnswerText.

Import Response.

Lemma append_assoc (a b c : string) : (a ++ b) ++ c = a ++ b ++ c.
Proof. induction a as [|x a IH]; cbn; [reflexivity | now rewrite IH]. Qed.


Lemma take_length_app (p s : string) : take (String.length p) (p ++ s) = p.
Proof. induction p as [|c p IH]; cbn; [now destruct s | now rewrite IH]. Qed.

Lemma prefix_app (p s : string) : String.prefix p (p ++ s) = true.
Proof. exact (startswith_app p s). Qed.

Lemma prefix_cons (a b : ascii) (s1 s2 : string) :
  String.prefix (String a s1) (String b s2) =
  if ascii_dec a b then String.prefix s1 s2 else false.
Proof. reflexivity. Qed.

Lemma prefix_backquote (c : ascii) (sub s : string) :
  Ascii.eqb c "`" = false -> String.prefix (String "`" sub) (String c s) = false.
Proof.
  intros Hc. rewrite prefix_cons.
  destruct (ascii_dec "`" c) as [<-|]; [discriminate | reflexivity].
Qed.

Lemma find_at_past (pre sub rest : string) :
  no_backquote pre = true ->
  find_at (pre ++ String "`" sub ++ rest) (String "`" sub) = Some (String.length pre).
Proof.
  intros Hpre. induction pre as [|c pre IH].
  - cbn [append String.length find_at].
    change (String "`" (sub ++ rest)) with (String "`" sub ++ rest).
    now rewrite prefix_app.
  - cbn in Hpre. apply andb_true_iff in Hpre as [Hc Hpre].
    apply negb_true_iff in Hc.
    cbn [append String.length find_at].
    rewrite (prefix_backquote c sub _ Hc).
    change (String "`" (sub ++ rest)) with (String "`" sub ++ rest).
    fold (append pre (String "`" sub ++ rest)).
    rewrite (IH Hpre). reflexivity.
Qed.


Lemma contains_past (pre sub rest : string) : contains (pre ++ sub ++ rest) sub = true.
Proof.
  induction pre as [|c pre IH].
  - cbn [append]. destruct (sub ++ rest) eqn:E; cbn [contains];
      rewrite <- E, prefix_app; reflexivity.
  - cbn [append contains]. fold (append pre (sub ++ rest)). rewrite IH. apply orb_true_r.
Qed.

Lemma prefix_shorter (a b s : string) :
  String.prefix (a ++ b) s = true -> String.prefix a s = true.
Proof.
  revert s. induction a as [|c a IH]; intros s; cbn [append].
  - intros _. now destruct s.
  - destruct s as [|d s]; [discriminate|]. rewrite !prefix_cons.
    destruct (ascii_dec c d); [apply IH | discriminate].
Qed.

Lemma contains_shorter (s a b : string) :
  contains s (a ++ b) = true -> contains s a = true.
Proof.
  induction s as [|c s IH]; cbn [contains].
  - rewrite !orb_false_r. apply prefix_shorter.
  - intros H. apply orb_true_iff in H as [H | H]; apply orb_true_iff.
    + left. now apply (prefix_shorter a b).
    + right. auto.
Qed.

Lemma clamp_inside (s : string) (n : nat) :
  n <= String.length s -> clamp s (Z.of_nat n) = n.
Proof.
  intros H. unfold clamp.
  destruct (Z.ltb_spec (Z.of_nat n) 0); [lia|].
  rewrite Z.min_l by lia. apply Nat2Z.id.
Qed.

(** X7: [validate_json_response] parses a text without a code fence as it
    is; of a text with a fence opened by three backquotes and [json] and
    closed by three backquotes (no other backquote before the closing
    fence) it parses what stands between the two, stripped of white
    space. *)
Theorem fenced_answer_text :
  (forall text, contains text "```" = false -> json_text text = text) /\
  (forall before body after,
      no_backquote before = true -> no_backquote body = true ->
      json_text (before ++ "```json" ++ body ++ "```" ++ after) = strip body).
Proof.
  split.
  - intros text Hnone. unfold json_text. rewrite Hnone.
    destruct (contains text "```json") eqn:E; [|reflexivity].
    apply (contains_shorter text "```" "json") in E. congruence.
  - intros before body after Hb Hbody.
    set (text := before ++ "```json" ++ body ++ "```" ++ after).
    assert (Hlen : String.length text =
                   String.length before + 7 + String.length body + 3 + String.length after).
    { unfold text. rewrite !length_app. cbn. lia. }
    unfold json_text. unfold text at 1. rewrite contains_past. fold text.
    assert (Hfind : find text "```json" = Z.of_nat (String.length before)).
    { unfold find, text. now rewrite (find_at_past before "``json" _ Hb). }
    rewrite Hfind.
    replace (Z.of_nat (String.length before) + 7)%Z
      with (Z.of_nat (String.length before + 7)) by lia.
    assert (Hdrop : drop (String.length before + 7) text = body ++ "```" ++ after).
    { unfold text. rewrite <- (append_assoc before "```json").
      replace (String.length before + 7) with (String.length (before ++ "```json"))
        by (rewrite length_app; reflexivity).
      apply drop_length_app. }
    assert (Hstop : find_from text "```" (Z.of_nat (String.length before + 7)) =
                    Z.of_nat (String.length before + 7 + String.length body)).
    { unfold find_from. destruct (Z.ltb_spec (Z.of_nat (String.length text))
                                    (Z.of_nat (String.length before + 7))); [lia|].
      rewrite clamp_inside by lia. rewrite Hdrop.
      rewrite (find_at_past body "``" after Hbody). reflexivity. }
    rewrite Hstop. unfold slice. rewrite !clamp_inside by lia.
    rewrite Hdrop.
    replace (String.length before + 7 + String.length body - (String.length before + 7))
      with (String.length body) by lia.
    now rewrite take_length_app.
Qed.

Lemma fenced_answer_text_witness :
  json_text "Answer: ```json [1, 2] ``` done" = "[1, 2]" /\
  json_text "[1, 2]" = "[1, 2]".
Proof.
  destruct fenced_answer_text as [Hplain Hfenced]. split.
  - apply (Hfenced "Answer: " " [1, 2] " " done"); reflexivity.
  - apply Hplain. reflexivity.
Defined.



End AnswerText.

(** ** The triage scorer *)

Section TriageProperties.

Import Gemini Policy Triage.

(** X9: with the advisory client enabled, a finding whose evidence is a
    dictionary (as the Nuclei runner builds it) cannot be scored: slicing
    the evidence raises before the request is made, outside the [try] of
    the client, so [score_finding] raises for every answer of the service
    and the pipeline leaves the finding out of the triaged findings. *)
Theorem dict_evidence_fails_triage (self : TriageEngine) (gemini : Advisory)
    (finding : Finding) (evidence : list (string * pyval)) :
  gemini_enabled self = true ->
  f_evidence finding = Some (PDict evidence) ->
  (exists e, score_finding self gemini finding = Raise e) /\
  (forall (orchestrator : Orchestrator.Orchestrator) (w : Orchestrator.World)
          (run_id : string) (triaged : list Orchestrator.TriagedFinding)
          (trace : list Orchestrator.Event),
      Orchestrator.triage_engine orchestrator = self ->
      Orchestrator.triage_finding orchestrator w run_id finding triaged trace =
      (Ok triaged, (trace ++ [Orchestrator.Triaged finding])%list)).
Proof.
  intros Hon Hev.
  assert (Hraise : forall g, score_finding self g finding = Raise "unhashable type: 'slice'").
  { intros g. unfold score_finding, Gemini.score_finding. rewrite Hon, Hev. reflexivity. }
  split.
  - eexists. apply Hraise.
  - intros orchestrator w run_id triaged trace <-.
    unfold Orchestrator.triage_finding, Orchestrator.guarded, Orchestrator.and_then,
      Orchestrator.call.
    rewrite Hraise. reflexivity.
Qed.

Lemma dict_evidence_fails_triage_witness :
  exists e, score_finding Sample.triage_engine Sample.scored Cases.nuclei_finding = Raise e.
Proof.
  apply (dict_evidence_fails_triage Sample.triage_engine Sample.scored Cases.nuclei_finding
           [("type", PStr "http"); ("matcher_name", PStr ""); ("extracted_results", PList [])]);
    reflexivity.
Defined.

(** X10: whenever the scorer returns with a final score below 0.3, the
    finding is flagged as a false positive and its adjusted severity is
    [info], whatever its severity was. *)
Theorem low_score_is_flagged_and_info (self : TriageEngine) (gemini : Advisory)
    (finding : Finding) (r : TriageResult) :
  score_finding self gemini finding = Ok r ->
  (final_score r <? 0.3)%float = true ->
  truthy (is_false_positive r) = true /\ severity_adjusted r = "info".
Proof.
  unfold score_finding. intros H Hlow.
  destruct (Gemini.score_finding _ _ _) as [llm_result|e]; [|discriminate].
  cbn [bind] in H.
  destruct (float_mul _ _) as [weighted|e]; [|discriminate].
  cbn [bind] in H. injection H as <-. cbn in *.
  split.
  - destruct (truthy (dict_get llm_result "is_likely_fp" (PBool false))) eqn:E;
      [exact E | cbn; exact Hlow].
  - unfold _adjust_severity. now rewrite Hlow.
Qed.

Lemma lower_ascii_idempotent (c : ascii) : lower_ascii (lower_ascii c) = lower_ascii c.
Proof. destruct c as [[] [] [] [] [] [] [] []]; reflexivity. Qed.

Lemma lower_idempotent (s : string) : lower (lower s) = lower s.
Proof.
  induction s as [|c s IH]; cbn; [reflexivity|].
  now rewrite lower_ascii_idempotent, IH.
Qed.

Lemma low_score_is_flagged_and_info_witness :
  exists r,
    score_finding Cases.untrained Cases.doubtful (Sample.finding (Some "high")) = Ok r /\
    truthy (is_false_positive r) = true /\ severity_adjusted r = "info".
Proof.
  eexists. split; [reflexivity|].
  apply (low_score_is_flagged_and_info Cases.untrained Cases.doubtful
           (Sample.finding (Some "high"))); reflexivity.
Defined.

Lemma score_finding_severity (self : TriageEngine) (gemini : Advisory)
    (finding : Finding) (r : TriageResult) :
  score_finding self gemini finding = Ok r ->
  severity_adjusted r = _adjust_severity finding (final_score r).
Proof.
  unfold score_finding. intros H.
  destruct (Gemini.score_finding _ _ _) as [llm_result|e]; [|discriminate].
  cbn [bind] in H.
  destruct (float_mul _ _) as [weighted|e]; [|discriminate].
  cbn [bind] in H. injection H as <-. reflexivity.
Qed.

End TriageProperties.

(** ** The stages of a run *)

Section RunFlow.

Import Gemini Policy Orchestrator Flow.

Lemma uniform_pure {A : Type} (a : A) : uniform (pure a).
Proof. intros tr. cbn. now rewrite app_nil_r. Qed.

Lemma uniform_call {A : Type} (e : Event) (answer : result A) : uniform (call e answer).
Proof. intros tr. reflexivity. Qed.

Lemma uniform_emit (e : Event) : uniform (emit e).
Proof. intros tr. reflexivity. Qed.

Lemma uniform_policy {A : Type} (m : Audit A) : uniform (policy m).
Proof. intros tr. unfold policy. now destruct (m []). Qed.

Lemma uniform_policy_call {A : Type} (m : Audit (result A)) : uniform (policy_call m).
Proof. intros tr. unfold policy_call. now destruct (m []). Qed.

Lemma and_then_from_start {A B : Type} (m : Run A) (k : A -> Run B) :
  (forall a, uniform (k a)) ->
  and_then m k [] =
  match outcome m with
  | Ok a => (outcome (k a), (events m ++ events (k a))%list)
  | Raise e => (Raise e, events m)
  end.
Proof.
  intros Hk. unfold and_then, outcome, events.
  destruct (m []) as [[a|e] s]; cbn [fst snd]; [|reflexivity].
  apply Hk.
Qed.

Lemma uniform_and_then {A B : Type} (m : Run A) (k : A -> Run B) :
  uniform m -> (forall a, uniform (k a)) -> uniform (and_then m k).
Proof.
  intros Hm Hk tr. rewrite (and_then_from_start m k Hk).
  unfold and_then, outcome, events. rewrite (Hm tr).
  destruct (m []) as [[a|e] s]; cbn [fst snd]; [|reflexivity].
  rewrite (Hk a (tr ++ s)%list). now rewrite app_assoc.
Qed.

Lemma uniform_guarded {A : Type} (m : Run A) (default : A) :
  uniform m -> uniform (guarded m default).
Proof.
  intros Hm tr. unfold guarded. rewrite (Hm tr).
  destruct (m []) as [[a|e] s]; reflexivity.
Qed.

Lemma uniform_for_each {A B : Type} (l : list A) (body : A -> B -> Run B) (acc : B) :
  (forall x b, uniform (body x b)) -> uniform (for_each l body acc).
Proof.
  intros Hbody. revert acc. induction l as [|x l IH]; intros acc; cbn.
  - apply uniform_pure.
  - apply uniform_and_then; auto.
Qed.

Ltac uniform_step :=
  first
    [ apply uniform_pure | apply uniform_call | apply uniform_emit | apply uniform_policy
    | apply uniform_policy_call
    | apply uniform_guarded
    | apply uniform_for_each; intros
    | apply uniform_and_then; [|intros]
    | match goal with |- uniform (if ?c then _ else _) => destruct c end
    | match goal with |- uniform (let x := _ in _) => cbv zeta end ].

Section StageEvents.

Variable re_search : string -> string -> bool.
Variable self : Orchestrator.
Variable w : World.

Lemma uniform_scan_host mode host fs : uniform (scan_host re_search self w mode host fs).
Proof. unfold scan_host. repeat uniform_step. Qed.

Lemma uniform_triage_finding run_id f tfs : uniform (triage_finding self w run_id f tfs).
Proof. unfold triage_finding. repeat uniform_step. Qed.

Lemma uniform_confirm target : uniform (_confirm_manual_override w target).
Proof. unfold _confirm_manual_override. repeat uniform_step. Qed.

Lemma uniform_after_scope_check run_id target mode :
  uniform (after_scope_check re_search self w run_id target mode).
Proof.
  unfold after_scope_check.
  repeat uniform_step; auto using uniform_scan_host, uniform_triage_finding.
Qed.

Lemma uniform_try_block run_id target mode scope_file allow_unblock :
  uniform (try_block re_search self w run_id target mode scope_file allow_unblock).
Proof.
  unfold try_block.
  repeat uniform_step; auto using uniform_after_scope_check, uniform_confirm.
Qed.

Lemma scan_host_from_start mode host fs :
  scan_host re_search self w mode host fs [] =
  (Ok (fs ++ if permitted re_search self w mode host then findings_of w host else [])%list,
   scan_events re_search self w mode host).
Proof.
  unfold scan_host, scan_events, permitted, scan_decision, findings_of, descriptor.
  unfold and_then at 1, policy at 1.
  destruct (validate_scanner_action _ _ _ _ _) as [d log]. cbn [fst snd app].
  destruct (eq_str (decision d) "BLOCKED"); cbn [negb andb pure].
  - now rewrite !app_nil_r.
  - destruct (eq_str (decision d) "REQUIRES_VALIDATION" &&
              negb (mode =? "full-scan-with-validation")); cbn [negb pure].
    + now rewrite !app_nil_r.
    + unfold and_then, guarded, call.
      destruct (nuclei_run w host); reflexivity.
Qed.

Lemma scan_loop_from_start mode hosts fs :
  for_each hosts (scan_host re_search self w mode) fs [] =
  (Ok (fs ++ flat_map (findings_of w) (filter (permitted re_search self w mode) hosts))%list,
   flat_map (scan_events re_search self w mode) hosts).
Proof.
  revert fs. induction hosts as [|h hosts IH]; intros fs; cbn [for_each flat_map filter].
  - cbn. now rewrite app_nil_r.
  - rewrite and_then_from_start
      by (intros a; apply uniform_for_each; intros; apply uniform_scan_host).
    unfold outcome, events. rewrite scan_host_from_start. cbn [fst snd].
    rewrite IH. cbn [fst snd]. f_equal. f_equal.
    destruct (permitted re_search self w mode h); cbn [flat_map].
    + now rewrite <- app_assoc.
    + now rewrite app_nil_r.
Qed.

Lemma triage_finding_from_start run_id f tfs :
  triage_finding self w run_id f tfs [] =
  (Ok (tfs ++ triage_of self w f)%list, triage_events self w run_id f).
Proof.
  unfold triage_finding, triage_events, triage_of, guarded, and_then, call, emit, pure.
  destruct (Triage.score_finding _ _ _); cbn; [reflexivity | now rewrite app_nil_r].
Qed.

Lemma triage_loop_from_start run_id fs tfs :
  for_each fs (triage_finding self w run_id) tfs [] =
  (Ok (tfs ++ flat_map (triage_of self w) fs)%list, flat_map (triage_events self w run_id) fs).
Proof.
  revert tfs. induction fs as [|f fs IH]; intros tfs; cbn [for_each flat_map].
  - cbn. now rewrite app_nil_r.
  - rewrite and_then_from_start
      by (intros a; apply uniform_for_each; intros; apply uniform_triage_finding).
    unfold outcome, events. rewrite triage_finding_from_start. cbn [fst snd].
    rewrite IH. cbn [fst snd]. now rewrite <- app_assoc.
Qed.

Lemma crawl_loop_from_start hosts acc :
  exists urls,
    for_each hosts (crawl_body w) acc [] = (Ok urls, map Crawl hosts).
Proof.
  revert acc. induction hosts as [|h hosts IH]; intros acc; cbn [for_each map].
  - eexists. reflexivity.
  - rewrite and_then_from_start
      by (intros a; apply uniform_for_each; intros; unfold crawl_body; repeat uniform_step).
    unfold outcome, events.
    assert (Hb : exists r, crawl_body w h acc [] = (Ok r, [Crawl h])).
    { unfold crawl_body, and_then, guarded, call, pure.
      destruct (crawler_crawl w h); cbn; eexists; reflexivity. }
    destruct Hb as [r ->]. cbn [fst snd].
    destruct (IH r) as [urls ->]. eexists. reflexivity.
Qed.

Lemma after_scope_check_from_start run_id target mode recon :
  passive_recon_run w target = Ok recon ->
  write_json w run_id "recon.json" = Ok tt ->
  (mode =? "passive-only") = false ->
  after_scope_check re_search self w run_id target mode [] =
  (fst (closing w run_id target (triaged_findings re_search self w mode (live_hosts recon))),
   [Recon target; WriteRecon run_id] ++
   crawl_events mode (live_hosts recon) ++
   flat_map (scan_events re_search self w mode) (live_hosts recon) ++
   flat_map (triage_events self w run_id) (scan_findings re_search self w mode (live_hosts recon)) ++
   snd (closing w run_id target (triaged_findings re_search self w mode (live_hosts recon))))%list.
Proof.
  intros Hrecon Hwrite Hmode.
  unfold after_scope_check.
  unfold and_then at 1, call at 1. rewrite Hrecon.
  unfold and_then at 1, call at 1. rewrite Hwrite. rewrite Hmode.
  cbv zeta.
  match goal with
  | |- and_then ?m ?k ?tr = _ =>
      assert (Hk : forall a, uniform (k a));
      [ intros a; repeat uniform_step; auto using uniform_scan_host, uniform_triage_finding
      | assert (Hm : exists urls, m [] = (Ok urls, crawl_events mode (live_hosts recon))) ]
  end.
  { unfold crawl_events.
    destruct (existsb (String.eqb mode) ["safe-scan"; "full-scan-with-validation"]).
    - apply (crawl_loop_from_start (firstn 5 (live_hosts recon)) []).
    - eexists. reflexivity. }
  destruct Hm as [urls Hm].
  match goal with
  | |- and_then ?m ?k ?tr = _ =>
      assert (Hu : uniform m)
  end.
  { destruct (existsb (String.eqb mode) ["safe-scan"; "full-scan-with-validation"]);
      repeat uniform_step. }
  unfold and_then at 1. rewrite (Hu _), Hm. cbn [fst snd].
  unfold and_then at 1.
  rewrite (uniform_for_each _ _ _ (uniform_scan_host mode)), scan_loop_from_start.
  cbn [fst snd app].
  unfold and_then at 1.
  rewrite (uniform_for_each _ _ _ (uniform_triage_finding run_id)), triage_loop_from_start.
  cbn [fst snd app].
  fold (scan_findings re_search self w mode (live_hosts recon)).
  fold (triaged_findings re_search self w mode (live_hosts recon)).
  unfold closing, and_then, call, pure.
  clear Hk Hu Hm.
  destruct (write_json w run_id "findings.json"); cbn [fst snd].
  - destruct (report_generate w run_id target _); cbn [fst snd];
      repeat (rewrite <- app_comm_cons || rewrite <- app_assoc); reflexivity.
  - repeat (rewrite <- app_comm_cons || rewrite <- app_assoc); reflexivity.
Qed.

End StageEvents.

Section RunTraces.

Variable re_search : string -> string -> bool.
Variable self : Orchestrator.
Variable w : World.

Lemma run_from_try_block target mode scope_file allow_unblock output_dir run_id :
  make_run_id (time_time w) target = Ok run_id ->
  mkdir w (output_base self output_dir) run_id = Ok tt ->
  run_pipeline re_search self w target mode scope_file allow_unblock output_dir =
  (Ok match outcome (try_block re_search self w run_id target mode scope_file allow_unblock) with
      | Ok r => r
      | Raise e => failed e run_id
      end,
   [Mkdir (output_base self output_dir) run_id;
    SaveRun run_id target mode (output_base self output_dir)] ++
   events (try_block re_search self w run_id target mode scope_file allow_unblock))%list.
Proof.
  intros Hid Hmk. unfold run_pipeline. rewrite Hid, Hmk.
  rewrite (uniform_try_block re_search self w run_id target mode scope_file allow_unblock _).
  unfold outcome, events.
  destruct (try_block _ _ _ _ _ _ _ _ []) as [[r|e] tr]; reflexivity.
Qed.

Lemma try_block_allowed run_id target mode scope_file allow_unblock d :
  let scoped := is_target_in_scope (policy_engine self) (load_scope w) (gemini_scope w)
                  target scope_file [] in
  fst scoped = Ok d ->
  eq_str (decision d) "BLOCKED" = false ->
  eq_str (decision d) "UNKNOWN" = false ->
  try_block re_search self w run_id target mode scope_file allow_unblock [] =
  (outcome (after_scope_check re_search self w run_id target mode),
   (map PolicyLogged (snd scoped) ++
    events (after_scope_check re_search self w run_id target mode))%list).
Proof.
  intros scoped Hd Hb Hu. unfold try_block, and_then at 1, policy_call at 1.
  subst scoped. destruct (is_target_in_scope _ _ _ _ _ _) as [v log].
  cbn [fst snd] in *. subst v. rewrite Hb, Hu. cbn [app].
  apply uniform_after_scope_check.
Qed.

Lemma scanned_app a b : scanned (a ++ b) = (scanned a ++ scanned b)%list.
Proof. apply flat_map_app. Qed.

Lemma crawled_app a b : crawled (a ++ b) = (crawled a ++ crawled b)%list.
Proof. apply flat_map_app. Qed.

Lemma reported_app a b : reported (a ++ b) = (reported a ++ reported b)%list.
Proof. apply flat_map_app. Qed.

Lemma projections_policy log :
  scanned (map PolicyLogged log) = [] /\ crawled (map PolicyLogged log) = [] /\
  reported (map PolicyLogged log) = [].
Proof. induction log; cbn; auto. Qed.

Lemma projections_crawl hosts :
  scanned (map Crawl hosts) = [] /\ crawled (map Crawl hosts) = hosts /\
  reported (map Crawl hosts) = [].
Proof.
  induction hosts as [|h hosts (IH1 & IH2 & IH3)]; cbn; auto.
  repeat split; auto. unfold crawled in IH2. now rewrite IH2.
Qed.

Lemma projections_scan mode hosts :
  scanned (flat_map (scan_events re_search self w mode) hosts) =
    filter (permitted re_search self w mode) hosts /\
  crawled (flat_map (scan_events re_search self w mode) hosts) = [] /\
  reported (flat_map (scan_events re_search self w mode) hosts) = [].
Proof.
  induction hosts as [|h hosts (IH1 & IH2 & IH3)]; cbn [flat_map filter]; auto.
  rewrite scanned_app, crawled_app, reported_app, IH1, IH2, IH3.
  unfold scan_events.
  rewrite scanned_app, crawled_app, reported_app.
  destruct (projections_policy
              (snd (validate_scanner_action re_search (policy_engine self)
                      (gemini_action w (descriptor h)) (descriptor h) [])))
    as (-> & -> & ->).
  destruct (permitted re_search self w mode h); cbn; auto.
Qed.

Lemma projections_triage run_id fs :
  scanned (flat_map (triage_events self w run_id) fs) = [] /\
  crawled (flat_map (triage_events self w run_id) fs) = [] /\
  reported (flat_map (triage_events self w run_id) fs) = [].
Proof.
  assert (H : forall l, scanned (map (SaveFinding run_id) l) = [] /\
                        crawled (map (SaveFinding run_id) l) = [] /\
                        reported (map (SaveFinding run_id) l) = []).
  { induction l; cbn; auto. }
  induction fs as [|f fs (IH1 & IH2 & IH3)]; cbn [flat_map]; auto.
  rewrite scanned_app, crawled_app, reported_app, IH1, IH2, IH3.
  unfold triage_events. destruct (H (triage_of self w f)) as (H1 & H2 & H3).
  cbn. unfold scanned, crawled, reported in *. rewrite H1, H2, H3. auto.
Qed.

End RunTraces.

Section AllowedRuns.

Variable re_search : string -> string -> bool.
Variable self : Orchestrator.
Variable w : World.

(** The events of an allowed run that reaches the active stages. *)
Lemma allowed_run_trace target mode scope_file allow_unblock output_dir run_id scoped recon :
  make_run_id (time_time w) target = Ok run_id ->
  mkdir w (output_base self output_dir) run_id = Ok tt ->
  fst (is_target_in_scope (policy_engine self) (load_scope w) (gemini_scope w)
         target scope_file []) = Ok scoped ->
  decision scoped = PStr "ALLOWED" ->
  passive_recon_run w target = Ok recon ->
  write_json w run_id "recon.json" = Ok tt ->
  (mode =? "passive-only") = false ->
  let hosts := live_hosts recon in
  let run := run_pipeline re_search self w target mode scope_file allow_unblock output_dir in
  scanned (snd run) = filter (permitted re_search self w mode) hosts /\
  crawled (snd run) = crawled (crawl_events mode hosts) /\
  reported (snd run) =
    reported (snd (closing w run_id target (triaged_findings re_search self w mode hosts))) /\
  fst run = Ok match fst (closing w run_id target (triaged_findings re_search self w mode hosts)) with
               | Ok r => r
               | Raise e => failed e run_id
               end.
Proof.
  intros Hid Hmk Hscoped Hallowed Hrecon Hwrite Hmode hosts run. subst run.
  rewrite (run_from_try_block _ _ _ _ _ _ _ _ _ Hid Hmk).
  unfold outcome, events.
  rewrite (try_block_allowed _ _ _ _ _ _ _ _ scoped Hscoped)
    by (rewrite Hallowed; reflexivity).
  unfold outcome, events.
  rewrite (after_scope_check_from_start _ _ _ _ _ _ recon Hrecon Hwrite Hmode).
  cbn [fst snd]. fold hosts.
  set (log := snd (is_target_in_scope _ _ _ _ _ _)).
  set (end_ := closing w run_id target (triaged_findings re_search self w mode hosts)).
  destruct (projections_policy log) as (Hp1 & Hp2 & Hp3).
  destruct (projections_scan re_search self w mode hosts) as (Hs1 & Hs2 & Hs3).
  destruct (projections_triage self w run_id (scan_findings re_search self w mode hosts))
    as (Ht1 & Ht2 & Ht3).
  assert (Hc : scanned (crawl_events mode hosts) = [] /\
               reported (crawl_events mode hosts) = []).
  { unfold crawl_events. destruct (existsb _ _); [|auto].
    destruct (projections_crawl (firstn 5 hosts)) as (? & _ & ?). auto. }
  destruct Hc as (Hc1 & Hc3).
  assert (He : scanned (snd end_) = [] /\ crawled (snd end_) = []).
  { unfold end_, closing. destruct (write_json w run_id "findings.json"); auto. }
  destruct He as (He1 & He2).
  repeat split.
  - rewrite !scanned_app, Hp1, Hs1, Ht1, Hc1, He1. cbn. now rewrite app_nil_r.
  - rewrite !crawled_app, Hp2, Hs2, Ht2, He2. cbn. now rewrite !app_nil_r.
  - rewrite !reported_app, Hp3, Hs3, Ht3, Hc3. reflexivity.
Qed.

End AllowedRuns.

Section RunShapes.

Variable re_search : string -> string -> bool.
Variable self : Orchestrator.
Variable w : World.

Lemma inactive_projections (l : list Event) :
  quiet l = true -> scanned l = [] /\ crawled l = [] /\ reported l = [].
Proof.
  induction l as [|e l IH]; cbn; auto.
  intros H. apply andb_true_iff in H as [He Hl]. destruct (IH Hl) as (H1 & H2 & H3).
  unfold scanned, crawled, reported in *.
  destruct e; cbn in *; try discriminate; rewrite ?H1, ?H2, ?H3; auto.
Qed.

Lemma quiet_app a b : quiet (a ++ b) = quiet a && quiet b.
Proof. apply forallb_app. Qed.

Lemma quiet_policy log : quiet (map PolicyLogged log) = true.
Proof. induction log; cbn; auto. Qed.

(** Up to the scope check the run adds no event of an active stage; after
    it, the events are those of the later stages. *)
Lemma try_block_shape run_id target mode scope_file allow_unblock :
  exists before,
    quiet before = true /\
    (events (try_block re_search self w run_id target mode scope_file allow_unblock) = before \/
     events (try_block re_search self w run_id target mode scope_file allow_unblock) =
     (before ++ events (after_scope_check re_search self w run_id target mode))%list).
Proof.
  unfold events at 1 2. unfold try_block, and_then at 1 3, policy_call at 1 2.
  destruct (is_target_in_scope _ _ _ _ _ _) as [[d|e] log].
  2:{ exists (map PolicyLogged log). split; [apply quiet_policy | left; reflexivity]. }
  cbn [app].
  destruct (eq_str (decision d) "BLOCKED").
  { exists (map PolicyLogged log). split; [apply quiet_policy | left; reflexivity]. }
  destruct (eq_str (decision d) "UNKNOWN").
  - destruct (negb allow_unblock || negb (ALLOW_MANUAL_UNBLOCK (config self))).
    { exists (map PolicyLogged log). split; [apply quiet_policy | left; reflexivity]. }
    unfold _confirm_manual_override, and_then, call, policy.
    destruct (input w) as [answer|e].
    + destruct (strip answer =? "I_ACCEPT_RISK"); cbn [negb pure fst snd log_policy_decision app map].
      * eexists. split; [|right].
        2:{ rewrite (uniform_after_scope_check re_search self w run_id target mode _).
            cbn [snd]. reflexivity. }
        cbn [fst snd]; rewrite ?quiet_app, ?quiet_policy; reflexivity.
      * eexists. split; [|left; reflexivity].
        cbn [fst snd]; rewrite ?quiet_app, ?quiet_policy; reflexivity.
    + eexists. split; [|left; reflexivity].
      cbn [fst snd]; rewrite ?quiet_app, ?quiet_policy; reflexivity.
  - exists (map PolicyLogged log). split; [apply quiet_policy | right].
    rewrite (uniform_after_scope_check re_search self w run_id target mode _). reflexivity.
Qed.

(** The later stages, in the four ways they can go. *)
Lemma after_scope_check_shape run_id target mode :
  events (after_scope_check re_search self w run_id target mode) = [Recon target] \/
  events (after_scope_check re_search self w run_id target mode) =
    [Recon target; WriteRecon run_id] \/
  exists recon,
    passive_recon_run w target = Ok recon /\
    (mode =? "passive-only") = false /\
    events (after_scope_check re_search self w run_id target mode) =
    ([Recon target; WriteRecon run_id] ++
     crawl_events mode (live_hosts recon) ++
     flat_map (scan_events re_search self w mode) (live_hosts recon) ++
     flat_map (triage_events self w run_id)
       (scan_findings re_search self w mode (live_hosts recon)) ++
     snd (closing w run_id target
            (triaged_findings re_search self w mode (live_hosts recon))))%list.
Proof.
  destruct (passive_recon_run w target) as [recon|e] eqn:Hrecon.
  - destruct (write_json w run_id "recon.json") as [[]|e] eqn:Hwrite.
    + destruct (mode =? "passive-only") eqn:Hmode.
      * right; left. unfold events, after_scope_check, and_then, call.
        rewrite Hrecon, Hwrite, Hmode. reflexivity.
      * right; right. exists recon. split; [reflexivity|]. split; [reflexivity|].
        unfold events.
        now rewrite (after_scope_check_from_start _ _ _ _ _ _ recon Hrecon Hwrite Hmode).
    + right; left. unfold events, after_scope_check, and_then, call.
      rewrite Hrecon, Hwrite. reflexivity.
  - left. unfold events, after_scope_check, and_then, call. rewrite Hrecon. reflexivity.
Qed.

End RunShapes.

(** X11: a run in mode [passive-only] never crawls, scans, triages or
    reports, whatever the scope decision and the answers of its
    collaborators: no event of those stages is in its trace. *)
Theorem passive_only_runs_no_active_stage (re_search : string -> string -> bool)
    (self : Orchestrator) (w : World) (target : string) (scope_file : option string)
    (allow_unblock : bool) (output_dir : option string) :
  let run := run_pipeline re_search self w target "passive-only" scope_file allow_unblock
               output_dir in
  forallb (fun e => negb (active e)) (snd run) = true /\
  crawled (snd run) = [] /\ scanned (snd run) = [] /\ reported (snd run) = [].
Proof.
  intros run.
  assert (Hq : quiet (snd run) = true).
  { subst run. unfold run_pipeline.
    destruct (make_run_id (time_time w) target) as [run_id|e]; [|reflexivity].
    destruct (mkdir w (output_base self output_dir) run_id) as [[]|e]; [|reflexivity].
    rewrite (uniform_try_block re_search self w run_id target "passive-only" scope_file
               allow_unblock _).
    assert (Hev : quiet (events (try_block re_search self w run_id target "passive-only"
                                   scope_file allow_unblock)) = true).
    { destruct (try_block_shape re_search self w run_id target "passive-only" scope_file
                  allow_unblock) as (before & Hb & [-> | ->]); [exact Hb|].
      rewrite quiet_app, Hb.
      destruct (after_scope_check_shape re_search self w run_id target "passive-only")
        as [-> | [-> | (recon & _ & Hmode & _)]]; try reflexivity.
      discriminate Hmode. }
    unfold events in Hev.
    destruct (try_block _ _ _ _ _ _ _ _ []) as [[r|e] tr]; cbn [fst snd] in *;
      rewrite quiet_app, Hev; reflexivity. }
  split; [exact Hq|].
  destruct (inactive_projections _ Hq) as (H1 & H2 & H3). auto.
Qed.

(** X12: a run crawls at most five hosts, and only in the modes
    [safe-scan] and [full-scan-with-validation]: every host it crawls is
    one of the first five live hosts that reconnaissance returned. *)
Theorem crawl_stage_is_capped (re_search : string -> string -> bool)
    (self : Orchestrator) (w : World) (target mode : string) (scope_file : option string)
    (allow_unblock : bool) (output_dir : option string) :
  let run := run_pipeline re_search self w target mode scope_file allow_unblock output_dir in
  List.length (crawled (snd run)) <= 5 /\
  (forall host, In host (crawled (snd run)) ->
     (mode = "safe-scan" \/ mode = "full-scan-with-validation") /\
     exists recon, passive_recon_run w target = Ok recon /\
                   In host (firstn 5 (live_hosts recon))).
Proof.
  intros run.
  assert (Hc : crawled (snd run) = [] \/
               exists recon, passive_recon_run w target = Ok recon /\
                             crawled (snd run) = crawled (crawl_events mode (live_hosts recon))).
  { subst run. unfold run_pipeline.
    destruct (make_run_id (time_time w) target) as [run_id|e]; [|left; reflexivity].
    destruct (mkdir w (output_base self output_dir) run_id) as [[]|e]; [|left; reflexivity].
    rewrite (uniform_try_block re_search self w run_id target mode scope_file allow_unblock _).
    assert (Hev : crawled (events (try_block re_search self w run_id target mode
                                     scope_file allow_unblock)) = [] \/
                  exists recon, passive_recon_run w target = Ok recon /\
                    crawled (events (try_block re_search self w run_id target mode
                                       scope_file allow_unblock)) =
                    crawled (crawl_events mode (live_hosts recon))).
    { destruct (try_block_shape re_search self w run_id target mode scope_file
                  allow_unblock) as (before & Hb & [-> | ->]).
      - left. apply inactive_projections, Hb.
      - destruct (inactive_projections _ Hb) as (_ & Hb2 & _).
        rewrite crawled_app, Hb2. cbn [app].
        destruct (after_scope_check_shape re_search self w run_id target mode)
          as [-> | [-> | (recon & Hrecon & Hmode & ->)]]; try (left; reflexivity).
        right. exists recon. split; [exact Hrecon|].
        destruct (projections_scan re_search self w mode (live_hosts recon)) as (_ & Hs & _).
        destruct (projections_triage self w run_id
                    (scan_findings re_search self w mode (live_hosts recon))) as (_ & Ht & _).
        rewrite !crawled_app, Hs, Ht.
        assert (He : crawled (snd (closing w run_id target
                      (triaged_findings re_search self w mode (live_hosts recon)))) = []).
        { unfold closing. destruct (write_json w run_id "findings.json"); reflexivity. }
        rewrite He. cbn. now rewrite app_nil_r. }
    unfold events in Hev.
    destruct (try_block _ _ _ _ _ _ _ _ []) as [[r|e] tr]; cbn [fst snd] in *;
      rewrite crawled_app; cbn [crawled flat_map app]; exact Hev. }
  destruct Hc as [-> | (recon & Hrecon & ->)].
  - split; [cbn; lia | intros host []].
  - unfold crawl_events.
    destruct (existsb (String.eqb mode) ["safe-scan"; "full-scan-with-validation"]) eqn:Hmode.
    + destruct (projections_crawl (firstn 5 (live_hosts recon))) as (_ & -> & _).
      split; [apply firstn_le_length|].
      intros host Hin. split; [|exists recon; auto].
      cbn in Hmode. rewrite orb_false_r in Hmode.
      apply orb_true_iff in Hmode as [H | H]; apply String.eqb_eq in H; auto.
    + split; [cbn; lia | intros host []].
Qed.

(** X13: in a run that the scope check allows and that is not
    passive-only, the hosts scanned are, in order, exactly the live hosts
    whose scan the policy gate does not refuse: those it decides BLOCKED
    are skipped, and those it decides REQUIRES_VALIDATION are skipped
    unless the mode is [full-scan-with-validation]. *)
Theorem scan_stage_follows_the_gate (re_search : string -> string -> bool)
    (self : Orchestrator) (w : World) (target mode : string) (scope_file : option string)
    (allow_unblock : bool) (output_dir : option string) (run_id : string)
    (scoped : PolicyDecision) (recon : ReconResults) :
  make_run_id (time_time w) target = Ok run_id ->
  mkdir w (output_base self output_dir) run_id = Ok tt ->
  fst (is_target_in_scope (policy_engine self) (load_scope w) (gemini_scope w)
         target scope_file []) = Ok scoped ->
  decision scoped = PStr "ALLOWED" ->
  passive_recon_run w target = Ok recon ->
  write_json w run_id "recon.json" = Ok tt ->
  (mode =? "passive-only") = false ->
  scanned (snd (run_pipeline re_search self w target mode scope_file allow_unblock output_dir)) =
  filter (permitted re_search self w mode) (live_hosts recon).
Proof.
  intros Hid Hmk Hscoped Hallowed Hrecon Hwrite Hmode.
  apply (allowed_run_trace re_search self w target mode scope_file allow_unblock output_dir
           run_id scoped recon Hid Hmk Hscoped Hallowed Hrecon Hwrite Hmode).
Qed.

Lemma scan_stage_follows_the_gate_witness :
  scanned (snd (run_pipeline search_literal Sample.orchestrator
                  (Sample.world 1700000000.25 (CallRaised "timeout") "")
                  "api.example.com" "safe-scan" (Some "scope.json") false None)) =
  ["https://api.example.com"].
Proof.
  rewrite (scan_stage_follows_the_gate search_literal Sample.orchestrator
             (Sample.world 1700000000.25 (CallRaised "timeout") "")
             "api.example.com" "safe-scan" (Some "scope.json") false None
             "1700000000_api_example_com"
             {| Policy.decision := PStr "ALLOWED"; Policy.confidence := PFloat 1.0;
                Policy.reason := "Target matches in-scope pattern: *.example.com";
                Policy.details := [Lit "Target is within defined program scope"] |}
             {| subdomains := ["api.example.com"];
                live_hosts := ["https://api.example.com"] |});
    reflexivity.
Defined.

(** X14: in such a run the report generator is called once, with the
    findings of the scanned hosts that the scorer could score, sorted; the
    run succeeds with their number, and a failure of the generator makes
    it a failed run with the text of the exception. *)
Theorem report_gets_the_triaged_findings (re_search : string -> string -> bool)
    (self : Orchestrator) (w : World) (target mode : string) (scope_file : option string)
    (allow_unblock : bool) (output_dir : option string) (run_id : string)
    (scoped : PolicyDecision) (recon : ReconResults) :
  make_run_id (time_time w) target = Ok run_id ->
  mkdir w (output_base self output_dir) run_id = Ok tt ->
  fst (is_target_in_scope (policy_engine self) (load_scope w) (gemini_scope w)
         target scope_file []) = Ok scoped ->
  decision scoped = PStr "ALLOWED" ->
  passive_recon_run w target = Ok recon ->
  write_json w run_id "recon.json" = Ok tt ->
  (mode =? "passive-only") = false ->
  write_json w run_id "findings.json" = Ok tt ->
  let run := run_pipeline re_search self w target mode scope_file allow_unblock output_dir in
  let triaged :=
    sort_desc
      (flat_map (triage_of self w)
         (flat_map (findings_of w)
            (filter (permitted re_search self w mode) (live_hosts recon)))) in
  reported (snd run) = [triaged] /\
  match report_generate w run_id target triaged with
  | Ok _ => fst run = Ok {| success := true; reason := None; run_id := run_id;
                            findings := Some (List.length triaged) |}
  | Raise e => fst run = Ok (failed e run_id)
  end.
Proof.
  intros Hid Hmk Hscoped Hallowed Hrecon Hwrite Hmode Hfindings run triaged.
  destruct (allowed_run_trace re_search self w target mode scope_file allow_unblock output_dir
              run_id scoped recon Hid Hmk Hscoped Hallowed Hrecon Hwrite Hmode)
    as (_ & _ & Hrep & Hres).
  fold run in Hrep, Hres.
  change (triaged_findings re_search self w mode (live_hosts recon)) with triaged in *.
  unfold closing in *. rewrite Hfindings in *. cbn [fst snd] in *.
  split; [exact Hrep|].
  destruct (report_generate w run_id target triaged); exact Hres.
Qed.

Lemma report_gets_the_triaged_findings_witness :
  fst (run_pipeline search_literal Sample.orchestrator
         (Sample.world 1700000000.25 (CallRaised "timeout") "")
         "api.example.com" "safe-scan" (Some "scope.json") false None) =
  Ok {| success := true; reason := None; run_id := "1700000000_api_example_com";
        findings := Some 1 |}.
Proof.
  pose proof (report_gets_the_triaged_findings search_literal Sample.orchestrator
                (Sample.world 1700000000.25 (CallRaised "timeout") "")
                "api.example.com" "safe-scan" (Some "scope.json") false None
                "1700000000_api_example_com"
                {| Policy.decision := PStr "ALLOWED"; Policy.confidence := PFloat 1.0;
                   Policy.reason := "Target matches in-scope pattern: *.example.com";
                   Policy.details := [Lit "Target is within defined program scope"] |}
                {| subdomains := ["api.example.com"];
                   live_hosts := ["https://api.example.com"] |}
                eq_refl eq_refl eq_refl eq_refl eq_refl eq_refl eq_refl eq_refl) as H.
  cbv zeta in H. destruct H as [_ H]. exact H.
Defined.

(** ** The order of the triaged findings *)

Lemma SFleb_total (x y : spec_float) :
  x <> S754_nan -> y <> S754_nan -> SFltb x y = false -> SFleb y x = true.
Proof.
  unfold SFleb, SFltb.
  destruct x as [s1| s1 | | s1 m1 e1], y as [s2 | s2 | | s2 m2 e2]; simpl;
    try destruct s1; try destruct s2; simpl; intros Hx Hy H;
    try discriminate; try reflexivity; try congruence; clear Hx Hy; order_cases.
Qed.

Lemma SFleb_trans (x y z : spec_float) :
  SFleb x y = true -> SFleb y z = true -> SFleb x z = true.
Proof.
  unfold SFleb.
  destruct x as [s1| s1 | | s1 m1 e1], y as [s2 | s2 | | s2 m2 e2],
           z as [s3| s3 | | s3 m3 e3]; simpl;
    try destruct s1; try destruct s2; try destruct s3; simpl; intros H1 H2;
    try discriminate; try reflexivity; order_cases.
Qed.

Lemma is_nan_false (x : float) : is_nan x = false -> Prim2SF x <> S754_nan.
Proof.
  unfold is_nan. rewrite eqb_spec. intros H E. rewrite E in H. discriminate.
Qed.

Lemma insert_desc_perm x l : Permutation (insert_desc x l) (x :: l).
Proof.
  induction l as [|y l IH]; cbn; [reflexivity|].
  destruct (_ <? _)%float; [|reflexivity].
  rewrite IH. apply perm_swap.
Qed.

Lemma sort_desc_perm l : Permutation (sort_desc l) l.
Proof.
  induction l as [|x l IH]; cbn; [reflexivity|].
  fold (sort_desc l). rewrite insert_desc_perm. now constructor.
Qed.

Lemma insert_desc_sorted x l :
  is_nan (key x) = false ->
  Forall (fun f => is_nan (key f) = false) l ->
  StronglySorted not_below l -> StronglySorted not_below (insert_desc x l).
Proof.
  intros Hx Hl Hs. induction Hs as [|y l Hs IH Hy]; cbn.
  - repeat constructor.
  - inversion Hl as [|? ? Hny Hl']; subst.
    fold (key x) (key y).
    destruct (key x <? key y)%float eqn:E.
    + constructor; [auto|].
      apply (Permutation_Forall (x := x :: l)); [symmetry; apply insert_desc_perm|].
      constructor; [|exact Hy].
      unfold not_below. rewrite leb_spec. apply SFltb_leb. now rewrite <- ltb_spec.
    + constructor; [constructor; assumption|].
      assert (Hxy : not_below x y).
      { unfold not_below. rewrite leb_spec. rewrite ltb_spec in E.
        apply SFleb_total; auto using is_nan_false. }
      constructor; [exact Hxy|].
      apply Forall_forall. intros z Hz.
      pose proof (proj1 (Forall_forall _ _) Hy z Hz) as Hyz.
      unfold not_below in *. rewrite leb_spec in *.
      now apply (SFleb_trans _ (Prim2SF (key y))).
Qed.

(** X15: the sort of the triaged findings keeps every finding, each as
    often as it occurs, and when no final score is NaN the result is in
    descending order of final score. *)
Theorem sort_desc_orders_by_score (findings : list TriagedFinding) :
  Permutation (sort_desc findings) findings /\
  (Forall (fun f => is_nan (Triage.final_score (snd f)) = false) findings ->
   StronglySorted
     (fun a b => (Triage.final_score (snd b) <=? Triage.final_score (snd a))%float = true)
     (sort_desc findings)).
Proof.
  split; [apply sort_desc_perm|].
  intros Hn. induction findings as [|x l IH]; cbn; [constructor|].
  inversion Hn as [|? ? Hx Hl]; subst. fold (sort_desc l).
  apply insert_desc_sorted; auto.
  apply (Permutation_Forall (x := l)); [symmetry; apply sort_desc_perm | exact Hl].
Qed.

Lemma sort_desc_orders_by_score_witness :
  StronglySorted
    (fun a b => (Triage.final_score (snd b) <=? Triage.final_score (snd a))%float = true)
    (sort_desc [Cases.ranked 0.2; Cases.ranked 0.9; Cases.ranked 0.56]).
Proof.
  apply (proj2 (sort_desc_orders_by_score
                  [Cases.ranked 0.2; Cases.ranked 0.9; Cases.ranked 0.56])).
  repeat constructor.
Defined.

End RunFlow.

(** ** The report generator *)

Section ReportProperties.

Import Orchestrator Report.

(** X16: a finding that the scorer scored and the report keeps as
    significant has a final score above 0.5, so its severity was not
    lowered: the adjusted severity, which is also the group it is counted
    in, is the finding's severity in lower case, or [high] for a [medium]
    finding scored above 0.8. *)
Theorem significant_findings_keep_their_severity (self : Triage.TriageEngine)
    (gemini : Gemini.Advisory) (finding : Finding) (r : Triage.TriageResult) :
  Triage.score_finding self gemini finding = Ok r ->
  is_significant (finding, r) = true ->
  let original := lower (get_or (f_severity finding) "unknown") in
  (0.5 <? Triage.final_score r)%float = true /\
  Triage.severity_adjusted r =
    (if (0.8 <? Triage.final_score r)%float && (original =? "medium") then "high"
     else original) /\
  severity_key (finding, r) = Triage.severity_adjusted r.
Proof.
  intros Hscore Hsig original.
  unfold is_significant in Hsig. cbn [snd] in Hsig.
  apply andb_true_iff in Hsig as [Habove _].
  assert (Hadj : Triage.severity_adjusted r =
                 if (0.8 <? Triage.final_score r)%float && (original =? "medium")
                 then "high" else original).
  { rewrite (score_finding_severity self gemini finding r Hscore).
    unfold Triage._adjust_severity. fold original.
    rewrite (above_not_below 0.3 0.5 _ eq_refl Habove), (ltb_not_ltb _ _ Habove).
    destruct (0.8 <? Triage.final_score r)%float; [|reflexivity].
    destruct (original =? "medium"); reflexivity. }
  split; [exact Habove|]. split; [exact Hadj|].
  unfold severity_key. cbn [snd]. rewrite Hadj.
  destruct ((0.8 <? Triage.final_score r)%float && (original =? "medium"));
    [reflexivity | apply lower_idempotent].
Qed.

Lemma significant_findings_keep_their_severity_witness :
  exists r,
    Triage.score_finding Sample.triage_engine Sample.scored (Sample.finding (Some "Low"))
      = Ok r /\
    Triage.severity_adjusted r = "low" /\
    severity_key (Sample.finding (Some "Low"), r) = "low".
Proof.
  eexists. split; [reflexivity|].
  pose proof (significant_findings_keep_their_severity Sample.triage_engine Sample.scored
                (Sample.finding (Some "Low")) _ eq_refl eq_refl) as H.
  cbv zeta in H. destruct H as (_ & H1 & H2).
  split; [exact H1 | exact H2].
Defined.

Lemma group_of_add (severity k : string) (finding : TriagedFinding)
    (by_severity : list (string * list TriagedFinding)) :
  group_of (add_to_group severity finding by_severity) k =
  if severity =? k then (group_of by_severity k ++ [finding])%list
  else group_of by_severity k.
Proof.
  induction by_severity as [|[k0 members] rest IH]; cbn [add_to_group group_of].
  - destruct (severity =? k); reflexivity.
  - destruct (k0 =? severity) eqn:E; cbn [group_of].
    + apply String.eqb_eq in E. subst k0. destruct (severity =? k); reflexivity.
    + rewrite IH. destruct (k0 =? k) eqn:Ek; [|reflexivity].
      apply String.eqb_eq in Ek. subst k0.
      rewrite String.eqb_sym, E. reflexivity.
Qed.

Lemma keys_add (severity : string) (finding : TriagedFinding)
    (by_severity : list (string * list TriagedFinding)) :
  NoDup (map fst by_severity) ->
  NoDup (map fst (add_to_group severity finding by_severity)) /\
  forall k, In k (map fst (add_to_group severity finding by_severity)) <->
            k = severity \/ In k (map fst by_severity).
Proof.
  induction by_severity as [|[k0 members] rest IH]; cbn [add_to_group map fst]; intros Hnd.
  - split; [repeat constructor; intros []|]. intros k. cbn. intuition.
  - inversion Hnd as [|? ? Hnotin Hrest]; subst.
    destruct (k0 =? severity) eqn:E; cbn [map fst].
    + apply String.eqb_eq in E. subst k0. split; [exact Hnd|].
      intros k. cbn. intuition.
    + apply String.eqb_neq in E.
      destruct (IH Hrest) as [Hnd' Hin]. split.
      * constructor; [|exact Hnd']. rewrite Hin. intros [-> | H]; [now apply E | now apply Hnotin].
      * intros k. cbn. rewrite Hin. intuition.
Qed.

Lemma fold_groups (findings : list TriagedFinding)
    (by_severity : list (string * list TriagedFinding)) (k : string) :
  group_of (fold_left (fun by_severity finding =>
                         add_to_group (severity_key finding) finding by_severity)
                      findings by_severity) k =
  (group_of by_severity k ++ filter (fun f => severity_key f =? k) findings)%list.
Proof.
  revert by_severity. induction findings as [|f fs IH]; intros by_severity; cbn [fold_left filter].
  - now rewrite app_nil_r.
  - rewrite IH, group_of_add. destruct (severity_key f =? k).
    + now rewrite <- app_assoc.
    + reflexivity.
Qed.

Lemma fold_keys (findings : list TriagedFinding)
    (by_severity : list (string * list TriagedFinding)) :
  NoDup (map fst by_severity) ->
  NoDup (map fst (fold_left (fun by_severity finding =>
                         add_to_group (severity_key finding) finding by_severity)
                      findings by_severity)) /\
  forall k, In k (map fst (fold_left (fun by_severity finding =>
                         add_to_group (severity_key finding) finding by_severity)
                      findings by_severity)) <->
            In k (map severity_key findings) \/ In k (map fst by_severity).
Proof.
  revert by_severity. induction findings as [|f fs IH]; intros by_severity Hnd; cbn [fold_left map].
  - split; [exact Hnd|]. intros k. cbn. intuition.
  - destruct (keys_add (severity_key f) f by_severity Hnd) as [Hnd' Hin].
    destruct (IH _ Hnd') as [H1 H2]. split; [exact H1|].
    intros k. rewrite H2, Hin. cbn. intuition.
Qed.

(** X17: [_group_by_severity] puts every finding in the group of its
    adjusted severity in lower case and in no other: the group of a
    severity holds the findings of that severity in their order, no
    severity has two groups, and a severity has a group only when some
    finding has it. *)
Theorem groups_partition_the_findings (findings : list TriagedFinding) (severity : string) :
  group_of (_group_by_severity findings) severity =
    filter (fun finding => severity_key finding =? severity) findings /\
  NoDup (map fst (_group_by_severity findings)) /\
  (In severity (map fst (_group_by_severity findings)) <->
   exists finding, In finding findings /\ severity_key finding = severity).
Proof.
  unfold _group_by_severity. split; [|split].
  - now rewrite fold_groups.
  - apply fold_keys. constructor.
  - destruct (fold_keys findings [] (NoDup_nil _)) as [_ H]. rewrite H.
    rewrite in_map_iff. cbn. split.
    + intros [(f & Hf & Hin) | []]. now exists f.
    + intros (f & Hin & Hf). left. now exists f.
Qed.

Lemma sum_positive_lines (lines : list (string * nat)) :
  list_sum (map snd (filter (fun line => (0 <? snd line)%nat) lines)) =
  list_sum (map snd lines).
Proof.
  induction lines as [|[k n] lines IH]; [reflexivity|]. cbn [filter map snd].
  destruct n; [exact IH|]. change (0 <? S n)%nat with true. cbn [map snd].
  unfold list_sum in *. cbn [fold_right]. now rewrite IH.
Qed.

Lemma count_step (names : list string) (f : TriagedFinding) (fs : list TriagedFinding) :
  NoDup names ->
  list_sum (map (fun k => List.length (filter (fun f => severity_key f =? k) (f :: fs))) names) =
  (list_sum (map (fun k => List.length (filter (fun f => String.eqb (severity_key f) k) fs)) names) +
   (if existsb (String.eqb (severity_key f)) names then 1 else 0))%nat.
Proof.
  induction names as [|k names IH]; intros Hnd; [reflexivity|].
  inversion Hnd as [|? ? Hnotin Hrest]; subst.
  cbn [map existsb]. unfold list_sum in *. cbn [fold_right]. rewrite (IH Hrest).
  cbn [filter]. destruct (severity_key f =? k) eqn:E; cbn [orb List.length]; [|lia].
  apply String.eqb_eq in E. subst k.
  destruct (existsb (String.eqb (severity_key f)) names) eqn:Ex; [|lia].
  apply existsb_exists in Ex. destruct Ex as (k & Hin & Hk).
  apply String.eqb_eq in Hk. subst k. contradiction.
Qed.

Lemma sum_counts (names : list string) (fs : list TriagedFinding) :
  NoDup names ->
  list_sum (map (fun k => List.length (filter (fun f => severity_key f =? k) fs)) names) =
  List.length (filter (fun f => existsb (String.eqb (severity_key f)) names) fs).
Proof.
  intros Hnd. induction fs as [|f fs IH].
  - cbn [filter List.length]. induction names as [|k names IHn]; [reflexivity|].
    inversion Hnd; subst. unfold list_sum in *. cbn [map fold_right]. now rewrite IHn.
  - rewrite count_step by exact Hnd. rewrite IH. cbn [filter].
    destruct (existsb _ names); cbn [List.length]; lia.
Qed.

(** X18: the summary prints a count for the severities critical, high,
    medium, low and info only, each the number of findings of that
    severity when it is not zero; the counts add up to the number of
    findings whose severity is one of the five, so a finding of another
    severity (say [unknown]) is in the total of the report and in no
    line. *)
Theorem summary_counts_only_named_severities (findings : list TriagedFinding) :
  list_sum (map snd (summary_lines (_group_by_severity findings))) =
  List.length (filter (fun finding => existsb (String.eqb (severity_key finding)) severity_names)
                      findings) /\
  (forall severity count,
     In (severity, count) (summary_lines (_group_by_severity findings)) ->
     In severity severity_names /\ (0 < count)%nat /\
     count = List.length (filter (fun finding => severity_key finding =? severity) findings)).
Proof.
  split.
  - unfold summary_lines. rewrite sum_positive_lines, map_map. cbn [snd].
    rewrite <- sum_counts.
    + f_equal. apply map_ext. intros k. unfold _group_by_severity. now rewrite fold_groups.
    + unfold severity_names.
      repeat (constructor; [cbn; intros H; repeat destruct H as [H | H]; discriminate || contradiction|]).
      constructor.
  - intros severity count Hin. unfold summary_lines in Hin.
    apply filter_In in Hin. destruct Hin as [Hin Hpos].
    apply in_map_iff in Hin. destruct Hin as (k & Heq & Hk).
    injection Heq as -> <-. split; [exact Hk|]. split.
    + cbn [snd] in Hpos. now apply Nat.ltb_lt in Hpos.
    + unfold _group_by_severity. now rewrite fold_groups.
Qed.

End ReportProperties.

(** ** The rate limiter *)

Section LimiterProperties.

Import Limiter.

Lemma init_fields (rate_per_minute concurrency : Z) (self : RateLimiter) :
  init rate_per_minute concurrency = Ok self ->
  (0 < rate_per_minute)%Z /\ (0 <= concurrency)%Z /\
  rate self = rate_per_minute /\ max_concurrency self = concurrency /\
  permits self = concurrency /\ request_times self = [] /\ last_request self = 0%float.
Proof.
  unfold init.
  destruct (Z.eqb_spec rate_per_minute 0); [discriminate|].
  destruct (float_of_Z rate_per_minute); cbn [bind]; [|discriminate].
  destruct (Z.ltb_spec concurrency 0); [discriminate|].
  destruct (_ || _)%bool; [discriminate|].
  destruct (Z.ltb_spec rate_per_minute 0); [discriminate|].
  intros [= <-]. cbn. repeat split; lia.
Qed.

Lemma deque_append_bound (maxlen : Z) (q : list float) (x : float) :
  (0 <= maxlen)%Z -> (Z.of_nat (List.length q) <= maxlen)%Z ->
  (Z.of_nat (List.length (deque_append maxlen q x)) <= maxlen)%Z.
Proof.
  intros Hm Hq. unfold deque_append.
  destruct (Z.ltb_spec maxlen (Z.of_nat (List.length (q ++ [x])))) as [H | H]; [|exact H].
  rewrite List.length_app in H. cbn [List.length] in H.
  destruct q as [|y q]; cbn [app tl List.length] in *; [lia|].
  rewrite List.length_app. cbn [List.length]. lia.
Qed.

Lemma after_sound (calls : list Call) (self self' : RateLimiter) :
  sound self -> after self calls = Some self' ->
  sound self' /\ rate self' = rate self /\
  permits self' = (permits self - acquisitions calls + releases calls)%Z.
Proof.
  revert self. induction calls as [|c calls IH]; intros self Hs; cbn [after].
  - intros [= <-]. unfold acquisitions, releases. cbn. repeat split; try apply Hs; lia.
  - destruct Hs as (Hr & Hp & Hq). destruct c as [clock later|].
    + unfold acquire. destruct (Z.leb_spec (permits self) 0) as [Hz | Hz]; [discriminate|].
      intros H. apply IH in H.
      * cbn in H. destruct H as (H1 & H2 & H3). split; [exact H1|]. split; [exact H2|].
        rewrite H3. unfold acquisitions, releases. cbn [filter List.length]. lia.
      * unfold sound. cbn. repeat split; try lia.
        now apply deque_append_bound.
    + intros H. apply IH in H.
      * cbn in H. destruct H as (H1 & H2 & H3). split; [exact H1|]. split; [exact H2|].
        rewrite H3. unfold acquisitions, releases. cbn [filter List.length]. lia.
      * unfold sound. cbn. repeat split; lia.
Qed.









(** X19: after any series of calls that a limiter went through, the queue
    of request times holds at most [rate_per_minute] entries, the permits
    left are the initial ones less the acquisitions plus the releases and
    are not negative, and [get_current_rate] answers the float 0.0 or a
    count between 0 and [rate_per_minute]; with a rate of 1 it answers
    0.0 always, since the queue never holds two entries. *)
Theorem limiter_bookkeeping (rate_per_minute concurrency : Z) (calls : list Call)
    (fresh self : RateLimiter) (now : float) :
  init rate_per_minute concurrency = Ok fresh ->
  after fresh calls = Some self ->
  (Z.of_nat (List.length (request_times self)) <= rate_per_minute)%Z /\
  permits self = (concurrency - acquisitions calls + releases calls)%Z /\
  (0 <= permits self)%Z /\
  (get_current_rate self now = PFloat 0.0 \/
   exists n, get_current_rate self now = PInt n /\ (0 <= n <= rate_per_minute)%Z) /\
  (rate_per_minute = 1%Z -> get_current_rate self now = PFloat 0.0).
Proof.
  intros Hinit Hafter.
  destruct (init_fields _ _ _ Hinit) as (Hr & Hc & Hrate & _ & Hp & Hq & _).
  assert (Hs : sound fresh).
  { unfold sound. rewrite Hrate, Hp, Hq. cbn. lia. }
  destruct (after_sound calls fresh self Hs Hafter) as ((_ & Hp' & Hq') & Hrate' & Hperm).
  rewrite Hrate', Hrate in Hq'. rewrite Hp in Hperm.
  split; [exact Hq'|]. split; [exact Hperm|]. split; [exact Hp'|]. split.
  - unfold get_current_rate. destruct (_ <? 2)%nat; [left; reflexivity|].
    right. eexists. split; [reflexivity|].
    pose proof (filter_length_le (fun t => (now - t <? 60)%float) (request_times self)).
    lia.
  - intros ->. unfold get_current_rate.
    destruct (Nat.ltb_spec (List.length (request_times self)) 2); [reflexivity | lia].
Qed.

Lemma limiter_bookkeeping_witness :
  exists self,
    after Cases.limiter Cases.calls = Some self /\
    permits self = 3%Z /\
    (Z.of_nat (List.length (request_times self)) <= 5)%Z.
Proof.
  eexists. split; [reflexivity|].
  destruct (limiter_bookkeeping 5 4 Cases.calls Cases.limiter _ 0%float eq_refl eq_refl)
    as (H1 & H2 & _).
  split; [exact H2 | exact H1].
Defined.

Lemma after_some_iff (calls : list Call) (self : RateLimiter) :
  (0 <= permits self)%Z ->
  ((exists self', after self calls = Some self') <->
   forall n, (acquisitions (firstn n calls) <= permits self + releases (firstn n calls))%Z).
Proof.
  revert self. induction calls as [|c calls IH]; intros self Hp.
  - cbn. split; [|eauto]. intros _ n. rewrite firstn_nil.
    unfold acquisitions, releases. cbn. lia.
  - destruct c as [clock later|]; cbn [after].
    + unfold acquire. destruct (Z.leb_spec (permits self) 0) as [Hz | Hz].
      * split; [intros [? H]; discriminate|].
        intros H. specialize (H 1%nat). unfold acquisitions, releases in H. cbn in H. lia.
      * rewrite IH by (cbn; lia). cbn [permits].
        split; intros H n.
        -- destruct n as [|n]; [unfold acquisitions, releases; cbn; lia|].
           specialize (H n). unfold acquisitions, releases in *.
           cbn [firstn filter List.length] in *. lia.
        -- specialize (H (S n)). unfold acquisitions, releases in *.
           cbn [firstn filter List.length] in *. lia.
    + rewrite IH by (cbn; lia). cbn [permits release].
      split; intros H n.
      * destruct n as [|n]; [unfold acquisitions, releases; cbn; lia|].
        specialize (H n). unfold acquisitions, releases in *.
        cbn [firstn filter List.length] in *. lia.
      * specialize (H (S n)). unfold acquisitions, releases in *.
        cbn [firstn filter List.length] in *. lia.
Qed.

(** X20: a single caller gets through a series of calls without waiting
    exactly when, at every point of the series, the acquisitions so far
    do not exceed [max_concurrency] plus the releases so far: a release
    adds a permit whether or not one was taken, so the bound is not
    capped at [max_concurrency]. *)
Theorem permits_bound_acquisitions (rate_per_minute concurrency : Z) (calls : list Call)
    (fresh : RateLimiter) :
  init rate_per_minute concurrency = Ok fresh ->
  ((exists self, after fresh calls = Some self) <->
   forall n, (acquisitions (firstn n calls) <=
              concurrency + releases (firstn n calls))%Z).
Proof.
  intros Hinit.
  destruct (init_fields _ _ _ Hinit) as (_ & Hc & _ & _ & Hp & _).
  rewrite after_some_iff by lia. now rewrite Hp.
Qed.

Lemma permits_bound_acquisitions_witness :
  (acquisitions (firstn 3 Cases.calls) <= 4 + releases (firstn 3 Cases.calls))%Z.
Proof.
  apply (proj1 (permits_bound_acquisitions 5 4 Cases.calls Cases.limiter eq_refl)).
  eexists. reflexivity.
Defined.

(** X21: the checks of [load_config] accept a rate of zero or below, and
    constructing the limiter with it raises; for a positive rate that the
    checks accept and a concurrency that is not negative the limiter is
    made, with all its permits and an empty queue. *)
Theorem limiter_needs_positive_rate (rate_per_minute concurrency : Z) :
  ((rate_per_minute <= 0)%Z ->
   (concurrency <= 20)%Z ->
   load_config_checks rate_per_minute concurrency = Ok tt /\
   exists e, init rate_per_minute concurrency = Raise e) /\
  ((0 < rate_per_minute)%Z ->
   load_config_checks rate_per_minute concurrency = Ok tt ->
   (0 <= concurrency)%Z ->
   exists fresh, init rate_per_minute concurrency = Ok fresh /\
                 permits fresh = concurrency /\ request_times fresh = []).
Proof.
  split.
  - intros Hr Hc. split.
    + unfold load_config_checks.
      destruct (Z.ltb_spec 100 rate_per_minute); [lia|].
      destruct (Z.ltb_spec 20 concurrency); [lia | reflexivity].
    + unfold init. destruct (Z.eqb_spec rate_per_minute 0); [eauto|].
      destruct (float_of_Z rate_per_minute); cbn [bind]; [|eauto].
      destruct (Z.ltb_spec concurrency 0); [eauto|].
      destruct (_ || _)%bool; [eauto|].
      destruct (Z.ltb_spec rate_per_minute 0); [eauto | lia].
  - intros Hr Hchecks Hc.
    assert (Hle : (rate_per_minute <= 100)%Z).
    { unfold load_config_checks in Hchecks.
      destruct (Z.ltb_spec 100 rate_per_minute); [discriminate | lia]. }
    assert (Hf : exists r, float_of_Z rate_per_minute = Ok r).
    { assert (Hall : forallb (fun n => match float_of_Z (Z.of_nat n) with
                                        | Ok _ => true | Raise _ => false end)
                               (List.seq 1 100) = true) by (vm_compute; reflexivity).
      rewrite forallb_forall in Hall.
      specialize (Hall (Z.to_nat rate_per_minute)).
      rewrite Z2Nat.id in Hall by lia.
      destruct (float_of_Z rate_per_minute); [eauto|].
      discriminate Hall. apply in_seq. lia. }
    destruct Hf as [r Hf]. unfold init. rewrite Hf.
    destruct (Z.eqb_spec rate_per_minute 0); [lia|]. cbn [bind].
    destruct (Z.ltb_spec concurrency 0); [lia|].
    destruct (Z.ltb_spec rate_per_minute (- 2 ^ 63)); [lia|].
    destruct (Z.ltb_spec (2 ^ 63 - 1) rate_per_minute); [lia|]. cbn [orb].
    destruct (Z.ltb_spec rate_per_minute 0); [lia|].
    eexists. repeat split.
Qed.

Lemma limiter_needs_positive_rate_witness :
  load_config_checks 0 4 = Ok tt /\ exists e, init 0 4 = Raise e.
Proof.
  apply (proj1 (limiter_needs_positive_rate 0 4)); lia.
Defined.

End LimiterProperties.

(** ** The crawler *)

Section CrawlProperties.

Import Crawler.

Variable valid_url : string -> bool.
Variable netloc : string -> string.
Variable urljoin : string -> string -> string.
Variable hrefs_at : string -> option (list string).

Lemma mem_In (url : string) (visited : list string) :
  mem url visited = true <-> In url visited.
Proof.
  unfold mem. rewrite existsb_exists. split.
  - intros (x & Hin & Hx). apply String.eqb_eq in Hx. now subst.
  - intros Hin. exists url. split; [exact Hin | apply String.eqb_refl].
Qed.

Lemma mem_not_In (url : string) (visited : list string) :
  mem url visited = false <-> ~ In url visited.
Proof.
  rewrite <- mem_In. destruct (mem url visited); split; congruence.
Qed.

Lemma firstn_subset {A : Type} (n : nat) (l : list A) (x : A) :
  In x (firstn n l) -> In x l.
Proof.
  intros H. rewrite <- (firstn_skipn n l). apply in_or_app. now left.
Qed.

Lemma extract_links_length (hrefs : list string) (base_url base_domain : string) :
  (List.length (_extract_links netloc urljoin hrefs base_url base_domain) <= 20)%nat.
Proof. unfold _extract_links. apply firstn_le_length. Qed.

Lemma extract_links_domain (hrefs : list string) (base_url base_domain link : string) :
  In link (_extract_links netloc urljoin hrefs base_url base_domain) ->
  netloc link = base_domain.
Proof.
  unfold _extract_links. intros H. apply firstn_subset in H.
  apply filter_In in H. destruct H as [_ H]. now apply String.eqb_eq in H.
Qed.

(** The loop ends within the iterations it is given, and what it adds. *)
Lemma crawl_loop_spec (max_depth max_pages : Z) (base_domain : string) (fuel : nat) :
  forall (to_visit : list (string * Z)) (discovered visited : list string),
  (List.length to_visit +
   21 * Z.to_nat (max_pages - Z.of_nat (List.length discovered)) < fuel)%nat ->
  exists added,
    crawl_loop netloc urljoin hrefs_at max_depth max_pages base_domain fuel
               to_visit discovered visited
    = Some ((discovered ++ added)%list, (rev added ++ visited)%list) /\
    NoDup added /\
    (forall url, In url added -> ~ In url visited) /\
    (forall url, In url added ->
       In url (map fst to_visit) \/ netloc url = base_domain) /\
    (Z.of_nat (List.length (discovered ++ added))
       <= Z.max (Z.of_nat (List.length discovered)) max_pages)%Z.
Proof.
  induction fuel as [|fuel IH]; intros to_visit discovered visited Hfuel; [lia|].
  cbn [crawl_loop].
  destruct to_visit as [|[url depth] rest].
  { exists []. rewrite app_nil_r. cbn. repeat split; try constructor; try contradiction; lia. }
  destruct (Z.ltb_spec (Z.of_nat (List.length discovered)) max_pages) as [Hlt | Hge].
  2:{ exists []. rewrite app_nil_r. cbn. repeat split; try constructor; try contradiction; lia. }
  cbn [List.length] in Hfuel.
  destruct (mem url visited || (max_depth <? depth)%Z) eqn:Hskip.
  - destruct (IH rest discovered visited) as (added & Heq & Hnd & Hfresh & Hdom & Hlen); [lia|].
    exists added. split; [exact Heq|]. split; [exact Hnd|]. split; [exact Hfresh|].
    split; [|exact Hlen].
    intros u Hu. destruct (Hdom u Hu) as [H | H]; [left; cbn; now right | now right].
  - apply orb_false_iff in Hskip. destruct Hskip as [Hnew _].
    apply mem_not_In in Hnew.
    assert (Hk : (Z.to_nat (max_pages - Z.of_nat (List.length (discovered ++ [url]))) + 1 =
                  Z.to_nat (max_pages - Z.of_nat (List.length discovered)))%nat).
    { rewrite List.length_app. cbn [List.length]. lia. }
    assert (Hstep : forall to_visit',
              (List.length to_visit' <= List.length rest + 20)%nat ->
              (forall u, In u (map fst to_visit') ->
                         In u (map fst rest) \/ netloc u = base_domain) ->
              exists added,
                crawl_loop netloc urljoin hrefs_at max_depth max_pages base_domain fuel
                  to_visit' (discovered ++ [url])%list (url :: visited)
                = Some ((discovered ++ added)%list, (rev added ++ visited)%list) /\
                NoDup added /\
                (forall u, In u added -> ~ In u visited) /\
                (forall u, In u added ->
                   In u (map fst ((url, depth) :: rest)) \/ netloc u = base_domain) /\
                (Z.of_nat (List.length (discovered ++ added))
                   <= Z.max (Z.of_nat (List.length discovered)) max_pages)%Z).
    { intros to_visit' Hlen' Hdom'.
      destruct (IH to_visit' (discovered ++ [url])%list (url :: visited))
        as (added & Heq & Hnd & Hfresh & Hdom & Hlen); [lia|].
      exists (url :: added). split; [|split; [|split; [|split]]].
      - rewrite Heq. cbn [rev]. now rewrite <- !app_assoc.
      - constructor; [|exact Hnd]. intros Hin. apply (Hfresh url Hin). now left.
      - intros u [<- | Hu]; [exact Hnew|]. intros Hin. apply (Hfresh u Hu). now right.
      - intros u [<- | Hu]; [left; cbn; now left|].
        destruct (Hdom u Hu) as [H | H]; [|now right].
        destruct (Hdom' u H) as [H' | H']; [left; cbn; now right | now right].
      - rewrite <- app_assoc in Hlen. cbn [app] in Hlen.
        rewrite List.length_app in Hlen. cbn [List.length] in Hlen.
        rewrite List.length_app in *. cbn [List.length] in *. lia. }
    destruct (hrefs_at url) as [hrefs|].
    + apply Hstep.
      * rewrite List.length_app, length_map.
        pose proof (filter_length_le
                      (fun link => negb (mem link (url :: visited)))
                      (_extract_links netloc urljoin hrefs url base_domain)).
        pose proof (extract_links_length hrefs url base_domain). lia.
      * intros u Hu. rewrite map_app, in_app_iff in Hu. destruct Hu as [Hu | Hu]; [now left|].
        right. rewrite map_map in Hu. cbn [fst] in Hu. rewrite map_id in Hu.
        apply filter_In in Hu. destruct Hu as [Hu _].
        now apply extract_links_domain in Hu.
    + apply Hstep; [lia|]. intros u Hu. now left.
Qed.

(** X22: a crawl always ends, whatever the pages link to. It returns at
    most [max_pages] URLs (none when [max_pages] is not positive), no URL
    twice and none that the crawler had visited before; every URL it
    returns is the start URL or has the network location of the start
    URL; and the URLs it returns are what it adds to the visited set. *)
Theorem crawl_is_bounded_and_stays_on_site (max_depth max_pages : Z)
    (visited : list string) (start_url : string) :
  exists discovered visited',
    crawl valid_url netloc urljoin hrefs_at max_depth visited start_url max_pages
      = Some (discovered, visited') /\
    (Z.of_nat (List.length discovered) <= Z.max 0 max_pages)%Z /\
    NoDup discovered /\
    (forall url, In url discovered ->
       ~ In url visited /\ (url = start_url \/ netloc url = netloc start_url)) /\
    visited' = (rev discovered ++ visited)%list.
Proof.
  unfold crawl, sanitize_url.
  destruct (valid_url start_url).
  2:{ exists [], visited. cbn. repeat split; try constructor; try contradiction; lia. }
  destruct start_url as [|c start_url].
  { exists [], visited. cbn. repeat split; try constructor; try contradiction; lia. }
  destruct (crawl_loop_spec max_depth max_pages (netloc (String c start_url))
              (enough max_pages) [(String c start_url, 0%Z)] [] visited)
    as (added & Heq & Hnd & Hfresh & Hdom & Hlen).
  { unfold enough. cbn [List.length]. rewrite Z.sub_0_r. lia. }
  exists added, (rev added ++ visited)%list. cbn [app] in Heq, Hlen.
  split; [exact Heq|]. split; [exact Hlen|]. split; [exact Hnd|]. split; [|reflexivity].
  intros u Hu. split; [now apply Hfresh|].
  destruct (Hdom u Hu) as [[H | []] | H]; [left; now symmetry | now right].
Qed.

Lemma crawl_visited_start (max_depth max_pages : Z) (visited : list string)
    (start_url : string) :
  In start_url visited ->
  crawl valid_url netloc urljoin hrefs_at max_depth visited start_url max_pages
    = Some ([], visited).
Proof.
  intros Hin. unfold crawl, sanitize_url.
  destruct (valid_url start_url); [|reflexivity].
  destruct start_url as [|c start_url]; [reflexivity|].
  unfold enough. cbn [crawl_loop].
  destruct (Z.ltb_spec (Z.of_nat (@List.length string [])) max_pages); [|reflexivity].
  apply mem_In in Hin. rewrite Hin. cbn [orb]. reflexivity.
Qed.

(** X23: the visited set outlives the call, so a crawler crawls a start
    URL once: after a crawl from it (with a depth limit that is not
    negative and a positive page limit), every later crawl of the same
    crawler from the same URL returns no page and visits nothing. *)
Theorem crawler_never_crawls_a_start_page_twice (max_depth max_pages max_pages' : Z)
    (visited : list string) (start_url : string)
    (discovered visited' : list string) :
  (0 <= max_depth)%Z -> (0 < max_pages)%Z ->
  crawl valid_url netloc urljoin hrefs_at max_depth visited start_url max_pages
    = Some (discovered, visited') ->
  crawl valid_url netloc urljoin hrefs_at max_depth visited' start_url max_pages'
    = Some ([], visited').
Proof.
  intros Hdepth Hpages Hfirst.
  destruct (valid_url start_url) eqn:Hvalid.
  2:{ unfold crawl, sanitize_url in *. rewrite Hvalid in *. now injection Hfirst as <- <-. }
  destruct start_url as [|c s].
  { unfold crawl, sanitize_url in *. rewrite Hvalid in *. now injection Hfirst as <- <-. }
  apply crawl_visited_start.
  revert Hfirst. unfold crawl, sanitize_url. rewrite Hvalid.
  unfold enough. set (fuel := S (21 * Z.to_nat max_pages)). cbn [crawl_loop].
  destruct (Z.ltb_spec (Z.of_nat (@List.length string [])) max_pages) as [_ | H]; [|cbn in H; lia].
  destruct (mem (String c s) visited) eqn:Hmem.
  - cbn [orb]. intros [= <- <-]. now apply mem_In.
  - destruct (Z.ltb_spec max_depth 0); [lia|]. cbn [orb app].
    assert (Hevery : forall to_visit,
              (List.length to_visit <= 20)%nat ->
              crawl_loop netloc urljoin hrefs_at max_depth max_pages (netloc (String c s))
                fuel to_visit [String c s] (String c s :: visited)
              = Some (discovered, visited') -> In (String c s) visited').
    { intros to_visit Hlen Heq.
      destruct (crawl_loop_spec max_depth max_pages (netloc (String c s)) fuel
                  to_visit [String c s] (String c s :: visited))
        as (added & Heq' & _).
      { cbn [List.length]. unfold fuel. lia. }
      rewrite Heq' in Heq. injection Heq as _ <-.
      apply in_or_app. right. now left. }
    destruct (hrefs_at (String c s)) as [hrefs|].
    + apply Hevery. rewrite length_map.
      pose proof (filter_length_le
                    (fun link => negb (mem link (String c s :: visited)))
                    (_extract_links netloc urljoin hrefs (String c s) (netloc (String c s)))).
      pose proof (extract_links_length hrefs (String c s) (netloc (String c s))). lia.
    + apply Hevery. cbn. lia.
Qed.

End CrawlProperties.

Lemma crawler_never_crawls_a_start_page_twice_witness :
  Crawler.crawl Cases.site_valid Cases.site_netloc Cases.site_urljoin Cases.site_hrefs 3
    ["http://example.com/about"; "http://example.com/"] "http://example.com/" 50 =
  Some ([], ["http://example.com/about"; "http://example.com/"]).
Proof.
  apply (crawler_never_crawls_a_start_page_twice
           Cases.site_valid Cases.site_netloc Cases.site_urljoin Cases.site_hrefs
           3 50 50 [] "http://example.com/"
           ["http://example.com/"; "http://example.com/about"]);
    [lia | lia | vm_compute; reflexivity].
Defined.

(** ** The Nuclei runner *)

Section NucleiProperties.

Import Nuclei.

Lemma finding_of_object (target : string) (data : pyval) :
  match data with
  | PDict d =>
      match dict_get d "info" (PDict []) with
      | PDict _ => exists finding,
                     finding_of target data = Ok finding /\ finding_shaped target finding
      | _ => exists e, finding_of target data = Raise e
      end
  | _ => exists e, finding_of target data = Raise e
  end.
Proof.
  destruct data as [| | | | | |d]; try (eexists; reflexivity).
  destruct (dict_get d "info" (PDict [])) as [| | | | | |info] eqn:E;
    try (unfold finding_of; cbn [get bind]; rewrite E; eexists; reflexivity).
  unfold finding_of. cbn [get bind]. rewrite E. cbn [get bind].
  eexists. split; [reflexivity|]. unfold finding_shaped. repeat eexists.
Qed.

Lemma finding_of_shape (target : string) (data finding : pyval) :
  finding_of target data = Ok finding -> finding_shaped target finding.
Proof.
  intros H. pose proof (finding_of_object target data) as Hobj.
  destruct data as [| | | | | |d]; try (destruct Hobj as [e He]; congruence).
  destruct (dict_get d "info" (PDict [])) as [| | | | | |info];
    try (destruct Hobj as [e He]; congruence).
  destruct Hobj as (f & Hf & Hshape). congruence.
Qed.

Section Runner.

Variable valid_url : string -> bool.
Variable json_loads : string -> result pyval.
Variable subprocess_run : string -> result (Z * string).

Lemma parse_lines_shape (target : string) (lines : list string) :
  forall findings,
    parse_lines json_loads lines target = Ok findings ->
    Forall (finding_shaped target) findings /\
    (List.length findings <=
     List.length (filter (fun line => negb (String.eqb (strip line) "")) lines))%nat.
Proof.
  induction lines as [|line rest IH]; intros findings; cbn [parse_lines filter].
  - intros [= <-]. split; [constructor | cbn; lia].
  - destruct (strip line =? ""); cbn [negb]; [apply IH|].
    destruct (json_loads line) as [data|e].
    + destruct (finding_of target data) as [finding|e] eqn:Hf; cbn [bind]; [|discriminate].
      destruct (parse_lines json_loads rest target) as [fs|e]; cbn [bind]; [|discriminate].
      intros [= <-]. destruct (IH fs eq_refl) as [Hs Hl].
      split; [constructor; [now apply (finding_of_shape target data) | exact Hs]|].
      cbn [List.length]. lia.
    + intros H. destruct (IH findings H) as [Hs Hl]. split; [exact Hs|].
      cbn [List.length]. lia.
Qed.

Lemma parse_lines_raise (target line : string) (data : pyval) (e : exn)
    (lines : list string) :
  In line lines -> (strip line =? "") = false ->
  json_loads line = Ok data -> finding_of target data = Raise e ->
  exists e', parse_lines json_loads lines target = Raise e'.
Proof.
  intros Hin Hblank Hload Hraise.
  induction lines as [|l rest IH]; [contradiction|]. cbn [parse_lines].
  destruct Hin as [-> | Hin].
  - rewrite Hblank, Hload, Hraise. cbn [bind]. eauto.
  - destruct (IH Hin) as [e' He'].
    destruct (strip l =? ""); [eauto|].
    destruct (json_loads l) as [d|]; [|eauto].
    destruct (finding_of target d); cbn [bind]; [|eauto].
    rewrite He'. cbn [bind]. eauto.
Qed.

(** X24: whatever the scanner prints, every finding that [run] returns is
    a dictionary with the eight keys of a finding, for the sanitised
    target and the scanner [nuclei], and its evidence is itself a
    dictionary; [run] returns no more findings than the output has lines
    that are not blank, and none for a target that [sanitize_url]
    refuses. *)
Theorem nuclei_findings_are_shaped (target : string) :
  Forall (fun finding =>
            finding_shaped target finding /\
            exists evidence, get finding "evidence" (PStr "N/A") = Ok (PDict evidence))
         (run valid_url json_loads subprocess_run target) /\
  (forall returncode stdout,
      subprocess_run target = Ok (returncode, stdout) ->
      (List.length (run valid_url json_loads subprocess_run target)
       <= List.length (written_lines stdout))%nat) /\
  (valid_url target = false -> run valid_url json_loads subprocess_run target = []).
Proof.
  unfold run, Crawler.sanitize_url.
  destruct (valid_url target); [|repeat split; auto; cbn; lia].
  destruct target as [|c target]; [repeat split; auto; cbn; lia|].
  set (url := String c target).
  assert (Hshape : forall findings, Forall (finding_shaped url) findings ->
            Forall (fun finding =>
                      finding_shaped url finding /\
                      exists evidence,
                        get finding "evidence" (PStr "N/A") = Ok (PDict evidence)) findings).
  { intros findings H. apply Forall_forall. intros f Hin.
    pose proof (proj1 (Forall_forall _ _) H f Hin) as Hf. split; [exact Hf|].
    destruct Hf as (? & ? & ? & ? & ? & ? & ? & ? & ->). eexists. reflexivity. }
  destruct (subprocess_run url) as [[returncode stdout]|e].
  2:{ split; [constructor|]. split; [discriminate | discriminate]. }
  destruct ((returncode =? 0)%Z || negb (stdout =? "")).
  2:{ split; [constructor|]. split; [|discriminate]. intros ? ? _. cbn. lia. }
  unfold _parse_nuclei_output.
  destruct (parse_lines json_loads (split_lines stdout) url) as [findings|e] eqn:Hp.
  2:{ split; [constructor|]. split; [|discriminate]. intros ? ? _. cbn. lia. }
  destruct (parse_lines_shape url _ _ Hp) as [Hs Hl].
  split; [now apply Hshape|]. split; [|discriminate].
  intros rc out [= _ <-]. exact Hl.
Qed.

(** X25: a line that is not JSON is passed over, but a line that is JSON
    and no object (or an object whose [info] is no object) makes the
    parser raise [AttributeError], which [run] answers with no finding at
    all: one such line discards the findings of every other line. *)
Theorem nuclei_non_object_line_discards_all (target line : string)
    (returncode : Z) (stdout : string) (data : pyval) :
  subprocess_run target = Ok (returncode, stdout) ->
  In line (split_lines stdout) ->
  (strip line =? "") = false ->
  json_loads line = Ok data ->
  match data with
  | PDict d => match dict_get d "info" (PDict []) with PDict _ => False | _ => True end
  | _ => True
  end ->
  run valid_url json_loads subprocess_run target = [].
Proof.
  intros Hrun Hin Hblank Hload Hbad.
  unfold run, Crawler.sanitize_url.
  destruct (valid_url target); [|reflexivity].
  destruct target as [|c target]; [reflexivity|].
  rewrite Hrun.
  destruct ((returncode =? 0)%Z || negb (stdout =? "")); [|reflexivity].
  assert (Hraise : exists e, finding_of (String c target) data = Raise e).
  { pose proof (finding_of_object (String c target) data) as Hobj.
    destruct data as [| | | | | |d]; try exact Hobj.
    destruct (dict_get d "info" (PDict [])); try exact Hobj. contradiction. }
  destruct Hraise as [e He].
  destruct (parse_lines_raise (String c target) line data e _ Hin Hblank Hload He) as [e' He'].
  unfold _parse_nuclei_output. now rewrite He'.
Qed.

End Runner.

Lemma nuclei_findings_are_shaped_witness :
  (List.length (run (fun _ => true) Cases.three_lines (Cases.prints Cases.noisy_output)
                  "https://api.example.com")
   <= List.length (written_lines Cases.noisy_output))%nat.
Proof.
  destruct (nuclei_findings_are_shaped (fun _ => true) Cases.three_lines
              (Cases.prints Cases.noisy_output) "https://api.example.com") as (_ & H & _).
  apply (H 0%Z). reflexivity.
Defined.

Lemma nuclei_non_object_line_discards_all_witness :
  run (fun _ => true) Cases.three_lines (Cases.prints Cases.list_output)
      "https://api.example.com" = [] /\
  List.length (run (fun _ => true) Cases.three_lines (Cases.prints Cases.noisy_output)
                 "https://api.example.com") = 2.
Proof.
  split; [|reflexivity].
  apply (nuclei_non_object_line_discards_all (fun _ => true) Cases.three_lines
           (Cases.prints Cases.list_output) "https://api.example.com" "[]" 0
           Cases.list_output (PList [])).
  - reflexivity.
  - right. left. reflexivity.
  - reflexivity.
  - reflexivity.
  - exact I.
Defined.

End NucleiProperties.
